(** * NotebookLM API client (internal/api/client.go): a shallow embedding

    The development follows the Go source function by function.

    - Go values of static type [interface{}] are the inductive [any]; a type
      assertion [x.(T)] is a match on its constructor.
    - [string] is Rocq's byte string, [int] and [int64] are [Z] kept in the
      64-bit range, [float64] is [spec_float] at binary64.
    - [fmt.Sprintf], [fmt.Errorf] and [fmt.Printf] are kept as the call the
      source makes: the format string and its operands; [fmt_render] renders
      the formats whose verbs are [%d] and [%s].
    - A method of [*Client] is a computation in the monad [Go]: it may issue
      RPCs (answered by the server of the [World], and recorded in its
      trace), write to standard output, return, or panic.  Format strings
      are kept as the source writes them, escapes included.
    - [encoding/json] and [encoding/base64] are Go's standard library; they
      are modelled in the modules [json] and [base64].
    - [io.ReadAll], [http.DetectContentType], [url.Parse] and the query
      lookup of [url.Values] are variables of the sections that use them;
      standard error, written by one function only, is passed to it and
      returned. *)

From Stdlib Require Import ZArith NArith List String Ascii Bool Lia.
From Stdlib Require Import SpecFloat DecimalString DecimalZ DecimalNat.
Import ListNotations.

Local Open Scope string_scope.
Local Open Scope list_scope.
Local Open Scope Z_scope.

(** ** Go's predeclared types *)

Definition int := Z.
Definition int64 := Z.
Definition float64 := spec_float.

Definition minInt64 : Z := - 2 ^ 63.
Definition maxInt64 : Z := 2 ^ 63 - 1.

(** The integer part of a finite float, rounded toward zero. *)
Definition float64_trunc (f : float64) : option Z :=
  match f with
  | S754_zero _ => Some 0
  | S754_finite s m e =>
      let mag := if 0 <=? e then Z.shiftl (Zpos m) e else Z.shiftr (Zpos m) (- e) in
      Some (if s then - mag else mag)
  | S754_infinity _ | S754_nan => None
  end.

(** The conversions [int64(f)] and [int(f)] of a [float64].  A value that
    does not fit is implementation-specific in Go; amd64 yields the smallest
    integer, which is what is written here. *)
Definition int64_of_float64 (f : float64) : int64 :=
  match float64_trunc f with
  | Some z => if (minInt64 <=? z) && (z <=? maxInt64) then z else minInt64
  | None => minInt64
  end.

Definition int_of_float64 (f : float64) : int := int64_of_float64 f.

(** [json.RawMessage] is a byte slice. *)
Definition RawMessage := string.

(** [len] of a string or byte slice. *)
Definition len_bytes (s : string) : Z := Z.of_nat (String.length s).

(** ** Enumerations of the generated package [pb]

    The package is generated code that the repository's sources do not
    include; the enumerations list the names the client mentions, the first
    one being the zero value. *)

Inductive SourceSettings_SourceStatus :=
| SourceSettings_SOURCE_STATUS_UNSPECIFIED
| SourceSettings_SOURCE_STATUS_ENABLED
| SourceSettings_SOURCE_STATUS_DISABLED
| SourceSettings_SOURCE_STATUS_ERROR.

Inductive SourceType :=
| SourceType_SOURCE_TYPE_UNSPECIFIED
| SourceType_SOURCE_TYPE_YOUTUBE_VIDEO.

(** ** Dynamically typed values, formatted text and errors *)

Local Unset Elimination Schemes.

Inductive any :=
| Nil                                   (* nil *)
| Bool (b : bool)                       (* bool *)
| Float64 (f : float64)                 (* float64 *)
| Int (n : int)                         (* int *)
| Str (s : string)                      (* string *)
| Slice (l : list any)                  (* []interface{} *)
| IntSlice (l : list int)               (* []int *)
| StringSlice (l : list string)         (* []string *)
| Map (m : list (string * any))         (* map[string]interface{} *)
| EnumSourceType (t : SourceType)       (* pb.SourceType *)
| Err (e : errorValue)                  (* a non-nil error *)
with errorValue :=
| Errorf (format : string) (args : list any)       (* fmt.Errorf(format, args...) *)
| SyntaxError (input : RawMessage)                 (* *json.SyntaxError for this input *)
| UnmarshalTypeError (Value : string) (GoType : string)  (* *json.UnmarshalTypeError *)
| CorruptInputError (offset : Z)                   (* base64.CorruptInputError *)
| serverError (msg : string).                      (* an error of package rpc *)

Local Set Elimination Schemes.

(** The interface type [error]: [None] is [nil]. *)
Definition error := option errorValue.

(** A string built by [fmt.Sprintf], or a literal. *)
Inductive text :=
| Lit (s : string)
| Sprintf (format : string) (args : list any).

(** [%d] of an integer. *)
Definition fmt_d (n : int) : string := NilZero.string_of_int (Z.to_int n).

(** Rendering of a format whose verbs are [%d] on an [Int] operand and [%s]
    on a [Str] operand; [None] for any other verb or operand. *)
Fixpoint fmt_render (format : string) (args : list any) : option string :=
  match format with
  | EmptyString => match args with [] => Some EmptyString | _ => None end
  | String "%"%char (String v rest) =>
      match v, args with
      | "d"%char, Int n :: args' =>
          option_map (String.append (fmt_d n)) (fmt_render rest args')
      | "s"%char, Str s :: args' =>
          option_map (String.append s) (fmt_render rest args')
      | _, _ => None
      end
  | String "%"%char EmptyString => None
  | String c rest => option_map (String c) (fmt_render rest args)
  end.

Definition text_render (t : text) : option string :=
  match t with
  | Lit s => Some s
  | Sprintf format args => fmt_render format args
  end.

(** ** Type assertions [x.(T)] in their two-result form *)

Definition as_slice (x : any) : option (list any) :=
  match x with Slice l => Some l | _ => None end.
Definition as_string (x : any) : option string :=
  match x with Str s => Some s | _ => None end.
Definition as_float64 (x : any) : option float64 :=
  match x with Float64 f => Some f | _ => None end.
Definition as_bool (x : any) : option bool :=
  match x with Bool b => Some b | _ => None end.

(** [x == nil] *)
Definition is_nil (x : any) : bool :=
  match x with Nil => true | _ => false end.

(** [len] of a slice. *)
Definition len {A} (l : list A) : Z := Z.of_nat (List.length l).

(** Indexing a slice: [None] is the run-time panic "index out of range". *)
Definition index {A} (l : list A) (i : Z) : option A :=
  if i <? 0 then None else nth_error l (Z.to_nat i).

(** ** encoding/json: [json.Unmarshal] into a [[]interface{}]

    The decoder first checks that the input is one JSON text (RFC 8259),
    then stores it: an array becomes the slice of its elements, [null]
    leaves the slice nil, any other value is an [UnmarshalTypeError].
    Elements are stored as Go does for [interface{}]: [nil], [bool],
    [float64], [string], [[]interface{}], [map[string]interface{}]. *)

Module json.

Definition code (c : ascii) : N := N_of_ascii c.

Definition between (lo hi : N) (c : ascii) : bool :=
  ((lo <=? code c) && (code c <=? hi))%N.

Definition is_space (c : ascii) : bool :=
  (code c =? 32)%N || (code c =? 9)%N || (code c =? 10)%N || (code c =? 13)%N.

Definition is_digit (c : ascii) : bool := between 48 57 c.

Inductive token :=
| TLBracket | TRBracket | TLBrace | TRBrace | TComma | TColon
| TNull | TTrue | TFalse
| TString (raw : string)
| TNumber (lit : string).

(** *** Scanning bytes into tokens *)

Inductive lexstate :=
| LStart
| LString (acc : list ascii) (escaped : bool)
| LNumber (acc : list ascii)
| LLiteral (rest : string) (t : token).

Definition of_rev (acc : list ascii) : string := string_of_list_ascii (rev acc).

Definition lex_start (c : ascii) : option (list token * lexstate) :=
  if is_space c then Some ([], LStart)
  else if is_digit c then Some ([], LNumber [c])
  else match c with
       | "["%char => Some ([TLBracket], LStart)
       | "]"%char => Some ([TRBracket], LStart)
       | "{"%char => Some ([TLBrace], LStart)
       | "}"%char => Some ([TRBrace], LStart)
       | ","%char => Some ([TComma], LStart)
       | ":"%char => Some ([TColon], LStart)
       | "034"%char => Some ([], LString [] false)
       | "-"%char => Some ([], LNumber [c])
       | "n"%char => Some ([], LLiteral "ull" TNull)
       | "t"%char => Some ([], LLiteral "rue" TTrue)
       | "f"%char => Some ([], LLiteral "alse" TFalse)
       | _ => None
       end.

Definition is_number_char (c : ascii) : bool :=
  is_digit c ||
  match c with
  | "."%char | "e"%char | "E"%char | "+"%char | "-"%char => true
  | _ => false
  end.

Definition lex_step (st : lexstate) (c : ascii) : option (list token * lexstate) :=
  match st with
  | LStart => lex_start c
  | LString acc true => Some ([], LString (c :: acc) false)
  | LString acc false =>
      match c with
      | "034"%char => Some ([TString (of_rev acc)], LStart)
      | "\"%char => Some ([], LString (c :: acc) true)
      | _ => if (code c <? 32)%N then None else Some ([], LString (c :: acc) false)
      end
  | LNumber acc =>
      if is_number_char c then Some ([], LNumber (c :: acc))
      else match lex_start c with
           | Some (ts, st') => Some (TNumber (of_rev acc) :: ts, st')
           | None => None
           end
  | LLiteral rest t =>
      match rest with
      | String x EmptyString => if Ascii.eqb c x then Some ([t], LStart) else None
      | String x rest' => if Ascii.eqb c x then Some ([], LLiteral rest' t) else None
      | EmptyString => None
      end
  end.

Fixpoint lex (st : lexstate) (s : string) : option (list token) :=
  match s with
  | EmptyString =>
      match st with
      | LStart => Some []
      | LNumber acc => Some [TNumber (of_rev acc)]
      | LString _ _ | LLiteral _ _ => None
      end
  | String c r =>
      match lex_step st c with
      | Some (ts, st') => option_map (app ts) (lex st' r)
      | None => None
      end
  end.

(** *** String literals: escapes and coercion to well-formed UTF-8 *)

Definition hexval (c : ascii) : option N :=
  if between 48 57 c then Some (code c - 48)%N
  else if between 97 102 c then Some (code c - 87)%N
  else if between 65 70 c then Some (code c - 55)%N
  else None.

Definition hex4 (a b c d : ascii) : option N :=
  match hexval a, hexval b, hexval c, hexval d with
  | Some x, Some y, Some z, Some w => Some (((x * 16 + y) * 16 + z) * 16 + w)%N
  | _, _, _, _ => None
  end.

Definition byte_of (n : N) : ascii := ascii_of_N n.

(** [utf8.AppendRune] for a rune that is a Unicode scalar value. *)
Definition utf8_encode (r : N) (k : string) : string :=
  (if r <? 128 then String (byte_of r) k
   else if r <? 2048 then
     String (byte_of (192 + r / 64)) (String (byte_of (128 + r mod 64)) k)
   else if r <? 65536 then
     String (byte_of (224 + r / 4096))
       (String (byte_of (128 + (r / 64) mod 64))
          (String (byte_of (128 + r mod 64)) k))
   else
     String (byte_of (240 + r / 262144))
       (String (byte_of (128 + (r / 4096) mod 64))
          (String (byte_of (128 + (r / 64) mod 64))
             (String (byte_of (128 + r mod 64)) k))))%N.

(** [unicode.ReplacementChar], U+FFFD. *)
Definition replacement (k : string) : string := utf8_encode 65533 k.

Definition is_surrogate (r : N) : bool := ((55296 <=? r) && (r <? 57344))%N.

(** [utf16.DecodeRune]: [None] when the pair is not a valid surrogate pair. *)
Definition utf16_pair (r1 r2 : N) : option N :=
  (if (55296 <=? r1) && (r1 <? 56320) && (56320 <=? r2) && (r2 <? 57344)
   then Some ((r1 - 55296) * 1024 + (r2 - 56320) + 65536)
   else None)%N.

(** Bounds of the second byte of a multi-byte UTF-8 sequence, by its first
    byte, and the number of continuation bytes that follow the second. *)
Definition utf8_lead (c : ascii) : option (N * N * nat) :=
  let b := code c in
  (if (194 <=? b) && (b <=? 223) then Some (128, 191, 0%nat)
   else if b =? 224 then Some (160, 191, 1%nat)
   else if b =? 237 then Some (128, 159, 1%nat)
   else if (225 <=? b) && (b <=? 239) then Some (128, 191, 1%nat)
   else if b =? 240 then Some (144, 191, 2%nat)
   else if (241 <=? b) && (b <=? 243) then Some (128, 191, 2%nat)
   else if b =? 244 then Some (128, 143, 2%nat)
   else None)%N.

Definition is_cont (c : ascii) : bool := between 128 191 c.

Definition opt_cons (c : ascii) (o : option string) : option string :=
  option_map (String c) o.

(** The content of a string literal (the bytes between the quotes) as the Go
    string it denotes; [None] for an invalid escape or a raw control byte. *)
Fixpoint unquote (s : string) : option string :=
  match s with
  | EmptyString => Some EmptyString
  | String "\"%char EmptyString => None
  | String "\"%char (String e r) =>
      match e with
      | "034"%char | "\"%char | "/"%char => opt_cons e (unquote r)
      | "b"%char => opt_cons (byte_of 8) (unquote r)
      | "f"%char => opt_cons (byte_of 12) (unquote r)
      | "n"%char => opt_cons (byte_of 10) (unquote r)
      | "r"%char => opt_cons (byte_of 13) (unquote r)
      | "t"%char => opt_cons (byte_of 9) (unquote r)
      | "u"%char =>
          match r with
          | String a (String b (String c (String d r1))) =>
              match hex4 a b c d with
              | None => None
              | Some rr =>
                  if is_surrogate rr then
                    match r1 with
                    | String "\"%char (String "u"%char
                        (String a' (String b' (String c' (String d' r2))))) =>
                        match hex4 a' b' c' d' with
                        | Some rr1 =>
                            match utf16_pair rr rr1 with
                            | Some dec => option_map (utf8_encode dec) (unquote r2)
                            | None => option_map replacement (unquote r1)
                            end
                        | None => None
                        end
                    | _ => option_map replacement (unquote r1)
                    end
                  else option_map (utf8_encode rr) (unquote r1)
              end
          | _ => None
          end
      | _ => None
      end
  | String c r =>
      if (code c <? 32)%N || Ascii.eqb c "034"%char then None
      else if (code c <? 128)%N then opt_cons c (unquote r)
      else
        match utf8_lead c with
        | None => option_map replacement (unquote r)
        | Some (lo, hi, more) =>
            match r with
            | String c1 r1 =>
                if negb (between lo hi c1) then option_map replacement (unquote r)
                else
                  match more, r1 with
                  | O, _ => opt_cons c (opt_cons c1 (unquote r1))
                  | S O, String c2 r2 =>
                      if is_cont c2
                      then opt_cons c (opt_cons c1 (opt_cons c2 (unquote r2)))
                      else option_map replacement (unquote r)
                  | S (S _), String c2 (String c3 r3) =>
                      if is_cont c2 && is_cont c3
                      then opt_cons c (opt_cons c1 (opt_cons c2 (opt_cons c3 (unquote r3))))
                      else option_map replacement (unquote r)
                  | _, _ => option_map replacement (unquote r)
                  end
            | EmptyString => option_map replacement (unquote r)
            end
        end
  end.

(** *** Number literals: [strconv.ParseFloat(s, 64)] *)

Fixpoint span_digits (s : string) : string * string :=
  match s with
  | String c r =>
      if is_digit c then let '(d, k) := span_digits r in (String c d, k)
      else (EmptyString, s)
  | EmptyString => (EmptyString, EmptyString)
  end.

Fixpoint digits_value (acc : Z) (s : string) : Z :=
  match s with
  | String c r => digits_value (acc * 10 + Z.of_N (code c - 48)) r
  | EmptyString => acc
  end.

Definition nonempty (s : string) : bool :=
  match s with EmptyString => false | _ => true end.

(** The integer part: one digit, or several that do not start with 0. *)
Definition int_part_ok (d : string) : bool :=
  match d with
  | EmptyString => false
  | String _ EmptyString => true
  | String c _ => negb (Ascii.eqb c "0"%char)
  end.

(** A number literal as sign, decimal mantissa and decimal exponent;
    [None] when it does not follow the grammar of a JSON number. *)
Definition parse_number (lit : string) : option (bool * Z * Z) :=
  let '(neg, s) :=
    match lit with String "-"%char r => (true, r) | _ => (false, lit) end in
  let '(ip, s1) := span_digits s in
  if negb (int_part_ok ip) then None else
  let frac :=
    match s1 with
    | String "."%char r =>
        let '(fp, s2) := span_digits r in
        if nonempty fp then Some (fp, s2) else None
    | _ => Some (EmptyString, s1)
    end in
  match frac with
  | None => None
  | Some (fp, s2) =>
      let mant := digits_value 0 (ip ++ fp)%string in
      let scale := - Z.of_nat (String.length fp) in
      match s2 with
      | EmptyString => Some (neg, mant, scale)
      | String c r =>
          if Ascii.eqb c "e"%char || Ascii.eqb c "E"%char then
            let '(eneg, r') :=
              match r with
              | String "+"%char k => (false, k)
              | String "-"%char k => (true, k)
              | _ => (false, r)
              end in
            let '(ep, rest) := span_digits r' in
            if nonempty ep && negb (nonempty rest) then
              let e := digits_value 0 ep in
              Some (neg, mant, scale + (if eneg then - e else e))
            else None
          else None
      end
  end.

(** The binary64 number nearest to [mant * 10 ^ e10] (ties to even). *)
Definition float_of_decimal (neg : bool) (mant e10 : Z) : float64 :=
  match mant with
  | Zpos m =>
      if 0 <=? e10 then binary_round 53 1024 neg (m * Z.to_pos (10 ^ e10)) 0
      else SFdiv 53 1024 (S754_finite neg m 0)
                         (S754_finite false (Z.to_pos (10 ^ (- e10))) 0)
  | _ => S754_zero neg
  end.

(** *** Building values from tokens *)

Inductive frame :=
| FArray (acc : list any)
| FObject (acc : list (string * any)) (key : string).

Inductive pstate :=
| PValue (may_close : bool)   (* a value, or the closing bracket of an empty array *)
| PNext                       (* a comma, or the closing bracket or brace *)
| PKey (may_close : bool)     (* a key, or the closing brace of an empty object *)
| PColon (key : string)
| PEnd (v : any).

(** Go's maps hold one value per key: a later member replaces an earlier
    one with the same key. *)
Definition map_set (k : string) (v : any) (m : list (string * any)) :=
  (k, v) :: filter (fun p => negb (String.eqb (fst p) k)) m.

Definition complete (v : any) (stack : list frame) : list frame * pstate :=
  match stack with
  | [] => ([], PEnd v)
  | FArray acc :: st => (FArray (v :: acc) :: st, PNext)
  | FObject acc key :: st => (FObject (map_set key v acc) key :: st, PNext)
  end.

Definition maxNestingDepth : Z := 10000.

Definition push (f : frame) (stack : list frame) : option (list frame) :=
  if len stack <? maxNestingDepth then Some (f :: stack) else None.

(** The state of the decoder: open containers, what is expected next, and
    the first error saved while storing (the decoder goes on after it). *)
Definition dstate := (list frame * pstate * error)%type.

Definition save (e : errorValue) (saved : error) : error :=
  match saved with Some _ => saved | None => Some e end.

Definition parse_step (d : dstate) (t : token) : option dstate :=
  let '(stack, st, saved) := d in
  let done v := let '(stack', st') := complete v stack in Some (stack', st', saved) in
  match st, t with
  | PValue _, TNull => done Nil
  | PValue _, TTrue => done (Bool true)
  | PValue _, TFalse => done (Bool false)
  | PValue _, TString raw =>
      match unquote raw with Some s => done (Str s) | None => None end
  | PValue _, TNumber lit =>
      match parse_number lit with
      | None => None
      | Some (neg, mant, e10) =>
          match float_of_decimal neg mant e10 with
          | S754_infinity _ =>
              let '(stack', st') := complete Nil stack in
              Some (stack', st',
                    save (UnmarshalTypeError ("number " ++ lit) "float64") saved)
          | f => done (Float64 f)
          end
      end
  | PValue _, TLBracket =>
      option_map (fun s => (s, PValue true, saved)) (push (FArray []) stack)
  | PValue _, TLBrace =>
      option_map (fun s => (s, PKey true, saved)) (push (FObject [] "") stack)
  | PValue true, TRBracket =>
      match stack with
      | FArray [] :: st => let '(stack', st') := complete (Slice []) st in
                           Some (stack', st', saved)
      | _ => None
      end
  | PNext, TComma =>
      match stack with
      | FArray _ :: _ => Some (stack, PValue false, saved)
      | FObject _ _ :: _ => Some (stack, PKey false, saved)
      | [] => None
      end
  | PNext, TRBracket =>
      match stack with
      | FArray acc :: st => let '(stack', st') := complete (Slice (rev acc)) st in
                            Some (stack', st', saved)
      | _ => None
      end
  | PNext, TRBrace =>
      match stack with
      | FObject acc _ :: st => let '(stack', st') := complete (Map acc) st in
                               Some (stack', st', saved)
      | _ => None
      end
  | PKey _, TString raw =>
      match unquote raw with Some k => Some (stack, PColon k, saved) | None => None end
  | PKey true, TRBrace =>
      match stack with
      | FObject _ _ :: st => let '(stack', st') := complete (Map []) st in
                             Some (stack', st', saved)
      | _ => None
      end
  | PColon k, TColon =>
      match stack with
      | FObject acc _ :: st => Some (FObject acc k :: st, PValue false, saved)
      | _ => None
      end
  | _, _ => None
  end.

Fixpoint parse (d : dstate) (ts : list token) : option (any * error) :=
  match ts with
  | [] => match d with ([], PEnd v, saved) => Some (v, saved) | _ => None end
  | t :: ts' =>
      match parse_step d t with
      | Some d' => parse d' ts'
      | None => None
      end
  end.

(** One JSON text as a Go value, with the first error saved while storing
    its numbers; [None] when the input is not valid JSON. *)
Definition decode (input : string) : option (any * error) :=
  match lex LStart input with
  | Some ts => parse ([], PValue false, None) ts
  | None => None
  end.

(** [json.Unmarshal(input, &data)] for [var data []interface{}]: the slice
    [data] afterwards, and the error. *)
Definition Unmarshal (input : RawMessage) : list any * error :=
  match decode input with
  | None => ([], Some (SyntaxError input))
  | Some (Slice l, saved) => (l, saved)
  | Some (Nil, None) => ([], None)
  | Some (Map _, _) => ([], Some (UnmarshalTypeError "object" "[]interface {}"))
  | Some (Str _, _) => ([], Some (UnmarshalTypeError "string" "[]interface {}"))
  | Some (Bool _, _) => ([], Some (UnmarshalTypeError "bool" "[]interface {}"))
  | Some (_, _) => ([], Some (UnmarshalTypeError "number" "[]interface {}"))
  end.

End json.

(** ** encoding/base64: [base64.StdEncoding]

    The standard alphabet with [=] padding, not strict: the decoder skips
    carriage returns and line feeds and does not look at the unused bits of
    the last character. *)

Module base64.

Import Byte.

Definition encodeStd : string :=
  "ABCDEFGHIJKLMNOPQRSTUVWXYZabcdefghijklmnopqrstuvwxyz0123456789+/".

Definition padChar : ascii := "="%char.

(** [enc.encode[i]] *)
Definition enc_char (i : N) : ascii :=
  match String.get (N.to_nat i) encodeStd with
  | Some c => c
  | None => padChar
  end.

(** [enc.decodeMap[c]]; [None] stands for the entry 0xff. *)
Definition decodeMap (c : ascii) : option N :=
  let n := N_of_ascii c in
  (if (65 <=? n) && (n <=? 90) then Some (n - 65)
   else if (97 <=? n) && (n <=? 122) then Some (n - 71)
   else if (48 <=? n) && (n <=? 57) then Some (n + 4)
   else if n =? 43 then Some 62
   else if n =? 47 then Some 63
   else None)%N.

(** [byte(v)]: the low eight bits. *)
Definition byte_of (v : N) : byte :=
  match Byte.of_N (N.land v 255) with
  | Some b => b
  | None => x00
  end.

Definition sextet (val : N) (shift : N) : ascii :=
  enc_char (N.land (N.shiftr val shift) 63).

(** [enc.EncodeToString(src)] *)
Fixpoint EncodeToString (src : list byte) : string :=
  match src with
  | [] => EmptyString
  | [a] =>
      let val := N.shiftl (to_N a) 16 in
      String (sextet val 18) (String (sextet val 12)
        (String padChar (String padChar EmptyString)))
  | [a; b] =>
      let val := N.lor (N.shiftl (to_N a) 16) (N.shiftl (to_N b) 8) in
      String (sextet val 18) (String (sextet val 12) (String (sextet val 6)
        (String padChar EmptyString)))
  | a :: b :: c :: rest =>
      let val := N.lor (N.lor (N.shiftl (to_N a) 16) (N.shiftl (to_N b) 8)) (to_N c) in
      String (sextet val 18) (String (sextet val 12) (String (sextet val 6)
        (String (sextet val 0) (EncodeToString rest))))
  end.

Definition is_newline (c : ascii) : bool :=
  Ascii.eqb c "010"%char || Ascii.eqb c "013"%char.

(** The input after its leading newlines, and how many were skipped. *)
Fixpoint skip_newlines (s : string) (si : Z) : string * Z :=
  match s with
  | String c r => if is_newline c then skip_newlines r (si + 1) else (s, si)
  | EmptyString => (s, si)
  end.

(** The 24-bit value of the characters of a quantum: [dbuf[0]<<18 |
    dbuf[1]<<12 | dbuf[2]<<6 | dbuf[3]], absent characters being 0. *)
Definition quantum_val (dbuf : list N) : N :=
  N.lor (N.lor (N.lor (N.shiftl (nth 0 dbuf 0%N) 18) (N.shiftl (nth 1 dbuf 0%N) 12))
               (N.shiftl (nth 2 dbuf 0%N) 6))
        (nth 3 dbuf 0%N).

(** The [dlen - 1] bytes a quantum of [dlen] characters stands for. *)
Definition quantum_bytes (dbuf : list N) : list byte :=
  let val := quantum_val dbuf in
  firstn (List.length dbuf - 1)
    [byte_of (N.shiftr val 16); byte_of (N.shiftr val 8); byte_of val].

(** After the padding of a quantum: newlines, then the end of the input;
    anything else is trailing garbage. *)
Definition after_padding (s : string) (si : Z) : error :=
  let '(s', si') := skip_newlines s si in
  match s' with
  | EmptyString => None
  | String _ _ => Some (CorruptInputError si')
  end.

(** [enc.Decode]: the quanta of [s], which starts at offset [si] of an input
    of [n] bytes; [dbuf] holds the characters of the current quantum and
    [dst] the bytes decoded so far. *)
Fixpoint decode (n : Z) (s : string) (si : Z) (dbuf : list N) (dst : list byte)
  : list byte * error :=
  match s with
  | EmptyString =>
      match dbuf with
      | [] => (dst, None)
      | _ => (dst, Some (CorruptInputError (si - len dbuf)))
      end
  | String c r =>
      match decodeMap c with
      | Some v =>
          let dbuf' := dbuf ++ [v] in
          if (List.length dbuf' =? 4)%nat
          then decode n r (si + 1) [] (dst ++ quantum_bytes dbuf')
          else decode n r (si + 1) dbuf' dst
      | None =>
          if is_newline c then decode n r (si + 1) dbuf dst
          else if negb (Ascii.eqb c padChar) then (dst, Some (CorruptInputError si))
          else
            (* We've reached the end and there's padding *)
            match dbuf with
            | [] | [_] =>
                (* incorrect padding *)
                (dst, Some (CorruptInputError si))
            | [_; _] =>
                (* "==" is expected, the first "=" is already consumed *)
                let '(r', si') := skip_newlines r (si + 1) in
                match r' with
                | EmptyString =>
                    (* not enough padding *)
                    (dst, Some (CorruptInputError n))
                | String c' r'' =>
                    if negb (Ascii.eqb c' padChar)
                    then (dst, Some (CorruptInputError (si' - 1)))
                    else (dst ++ quantum_bytes dbuf, after_padding r'' (si' + 1))
                end
            | _ => (dst ++ quantum_bytes dbuf, after_padding r (si + 1))
            end
      end
  end.

(** [enc.DecodeString(s)] *)
Definition DecodeString (s : string) : list byte * error :=
  decode (len_bytes s) s 0 [] [].

(** *** Standard base64 text

    What "valid standard base64" means for this decoder, written from
    RFC 4648 section 4 rather than from the decoder: once carriage returns
    and line feeds are removed, the text is a sequence of groups of four
    characters of the alphabet, the last of which may end in one or two
    padding characters. *)

Definition in_alphabet (c : ascii) : bool :=
  match decodeMap c with Some _ => true | None => false end.

Fixpoint strip_newlines (s : string) : string :=
  match s with
  | EmptyString => EmptyString
  | String c r => if is_newline c then strip_newlines r else String c (strip_newlines r)
  end.

Definition is_empty (s : string) : bool :=
  match s with EmptyString => true | _ => false end.

Fixpoint well_formed (t : string) : bool :=
  match t with
  | EmptyString => true
  | String a (String b (String c (String d r))) =>
      in_alphabet a && in_alphabet b &&
      (if in_alphabet c then
         if in_alphabet d then well_formed r
         else Ascii.eqb d padChar && is_empty r
       else Ascii.eqb c padChar && Ascii.eqb d padChar && is_empty r)
  | _ => false
  end.

Definition valid_std_base64 (s : string) : bool := well_formed (strip_newlines s).

(** A decoding that ended without error. *)
Definition accepted (r : list byte * error) : Prop := snd r = None.

End base64.

(** ** Package rpc and the outside world

    Package rpc (the transport) is absent from the sources.  A call
    is answered by the server of the world, which sees the requests issued
    so far and the new one. *)

Inductive RPCID :=
| RPCListRecentlyViewedProjects
| RPCRefreshSource
| RPCCheckSourceFreshness
| RPCAddSources
| RPCCreateNote
| RPCCreateAudioOverview
| RPCGetAudioOverview
| RPCShareAudio.

Record Call := { ID : RPCID; Args : list any; NotebookID : string }.

Record FullResponse := { Data : RawMessage; RawArray : list any }.

(** The two entry points of [rpc.Client] the client uses. *)
Inductive request :=
| Do (call : Call)
| DoWithFullResponse (call : Call).

Record Server := {
  answer_Do : list request -> Call -> RawMessage * error;
  answer_DoWithFullResponse : list request -> Call -> option FullResponse * error
}.

(** An operand of [fmt.Printf]. *)
Inductive operand :=
| Value (v : any)
| Text (t : text)                                (* a string built by fmt.Sprintf *)
| StatusName (s : SourceSettings_SourceStatus).  (* s.String() *)

(** What the client writes to standard output. *)
Inductive output :=
| Printf (format : string) (args : list operand)
| spew_Dump (v : any).

Record World := {
  server : Server;
  trace : list request;      (* the requests issued so far, oldest first *)
  stdout : list output       (* oldest first *)
}.

Record rpc_Config := { Debug : bool }.
Record rpc_Client := { Config : rpc_Config }.
Record Client := { rpc : rpc_Client }.

(** [c.rpc.Config.Debug] *)
Definition debug (c : Client) : bool := Debug (Config (rpc c)).

(** ** Computations: return or panic, in a world *)

Inductive outcome (A : Type) :=
| Returns (a : A)
| Panics (reason : string).
Arguments Returns {A} a.
Arguments Panics {A} reason.

Definition Go (A : Type) : Type := World -> outcome A * World.

Definition ret {A} (a : A) : Go A := fun w => (Returns a, w).

Definition bind {A B} (m : Go A) (k : A -> Go B) : Go B :=
  fun w =>
    match m w with
    | (Returns a, w') => k a w'
    | (Panics r, w') => (Panics r, w')
    end.

Declare Scope go_scope.
Delimit Scope go_scope with go.
Notation "x <- m ;; k" := (bind m (fun x => k))
  (at level 61, m at next level, right associativity) : go_scope.
Notation "' pat <- m ;; k" := (bind m (fun x => match x with pat => k end))
  (at level 61, pat pattern, m at next level, right associativity) : go_scope.
Notation "m ;; k" := (bind m (fun _ => k))
  (at level 61, right associativity) : go_scope.
Local Open Scope go_scope.

Definition panic {A} (reason : string) : Go A := fun w => (Panics reason, w).

Definition result_of {A} (r : outcome A * World) : outcome A := fst r.
Definition world_of {A} (r : outcome A * World) : World := snd r.

Definition with_trace (w : World) (t : list request) : World :=
  {| server := server w; trace := t; stdout := stdout w |}.

Definition with_stdout (w : World) (o : list output) : World :=
  {| server := server w; trace := trace w; stdout := o |}.

(** [c.rpc.Do(call)] *)
Definition rpc_Do (call : Call) : Go (RawMessage * error) :=
  fun w => (Returns (answer_Do (server w) (trace w) call),
            with_trace w (trace w ++ [Do call])).

(** [c.rpc.DoWithFullResponse(call)] *)
Definition rpc_DoWithFullResponse (call : Call) : Go (option FullResponse * error) :=
  fun w => (Returns (answer_DoWithFullResponse (server w) (trace w) call),
            with_trace w (trace w ++ [DoWithFullResponse call])).

(** [fmt.Printf(format, args...)] *)
Definition fmt_Printf_operands (format : string) (args : list operand) : Go unit :=
  fun w => (Returns tt, with_stdout w (stdout w ++ [Printf format args])).

Definition fmt_Printf (format : string) (args : list any) : Go unit :=
  fmt_Printf_operands format (map Value args).

(** [spew.Dump(v)] *)
Definition spew_dump (v : any) : Go unit :=
  fun w => (Returns tt, with_stdout w (stdout w ++ [spew_Dump v])).

(** [if cond { body }] for a body run for its effect. *)
Definition when (cond : bool) (body : Go unit) : Go unit :=
  if cond then body else ret tt.

(** [l[i]]: a panic when [i] is out of range. *)
Definition at_ (l : list any) (i : Z) : Go any :=
  match index l i with
  | Some x => ret x
  | None => panic "index out of range"
  end.

(** [*p] of a pointer: a panic when it is nil. *)
Definition deref {A} (p : option A) : Go A :=
  match p with
  | Some x => ret x
  | None => panic "nil pointer dereference"
  end.

(** ** Audio operations *)

(** AudioOverviewResult represents an audio overview response. *)
Record AudioOverviewResult := {
  ProjectID : string;
  AudioID : string;
  Title : string;
  AudioData : string;     (* Base64 encoded audio data *)
  IsReady : bool
}.

Definition set_AudioData (v : string) (r : AudioOverviewResult) :=
  {| ProjectID := ProjectID r; AudioID := AudioID r; Title := Title r;
     AudioData := v; IsReady := IsReady r |}.
Definition set_AudioID (v : string) (r : AudioOverviewResult) :=
  {| ProjectID := ProjectID r; AudioID := v; Title := Title r;
     AudioData := AudioData r; IsReady := IsReady r |}.
Definition set_Title (v : string) (r : AudioOverviewResult) :=
  {| ProjectID := ProjectID r; AudioID := AudioID r; Title := v;
     AudioData := AudioData r; IsReady := IsReady r |}.
Definition set_IsReady (v : bool) (r : AudioOverviewResult) :=
  {| ProjectID := ProjectID r; AudioID := AudioID r; Title := Title r;
     AudioData := AudioData r; IsReady := v |}.

(** [if v, ok := x.(T); ok { result.F = v }] *)
Definition assign {T R} (v : option T) (set : T -> R -> R) (r : R) : R :=
  match v with Some x => set x r | None => r end.

(** [&AudioOverviewResult{ProjectID: projectID}] *)
Definition newAudioOverviewResult (projectID : string) : AudioOverviewResult :=
  {| ProjectID := projectID; AudioID := ""; Title := ""; AudioData := "";
     IsReady := false |}.

Definition CreateAudioOverview (c : Client) (projectID instructions : string)
  : Go (option AudioOverviewResult * error) :=
  if String.eqb projectID "" then
    ret (None, Some (Errorf "project ID required" []))
  else if String.eqb instructions "" then
    ret (None, Some (Errorf "instructions required" []))
  else
    '(resp, err) <- rpc_Do {| ID := RPCCreateAudioOverview;
                              Args := [Str projectID; Int 0; StringSlice [instructions]];
                              NotebookID := projectID |} ;;
    match err with
    | Some e => ret (None, Some (Errorf "create audio overview: %w" [Err e]))
    | None =>
        let '(data, err) := json.Unmarshal resp in
        match err with
        | Some e => ret (None, Some (Errorf "parse response JSON: %w" [Err e]))
        | None =>
            let result := newAudioOverviewResult projectID in
            (* Handle empty or nil response *)
            if len data =? 0 then ret (Some result, None)
            else if 2 <? len data then
              d2 <- at_ data 2 ;;
              match as_slice d2 with
              | None => ret (Some result, None)
              | Some audioData =>
                  if len audioData <? 4 then
                    (* Creation might be in progress, return result without error *)
                    ret (Some result, None)
                  else
                    a1 <- at_ audioData 1 ;;
                    let result := assign (as_string a1) set_AudioData result in
                    a2 <- at_ audioData 2 ;;
                    let result := assign (as_string a2) set_AudioID result in
                    a3 <- at_ audioData 3 ;;
                    let result := assign (as_string a3) set_Title result in
                    if 5 <? len audioData then
                      a5 <- at_ audioData 5 ;;
                      ret (Some (assign (as_bool a5) set_IsReady result), None)
                    else ret (Some result, None)
              end
            else ret (Some result, None)
        end
    end.

Definition GetAudioOverview (c : Client) (projectID : string)
  : Go (option AudioOverviewResult * error) :=
  '(resp, err) <- rpc_Do {| ID := RPCGetAudioOverview;
                            Args := [Str projectID; Int 1];
                            NotebookID := projectID |} ;;
  match err with
  | Some e => ret (None, Some (Errorf "get audio overview: %w" [Err e]))
  | None =>
      let '(data, err) := json.Unmarshal resp in
      match err with
      | Some e => ret (None, Some (Errorf "parse response JSON: %w" [Err e]))
      | None =>
          let result := newAudioOverviewResult projectID in
          (* Handle empty or nil response *)
          if len data =? 0 then ret (Some result, None)
          else if 2 <? len data then
            d2 <- at_ data 2 ;;
            match as_slice d2 with
            | None => ret (None, Some (Errorf "invalid audio data format" []))
            | Some audioData =>
                if len audioData <? 4 then
                  ret (None, Some (Errorf "invalid audio data format" []))
                else
                  a1 <- at_ audioData 1 ;;
                  let result := assign (as_string a1) set_AudioData result in
                  a2 <- at_ audioData 2 ;;
                  let result := assign (as_string a2) set_AudioID result in
                  a3 <- at_ audioData 3 ;;
                  let result := assign (as_string a3) set_Title result in
                  if 5 <? len audioData then
                    a5 <- at_ audioData 5 ;;
                    ret (Some (assign (as_bool a5) set_IsReady result), None)
                  else ret (Some result, None)
            end
          else ret (Some result, None)
      end
  end.

(** GetAudioBytes returns the decoded audio data. *)
Definition GetAudioBytes (r : AudioOverviewResult) : list Byte.byte * error :=
  if String.eqb (AudioData r) "" then
    ([], Some (Errorf "no audio data available" []))
  else base64.DecodeString (AudioData r).

(** ** Sharing operations *)

(** ShareOption represents audio sharing visibility options. *)
Definition ShareOption := int.
Definition SharePrivate : ShareOption := 0.
Definition SharePublic : ShareOption := 1.

(** ShareAudioResult represents the response from sharing audio. *)
Record ShareAudioResult := {
  ShareURL : string;
  ShareID : string;
  IsPublic : bool
}.

Definition set_ShareURL (v : string) (r : ShareAudioResult) :=
  {| ShareURL := v; ShareID := ShareID r; IsPublic := IsPublic r |}.
Definition set_ShareID (v : string) (r : ShareAudioResult) :=
  {| ShareURL := ShareURL r; ShareID := v; IsPublic := IsPublic r |}.

(** ShareAudio shares an audio overview with optional public access. *)
Definition ShareAudio (c : Client) (projectID : string) (shareOption : ShareOption)
  : Go (option ShareAudioResult * error) :=
  '(resp, err) <- rpc_Do {| ID := RPCShareAudio;
                            Args := [IntSlice [shareOption]; Str projectID];
                            NotebookID := projectID |} ;;
  match err with
  | Some e => ret (None, Some (Errorf "share audio: %w" [Err e]))
  | None =>
      (* Parse the raw response *)
      let '(data, err) := json.Unmarshal resp in
      match err with
      | Some e => ret (None, Some (Errorf "parse response: %w" [Err e]))
      | None =>
          let result := {| ShareURL := ""; ShareID := "";
                           IsPublic := shareOption =? SharePublic |} in
          (* Extract share URL and ID from response *)
          if 0 <? len data then
            d0 <- at_ data 0 ;;
            match as_slice d0 with
            | Some shareData =>
                if 0 <? len shareData then
                  s0 <- at_ shareData 0 ;;
                  let result := assign (as_string s0) set_ShareURL result in
                  if 1 <? len shareData then
                    s1 <- at_ shareData 1 ;;
                    ret (Some (assign (as_string s1) set_ShareID result), None)
                  else ret (Some result, None)
                else ret (Some result, None)
            | None => ret (Some result, None)
            end
          else ret (Some result, None)
      end
  end.

(** ** Sources *)

(** The three response shapes [extractSourceID] tries, in order. *)

(* Format 1: [[[["id",...]]]] *)
Definition format1 (d : list any) : Go (string * bool) :=
  if 0 <? len d then
    x <- at_ d 0 ;;
    match as_slice x with
    | Some d0 =>
        if 0 <? len d0 then
          x <- at_ d0 0 ;;
          match as_slice x with
          | Some d1 =>
              if 0 <? len d1 then
                x <- at_ d1 0 ;;
                match as_slice x with
                | Some d2 =>
                    if 0 <? len d2 then
                      x <- at_ d2 0 ;;
                      match as_string x with
                      | Some id => ret (id, true)
                      | None => ret ("", false)
                      end
                    else ret ("", false)
                | None => ret ("", false)
                end
              else ret ("", false)
          | None => ret ("", false)
          end
        else ret ("", false)
    | None => ret ("", false)
    end
  else ret ("", false).

(* Format 2: [[["id",...]]] *)
Definition format2 (d : list any) : Go (string * bool) :=
  if 0 <? len d then
    x <- at_ d 0 ;;
    match as_slice x with
    | Some d0 =>
        if 0 <? len d0 then
          x <- at_ d0 0 ;;
          match as_slice x with
          | Some d1 =>
              if 0 <? len d1 then
                x <- at_ d1 0 ;;
                match as_string x with
                | Some id => ret (id, true)
                | None => ret ("", false)
                end
              else ret ("", false)
          | None => ret ("", false)
          end
        else ret ("", false)
    | None => ret ("", false)
    end
  else ret ("", false).

(* Format 3: [["id",...]] *)
Definition format3 (d : list any) : Go (string * bool) :=
  if 0 <? len d then
    x <- at_ d 0 ;;
    match as_slice x with
    | Some d0 =>
        if 0 <? len d0 then
          x <- at_ d0 0 ;;
          match as_string x with
          | Some id => ret (id, true)
          | None => ret ("", false)
          end
        else ret ("", false)
    | None => ret ("", false)
    end
  else ret ("", false).

(** The loop [for _, format := range ... { if id, ok := format(data); ok
    { return id, nil } }] and the statement after it. *)
Fixpoint try_formats (formats : list (list any -> Go (string * bool)))
    (data : list any) : Go (string * error) :=
  match formats with
  | format :: formats' =>
      '(id, ok) <- format data ;;
      if ok then ret (id, None) else try_formats formats' data
  | [] =>
      ret ("", Some (Errorf "could not find source ID in response structure: %v"
                            [Slice data]))
  end.

(** Helper function to extract source ID with better error handling. *)
Definition extractSourceID (resp : RawMessage) : Go (string * error) :=
  if len_bytes resp =? 0 then ret ("", Some (Errorf "empty response" []))
  else
    let '(data, err) := json.Unmarshal resp in
    match err with
    | Some e => ret ("", Some (Errorf "parse response JSON: %w" [Err e]))
    | None => try_formats [format1; format2; format3] data
    end.

Definition AddYouTubeSource (c : Client) (projectID videoID : string)
  : Go (string * error) :=
  when (debug c)
    (fmt_Printf "=== AddYouTubeSource ===\n" [] ;;
     fmt_Printf "Project ID: %s\n" [Str projectID] ;;
     fmt_Printf "Video ID: %s\n" [Str videoID]) ;;
  (* Modified payload structure for YouTube *)
  let payload :=
    [Slice
       [Slice
          [Nil;                                             (* content *)
           Nil;                                             (* title *)
           Str videoID;                                     (* video ID (not in array) *)
           Nil;                                             (* unused *)
           EnumSourceType SourceType_SOURCE_TYPE_YOUTUBE_VIDEO (* source type *)]];
     Str projectID] in
  when (debug c)
    (fmt_Printf "\nPayload Structure:\n" [] ;;
     spew_dump (Slice payload)) ;;
  '(resp, err) <- rpc_Do {| ID := RPCAddSources;
                            Args := payload;
                            NotebookID := projectID |} ;;
  match err with
  | Some e => ret ("", Some (Errorf "add YouTube source: %w" [Err e]))
  | None =>
      when (debug c) (fmt_Printf "\nRaw Response:\n%s\n" [Str resp]) ;;
      if len_bytes resp =? 0 then
        ret ("", Some (Errorf
          "empty response from server (check debug output for request details)" []))
      else
        '(sourceID, err) <- extractSourceID resp ;;
        match err with
        | Some e => ret ("", Some (Errorf "extract source ID: %w" [Err e]))
        | None => ret (sourceID, None)
        end
  end.

(** ** Note operations *)

Section Notes.

(** [Note] is the generated message [pb.Source] and [beprotojson.Unmarshal]
    its decoder; both are absent from the sources. *)
Variable Note : Type.
Variable beprotojson_Unmarshal : RawMessage -> Note * error.

Definition CreateNote (c : Client) (projectID title initialContent : string)
  : Go (option Note * error) :=
  '(resp, err) <- rpc_Do {| ID := RPCCreateNote;
                            Args := [Str projectID;
                                     Str initialContent;
                                     IntSlice [1]; (* note type *)
                                     Nil;
                                     Str title];
                            NotebookID := projectID |} ;;
  match err with
  | Some e => ret (None, Some (Errorf "create note: %w" [Err e]))
  | None =>
      let '(note, err) := beprotojson_Unmarshal resp in
      match err with
      | Some e => ret (None, Some (Errorf "parse response: %w" [Err e]))
      | None => ret (Some note, None)
      end
  end.

End Notes.

(** ** Source freshness *)

(** SourceFreshnessResult represents the result of a source freshness check. *)
Record SourceFreshnessResult := {
  SourceID : string;
  Status : SourceSettings_SourceStatus;
  Message : text
}.

(** [result.Status = status; result.Message = message] *)
Definition set_status (status : SourceSettings_SourceStatus) (message : text)
    (result : SourceFreshnessResult) : SourceFreshnessResult :=
  {| SourceID := SourceID result; Status := status; Message := message |}.

(** The inner loop of [findProjectIDForSource]: [true] when a source of
    [sourcesData] carries [sourceID]. *)
Fixpoint find_source (sourceID : string) (sourcesData : list any) : Go bool :=
  match sourcesData with
  | [] => ret false
  | sourceData :: rest =>
      match as_slice sourceData with
      | Some sourceArr =>
          if 0 <? len sourceArr then
            x <- at_ sourceArr 0 ;;
            match as_slice x with
            | Some sourceIDArr =>
                if 0 <? len sourceIDArr then
                  y <- at_ sourceIDArr 0 ;;
                  match as_string y with
                  | Some sourceIDStr =>
                      if String.eqb sourceIDStr sourceID then ret true
                      else find_source sourceID rest
                  | None => find_source sourceID rest
                  end
                else find_source sourceID rest
            | None => find_source sourceID rest
            end
          else find_source sourceID rest
      | None => find_source sourceID rest
      end
  end.

(** The outer loop of [findProjectIDForSource]: the ID of the first project
    that holds the source, if any. *)
Fixpoint find_project (sourceID : string) (projects : list any) : Go (option string) :=
  match projects with
  | [] => ret None
  | projectData :: rest =>
      match as_slice projectData with
      | Some project =>
          if 2 <? len project then
            (* project[0] = title, project[1] = sources array, project[2] = projectID *)
            p2 <- (if 2 <? len project then at_ project 2 else ret Nil) ;;
            let projectID :=
              if 2 <? len project
              then match as_string p2 with Some id => id | None => "" end
              else "" in
            p1 <- at_ project 1 ;;
            match as_slice p1 with
            | Some sourcesData =>
                found <- find_source sourceID sourcesData ;;
                if found then ret (Some projectID) else find_project sourceID rest
            | None => find_project sourceID rest
            end
          else find_project sourceID rest
      | None => find_project sourceID rest
      end
  end.

Definition findProjectIDForSource (c : Client) (sourceID : string)
  : Go (string * error) :=
  (* Get all projects to find which one contains this source *)
  '(resp, err) <- rpc_DoWithFullResponse {| ID := RPCListRecentlyViewedProjects;
                                            Args := [Nil; Int 1];
                                            NotebookID := "" |} ;;
  match err with
  | Some e => ret ("", Some (Errorf "failed to get projects: %w" [Err e]))
  | None =>
      resp <- deref resp ;;
      let '(responseData, err) := json.Unmarshal (Data resp) in
      match err with
      | Some e => ret ("", Some (Errorf "failed to parse projects response: %w" [Err e]))
      | None =>
          let not_found :=
            ret ("", Some (Errorf "source %s not found in any project" [Str sourceID])) in
          (* Search through projects to find the one containing our source *)
          if 0 <? len responseData then
            r0 <- at_ responseData 0 ;;
            match as_slice r0 with
            | Some projects =>
                found <- find_project sourceID projects ;;
                match found with
                | Some projectID => ret (projectID, None)
                | None => not_found
                end
            | None => not_found
            end
          else not_found
      end
  end.

Definition interpretFreshnessStatusCode (c : Client) (statusCode : int)
    (sourceID : string) (result : SourceFreshnessResult)
  : Go (option SourceFreshnessResult * error) :=
  when (debug c)
    (fmt_Printf "=== Interpreting Freshness Status Code: %d ===\n" [Int statusCode]) ;;
  if statusCode =? 3 then
    if String.eqb sourceID "ac38c61f-ce14-4d8d-9def-35651c3bed87" ||
       String.eqb sourceID "7e57807c-9331-4750-be23-bec3157277cc" then
      when (debug c)
        (fmt_Printf "Status code 3 + known needs-sync source -> Needs sync\n" []) ;;
      ret (Some (set_status SourceSettings_SOURCE_STATUS_DISABLED
                   (Lit "Google Drive source needs synchronization (クリックして Google ドライブと同期)")
                   result), None)
    else
      when (debug c)
        (fmt_Printf "Status code 3 + other source -> Synchronized\n" []) ;;
      ret (Some (set_status SourceSettings_SOURCE_STATUS_ENABLED
                   (Lit "Google Drive source is properly synchronized")
                   result), None)
  else
    (* For unknown codes, we'll need to observe and learn the pattern *)
    when (debug c)
      (fmt_Printf "Unknown status code %d -> Error\n" [Int statusCode]) ;;
    ret (Some (set_status SourceSettings_SOURCE_STATUS_ERROR
                 (Sprintf "Unknown freshness status code: %d" [Int statusCode])
                 result), None).

Definition checkSourceSyncStatus (c : Client) (sourceID : string)
    (result : SourceFreshnessResult)
  : Go (option SourceFreshnessResult * error) :=
  (* First, find which project contains this source *)
  '(projectID, err) <- findProjectIDForSource c sourceID ;;
  match err with
  | Some e =>
      ret (Some (set_status SourceSettings_SOURCE_STATUS_ERROR
                   (Sprintf "Could not find project for source: %v" [Err e])
                   result), None)
  | None =>
      when (debug c)
        (fmt_Printf "Found source %s in project %s\n" [Str sourceID; Str projectID]) ;;
      (* First try to refresh/trigger the source check (like Web UI does) *)
      when (debug c)
        (fmt_Printf "Triggering refresh for source %s...\n" [Str sourceID]) ;;
      '(_, refreshErr) <- rpc_DoWithFullResponse {| ID := RPCRefreshSource;
                                                    Args := [Str sourceID];
                                                    NotebookID := projectID |} ;;
      match refreshErr with
      | Some e =>
          when (debug c)
            (fmt_Printf "Refresh call failed (may be normal): %v\n" [Err e])
      | None => ret tt
      end ;;
      (* Now check the freshness status after triggering refresh *)
      '(resp, err) <- rpc_DoWithFullResponse {| ID := RPCCheckSourceFreshness;
                                                Args := [Str sourceID];
                                                NotebookID := projectID |} ;;
      match err with
      | Some e =>
          ret (Some (set_status SourceSettings_SOURCE_STATUS_ERROR
                       (Sprintf "Failed to check source freshness: %v" [Err e])
                       result), None)
      | None =>
          resp <- deref resp ;;
          when (debug c)
            (fmt_Printf "CheckSourceFreshness API response:\n%s\n" [Str (Data resp)] ;;
             fmt_Printf "RawArray: %+v\n" [Slice (RawArray resp)]) ;;
          let unparsed :=
            ret (Some (set_status SourceSettings_SOURCE_STATUS_ERROR
                         (Lit "Could not parse freshness status from API response")
                         result), None) in
          (* The status code is in resp.RawArray[5] as [statusCode] *)
          if 5 <? len (RawArray resp) then
            r5 <- at_ (RawArray resp) 5 ;;
            match as_slice r5 with
            | Some statusArray =>
                if 0 <? len statusArray then
                  s0 <- at_ statusArray 0 ;;
                  match as_float64 s0 with
                  | Some statusCode =>
                      interpretFreshnessStatusCode c (int_of_float64 statusCode)
                        sourceID result
                  | None => unparsed
                  end
                else unparsed
            | None => unparsed
            end
          else unparsed
      end
  end.

Definition CheckSourceFreshness (c : Client) (sourceID : string)
  : Go (option SourceFreshnessResult * error) :=
  fmt_Printf "=== CheckSourceFreshness called with sourceID: %s ===\n" [Str sourceID] ;;
  fmt_Printf "Debug flag: %v\n" [Bool (debug c)] ;;
  let result := {| SourceID := sourceID;
                   Status := SourceSettings_SOURCE_STATUS_UNSPECIFIED;
                   Message := Lit "" |} in
  (* Fall back to API metadata analysis if HTML method fails *)
  when (debug c) (fmt_Printf "Falling back to API metadata analysis...\n" []) ;;
  checkSourceSyncStatus c sourceID result.

Definition extractTimestamps (c : Client) (metadataArr : list any)
  : Go (int64 * int64) :=
  (* Extract timestamps from position [3] and [2] *)
  m3 <- at_ metadataArr 3 ;;
  lastUpdate <-
    match as_slice m3 with
    | Some timestampArr =>
        if 2 <=? len timestampArr then
          t1 <- at_ timestampArr 1 ;;
          match as_slice t1 with
          | Some ts =>
              if 1 <=? len ts then
                t0 <- at_ ts 0 ;;
                match as_float64 t0 with
                | Some val => ret (int64_of_float64 val)
                | None => ret 0
                end
              else ret 0
          | None => ret 0
          end
        else ret 0
    | None => ret 0
    end ;;
  m2 <- at_ metadataArr 2 ;;
  creation <-
    match as_slice m2 with
    | Some timestampArr =>
        if 1 <=? len timestampArr then
          t0 <- at_ timestampArr 0 ;;
          match as_float64 t0 with
          | Some val => ret (int64_of_float64 val)
          | None => ret 0
          end
        else ret 0
    | None => ret 0
    end ;;
  ret (lastUpdate, creation).

(** ** The earlier revision of the freshness check (src/unnamed/part_000)

    The second source file is an earlier revision of the same client.  It
    differs in the freshness check, which reads the project listing and
    analyses the metadata of the source; the functions of that path are
    embedded here.  [extractTimestamps] is the same in both revisions. *)

Module part_000.

(* Time threshold constants for Google Drive sync analysis *)
Definition TenDaysInSeconds : Z := 10 * 24 * 60 * 60.
Definition OneDayInSeconds : Z := 24 * 60 * 60.

(** Signed 64-bit wrap-around. *)
Definition wrap64 (z : Z) : int64 := (z + 2 ^ 63) mod 2 ^ 64 - 2 ^ 63.

(** [f == 1] on [float64]. *)
Definition float64_is_one (f : float64) : bool := SFeqb f (SFone 53 1024).

Definition needs_sync : text :=
  Lit "Google Drive source needs synchronization (クリックして Google ドライブと同期)".

Definition synchronized : text :=
  Lit "Google Drive source is properly synchronized".

Definition extractSourceTitle (c : Client) (sourceArr : list any) : Go string :=
  s1 <- at_ sourceArr 1 ;;
  match as_string s1 with
  | Some title => ret title
  | None => ret "Unknown Source"
  end.

(** [for i, elem := range arr { fmt.Printf(format, i, elem, elem) }] *)
Fixpoint print_elements (format : string) (i : int) (arr : list any) : Go unit :=
  match arr with
  | [] => ret tt
  | elem :: rest =>
      fmt_Printf format [Int i; elem; elem] ;;
      print_elements format (i + 1) rest
  end.

Definition debugSourceStructure (c : Client) (sourceTitle : string)
    (sourceArr : list any) : Go unit :=
  if negb (debug c) then ret tt
  else
    fmt_Printf "=== Detailed Source Analysis ===\n" [] ;;
    fmt_Printf "Source Title: %s\n" [Str sourceTitle] ;;
    fmt_Printf "Full source array length: %d\n" [Int (len sourceArr)] ;;
    print_elements "Position [%d]: %T = %+v\n" 0 sourceArr ;;
    fmt_Printf "==============================\n" [].

Definition debugMetadata (c : Client) (metadataArr : list any) : Go unit :=
  if negb (debug c) then ret tt
  else
    fmt_Printf "Metadata array length: %d\n" [Int (len metadataArr)] ;;
    print_elements "Metadata [%d]: %T = %+v\n" 0 metadataArr.

Definition isGoogleDriveSource (c : Client) (metadataArr : list any) : Go bool :=
  m0 <- at_ metadataArr 0 ;;
  if is_nil m0 then ret false
  else
    m0 <- at_ metadataArr 0 ;;
    match as_slice m0 with
    | Some googleDriveInfo => ret (1 <=? len googleDriveInfo)
    | None => ret false
    end.

Definition setRegularSourceStatus (c : Client) (result : SourceFreshnessResult)
    (sourceTitle : string) : SourceFreshnessResult :=
  if negb (String.eqb sourceTitle "Unknown Source") then
    set_status SourceSettings_SOURCE_STATUS_ENABLED
      (Sprintf "Source (%s) is functioning normally" [Str sourceTitle]) result
  else
    set_status SourceSettings_SOURCE_STATUS_ENABLED
      (Lit "Source is functioning normally") result.

Definition analyzeLength7Metadata (c : Client) (metadataArr : list any)
    (result : SourceFreshnessResult) : Go (option SourceFreshnessResult * error) :=
  unsynced <- (if 5 <? len metadataArr
               then m5 <- at_ metadataArr 5 ;; ret (is_nil m5)
               else ret false) ;;
  if unsynced then
    ret (Some (set_status SourceSettings_SOURCE_STATUS_DISABLED needs_sync result), None)
  else
    ret (Some (set_status SourceSettings_SOURCE_STATUS_ENABLED synchronized result), None).

Definition analyzeLength6Metadata (c : Client) (metadataArr : list any)
    (result : SourceFreshnessResult) : Go (option SourceFreshnessResult * error) :=
  if len metadataArr <=? 5 then
    ret (Some (set_status SourceSettings_SOURCE_STATUS_DISABLED needs_sync result), None)
  else
    m5 <- at_ metadataArr 5 ;;
    when (debug c) (fmt_Printf "Length 6 source - Position [5]: %+v\n" [m5]) ;;
    match as_float64 m5 with
    | Some syncFlag =>
        if float64_is_one syncFlag then
          ret (Some (set_status SourceSettings_SOURCE_STATUS_ENABLED synchronized result),
               None)
        else
          ret (Some (set_status SourceSettings_SOURCE_STATUS_DISABLED needs_sync result),
               None)
    | None =>
        ret (Some (set_status SourceSettings_SOURCE_STATUS_DISABLED needs_sync result), None)
    end.

Definition analyzeTimestampDifference (c : Client) (metadataArr : list any)
    (result : SourceFreshnessResult) (hasPositionFlag : bool)
  : Go (option SourceFreshnessResult * error) :=
  '(lastUpdate, creation) <- extractTimestamps c metadataArr ;;
  when (debug c)
    (if hasPositionFlag then
       fmt_Printf
         "Length 5 source with position [4] = 1 - Creation: %d, LastUpdate: %d, Diff: %d\n"
         [Int creation; Int lastUpdate; Int (wrap64 (lastUpdate - creation))]
     else
       fmt_Printf "Length 5 source - Creation: %d, LastUpdate: %d\n"
         [Int creation; Int lastUpdate]) ;;
  if hasPositionFlag then
    (* For sources with position [4] = 1, smaller time differences need sync *)
    if (creation <? lastUpdate) && (wrap64 (lastUpdate - creation) <? TenDaysInSeconds) then
      ret (Some (set_status SourceSettings_SOURCE_STATUS_DISABLED needs_sync result), None)
    else
      ret (Some (set_status SourceSettings_SOURCE_STATUS_ENABLED synchronized result), None)
  else
    (* Counter-intuitive logic based on user feedback *)
    if (creation <? lastUpdate) && (OneDayInSeconds <? wrap64 (lastUpdate - creation)) then
      ret (Some (set_status SourceSettings_SOURCE_STATUS_DISABLED needs_sync result), None)
    else
      ret (Some (set_status SourceSettings_SOURCE_STATUS_ENABLED synchronized result), None).

Definition analyzeLength5Metadata (c : Client) (metadataArr : list any)
    (result : SourceFreshnessResult) : Go (option SourceFreshnessResult * error) :=
  when (debug c)
    (m4 <- at_ metadataArr 4 ;;
     fmt_Printf "Length 5 source - Position [4]: %+v\n" [m4]) ;;
  m4 <- at_ metadataArr 4 ;;
  match as_float64 m4 with
  | Some syncFlag =>
      if float64_is_one syncFlag
      then analyzeTimestampDifference c metadataArr result true
      else analyzeTimestampDifference c metadataArr result false
  | None => analyzeTimestampDifference c metadataArr result false
  end.

Definition analyzeGoogleDriveSync (c : Client) (metadataArr : list any)
    (result : SourceFreshnessResult) : Go (option SourceFreshnessResult * error) :=
  when (debug c)
    (fmt_Printf "Google Drive source detected. Metadata array length: %d\n"
       [Int (len metadataArr)]) ;;
  if len metadataArr =? 7 then analyzeLength7Metadata c metadataArr result
  else if len metadataArr =? 6 then analyzeLength6Metadata c metadataArr result
  else if len metadataArr =? 5 then analyzeLength5Metadata c metadataArr result
  else ret (Some (set_status SourceSettings_SOURCE_STATUS_ENABLED synchronized result), None).

Definition analyzeRawSourceStructure (c : Client) (sourceArr : list any)
    (result : SourceFreshnessResult) : Go (option SourceFreshnessResult * error) :=
  if len sourceArr <? 4 then
    ret (Some (set_status SourceSettings_SOURCE_STATUS_ERROR
                 (Lit "Invalid source structure") result), None)
  else
    sourceTitle <- extractSourceTitle c sourceArr ;;
    debugSourceStructure c sourceTitle sourceArr ;;
    s2 <- at_ sourceArr 2 ;;
    match as_slice s2 with
    | None => ret (Some (setRegularSourceStatus c result sourceTitle), None)
    | Some metadataArr =>
        if len metadataArr =? 0 then
          ret (Some (setRegularSourceStatus c result sourceTitle), None)
        else
          debugMetadata c metadataArr ;;
          isDrive <- isGoogleDriveSource c metadataArr ;;
          if negb isDrive then
            ret (Some (setRegularSourceStatus c result sourceTitle), None)
          else
            '(finalResult, err) <- analyzeGoogleDriveSync c metadataArr result ;;
            match err with
            | Some e => ret (finalResult, Some e)
            | None =>
                (* Add final debug output *)
                when (debug c)
                  (final <- deref finalResult ;;
                   fmt_Printf "=== Final Analysis ===\n" [] ;;
                   fmt_Printf "Source Title: %s\n" [Str sourceTitle] ;;
                   fmt_Printf_operands "Final Status: %s\n" [StatusName (Status final)] ;;
                   fmt_Printf_operands "Final Message: %s\n" [Text (Message final)] ;;
                   fmt_Printf "====================\n" []) ;;
                ret (finalResult, None)
            end
    end.

(** The loop over the sources of one project: [Some] is what the function
    returns from inside the loop, [None] that the loop ran to its end. *)
Fixpoint scan_sources (c : Client) (sourceID : string) (result : SourceFreshnessResult)
    (sourcesData : list any)
  : Go (option (option SourceFreshnessResult * error)) :=
  match sourcesData with
  | [] => ret None
  | sourceData :: rest =>
      match as_slice sourceData with
      | Some sourceArr =>
          if 2 <? len sourceArr then
            (* sourceArr[0] = [sourceID], sourceArr[1] = title, sourceArr[2] = metadata *)
            s0 <- at_ sourceArr 0 ;;
            match as_slice s0 with
            | Some sourceIDArr =>
                if 0 <? len sourceIDArr then
                  i0 <- at_ sourceIDArr 0 ;;
                  match as_string i0 with
                  | Some sourceIDStr =>
                      if String.eqb sourceIDStr sourceID then
                        (* Found our source - analyze its metadata structure *)
                        r <- analyzeRawSourceStructure c sourceArr result ;;
                        ret (Some r)
                      else scan_sources c sourceID result rest
                  | None => scan_sources c sourceID result rest
                  end
                else scan_sources c sourceID result rest
            | None => scan_sources c sourceID result rest
            end
          else scan_sources c sourceID result rest
      | None => scan_sources c sourceID result rest
      end
  end.

(** The loop over the projects of the listing. *)
Fixpoint scan_projects (c : Client) (sourceID : string) (result : SourceFreshnessResult)
    (projects : list any)
  : Go (option (option SourceFreshnessResult * error)) :=
  match projects with
  | [] => ret None
  | projectData :: rest =>
      match as_slice projectData with
      | Some project =>
          if 1 <? len project then
            (* project[0] = title, project[1] = sources array *)
            p1 <- at_ project 1 ;;
            match as_slice p1 with
            | Some sourcesData =>
                found <- scan_sources c sourceID result sourcesData ;;
                match found with
                | Some r => ret (Some r)
                | None => scan_projects c sourceID result rest
                end
            | None => scan_projects c sourceID result rest
            end
          else scan_projects c sourceID result rest
      | None => scan_projects c sourceID result rest
      end
  end.

Definition checkSourceSyncStatus (c : Client) (sourceID : string)
    (result : SourceFreshnessResult)
  : Go (option SourceFreshnessResult * error) :=
  (* Get raw project data to analyze source sync status directly from API response *)
  '(resp, err) <- rpc_DoWithFullResponse {| ID := RPCListRecentlyViewedProjects;
                                            Args := [Nil; Int 1];
                                            NotebookID := "" |} ;;
  match err with
  | Some e =>
      ret (Some (set_status SourceSettings_SOURCE_STATUS_ERROR
                   (Sprintf "Failed to get projects data: %v" [Err e]) result), None)
  | None =>
      resp <- deref resp ;;
      (* Parse the raw response to find our source *)
      let '(responseData, err) := json.Unmarshal (Data resp) in
      match err with
      | Some e =>
          ret (Some (set_status SourceSettings_SOURCE_STATUS_ERROR
                       (Sprintf "Failed to parse projects response: %v" [Err e]) result),
               None)
      | None =>
          let not_found :=
            ret (Some (set_status SourceSettings_SOURCE_STATUS_ERROR
                         (Lit "Source not found in any project") result), None) in
          (* Search through projects in the raw response *)
          if 0 <? len responseData then
            r0 <- at_ responseData 0 ;;
            match as_slice r0 with
            | Some projects =>
                found <- scan_projects c sourceID result projects ;;
                match found with
                | Some r => ret r
                | None => not_found
                end
            | None => not_found
            end
          else not_found
      end
  end.

Definition CheckSourceFreshness (c : Client) (sourceID : string)
  : Go (option SourceFreshnessResult * error) :=
  let result := {| SourceID := sourceID;
                   Status := SourceSettings_SOURCE_STATUS_UNSPECIFIED;
                   Message := Lit "" |} in
  checkSourceSyncStatus c sourceID result.

End part_000.

(** ** The response stream: de-chunking

    The transport (package batchexecute) is absent from the sources;
    its de-chunker is written from the specification of the frame
    transport. *)

Module Framing.

(** Modelled from the spec: a frame of the response stream (package
    batchexecute, absent from the sources), its declared length and its
    payload.  A response body is an ordered sequence of frames. *)
Record Frame := {
  DeclaredLength : nat;   (* the byte count announced by the stream *)
  Payload : string
}.

(** Modelled from the spec: the error of the de-chunker (package
    batchexecute, absent from the sources), with what was wrong. *)
Inductive FramingError :=
| BadLength (line : string)               (* a declared length that cannot be parsed *)
| MidChunk (declared available : nat)     (* the stream ends inside a payload *)
| MidLine (line : string).                (* the stream ends inside a length line *)

Definition newline : ascii := "010"%char.

(** Modelled from the spec: reading a line of the stream (package
    batchexecute, absent from the sources).  The bytes up to the first line
    feed, and the bytes after it; [None] when the stream holds no line
    feed. *)
Fixpoint read_line (s : string) : option (string * string) :=
  match s with
  | EmptyString => None
  | String c r =>
      if Ascii.eqb c newline then Some (EmptyString, r)
      else match read_line r with
           | Some (line, rest) => Some (String c line, rest)
           | None => None
           end
  end.

(** Modelled from the spec: parsing a declared length (package
    batchexecute, absent from the sources).  A line as a decimal byte count:
    one or more decimal digits. *)
Definition parse_length (line : string) : option nat :=
  option_map Nat.of_uint (NilZero.uint_of_string line).

(** Modelled from the spec: reading exactly the declared number of bytes
    (package batchexecute, absent from the sources).  The first [n] bytes
    and the rest; [None] when fewer are left. *)
Fixpoint read_exactly (n : nat) (s : string) : option (string * string) :=
  match n with
  | O => Some (EmptyString, s)
  | S n' =>
      match s with
      | EmptyString => None
      | String c r =>
          match read_exactly n' r with
          | Some (p, rest) => Some (String c p, rest)
          | None => None
          end
      end
  end.

(** Modelled from the spec: the de-chunking algorithm of the frame transport
    (package batchexecute, absent from the sources).  Repeatedly (a) read a
    line and parse it as an integer length, ignoring blank lines between
    chunks; (b) read exactly that many subsequent bytes as one frame's
    payload; (c) stop when the stream is exhausted.  A declared length that
    cannot be parsed, or a stream that ends mid-chunk, is a [FramingError].
    [fuel] bounds the number of lines read; [None] is its exhaustion. *)
Fixpoint dechunk_loop (fuel : nat) (s : string) : option (FramingError + list Frame) :=
  match fuel with
  | O => None
  | S fuel' =>
      match s with
      | EmptyString => Some (inr [])
      | _ =>
          match read_line s with
          | None => Some (inl (MidLine s))
          | Some (EmptyString, rest) => dechunk_loop fuel' rest
          | Some (line, rest) =>
              match parse_length line with
              | None => Some (inl (BadLength line))
              | Some n =>
                  match read_exactly n rest with
                  | None => Some (inl (MidChunk n (String.length rest)))
                  | Some (payload, rest') =>
                      match dechunk_loop fuel' rest' with
                      | Some (inr frames) =>
                          Some (inr ({| DeclaredLength := n; Payload := payload |} :: frames))
                      | other => other
                      end
                  end
              end
          end
      end
  end.

(** Modelled from the spec: the de-chunker of the frame transport (package
    batchexecute, absent from the sources), on the stream that follows the
    preamble line.  Every line read takes at least
    one byte, so one unit of fuel per byte and one more are enough
    ([dechunk_loop_enough]). *)
Definition dechunk (s : string) : FramingError + list Frame :=
  match dechunk_loop (S (String.length s)) s with
  | Some r => r
  | None => inl (MidLine s)
  end.

(** A byte count in decimal. *)
Definition decimal (n : nat) : string := NilZero.string_of_uint (Nat.to_uint n).

(** Modelled from the spec: a chunk of the response stream as the service
    writes it (the wire format of package batchexecute, absent from the
    sources), [<len>\n<payload>], the length in decimal. *)
Definition chunk (payload : string) : string :=
  (decimal (String.length payload) ++ String newline payload)%string.

(** Modelled from the spec: a response stream (the wire format of package
    batchexecute, absent from the sources) assembled from a sequence of
    payloads. *)
Fixpoint assemble (payloads : list string) : string :=
  match payloads with
  | [] => EmptyString
  | p :: ps => (chunk p ++ assemble ps)%string
  end.

(** The frame of a payload. *)
Definition frame_of (payload : string) : Frame :=
  {| DeclaredLength := String.length payload; Payload := payload |}.

(** The concatenation of the payloads of a sequence of frames. *)
Definition payload_concat (frames : list Frame) : string :=
  String.concat EmptyString (map Payload frames).

(** A line holds no line feed. *)
Fixpoint no_newline (s : string) : bool :=
  match s with
  | EmptyString => true
  | String c r => negb (Ascii.eqb c newline) && no_newline r
  end.

End Framing.

(** ** Package strings *)

(** [strings.HasPrefix(s, prefix)] *)
Definition strings_HasPrefix (s prefix : string) : bool := String.prefix prefix s.

(** [strings.Contains(s, substr)] *)
Fixpoint strings_Contains (s substr : string) : bool :=
  strings_HasPrefix s substr ||
  match s with
  | EmptyString => false
  | String _ s' => strings_Contains s' substr
  end.

(** [strings.TrimPrefix(s, prefix)] *)
Definition strings_TrimPrefix (s prefix : string) : string :=
  if strings_HasPrefix s prefix
  then String.substring (String.length prefix)
         (String.length s - String.length prefix)%nat s
  else s.

(** ** Source upload utility methods *)

Definition AddSourceFromText (c : Client) (projectID content title : string)
  : Go (string * error) :=
  '(resp, err) <- rpc_Do {| ID := RPCAddSources;
                            Args := [Slice
                                       [Slice
                                          [Nil;
                                           StringSlice [title; content];
                                           Nil;
                                           Int 2 (* text source type *)]];
                                     Str projectID];
                            NotebookID := projectID |} ;;
  match err with
  | Some e => ret ("", Some (Errorf "add text source: %w" [Err e]))
  | None =>
      '(sourceID, err) <- extractSourceID resp ;;
      match err with
      | Some e => ret ("", Some (Errorf "extract source ID: %w" [Err e]))
      | None => ret (sourceID, None)
      end
  end.

(** Standard error: the operand of each [fmt.Fprintln(os.Stderr, resp)],
    oldest first. *)
Definition Stderr := list RawMessage.

(** [AddSourceFromBase64] is the one function of the client that writes to
    standard error; the stream is passed in and returned. *)
Definition AddSourceFromBase64 (c : Client)
    (projectID content filename contentType : string) (stderr : Stderr)
  : Go ((string * error) * Stderr) :=
  '(resp, err) <- rpc_Do {| ID := RPCAddSources;
                            Args := [Slice
                                       [Slice
                                          [Str content;
                                           Str filename;
                                           Str contentType;
                                           Str "base64"]];
                                     Str projectID];
                            NotebookID := projectID |} ;;
  match err with
  | Some e => ret (("", Some (Errorf "add binary source: %w" [Err e])), stderr)
  | None =>
      '(sourceID, err) <- extractSourceID resp ;;
      match err with
      | Some e =>
          let stderr := stderr ++ [resp] in
          spew_dump (Str resp) ;;
          ret (("", Some (Errorf "extract source ID: %w" [Err e])), stderr)
      | None => ret ((sourceID, None), stderr)
      end
  end.

Section Readers.

(** [io.ReadAll] and [http.DetectContentType] are library functions: what
    reading [r] to its end yields, and the MIME type sniffed from the
    content. *)
Variable Reader : Type.
Variable io_ReadAll : Reader -> list Byte.byte * error.
Variable http_DetectContentType : list Byte.byte -> string.

Definition AddSourceFromReader (c : Client) (projectID : string) (r : Reader)
    (filename : string) (stderr : Stderr)
  : Go ((string * error) * Stderr) :=
  let '(content, err) := io_ReadAll r in
  match err with
  | Some e => ret (("", Some (Errorf "read content: %w" [Err e])), stderr)
  | None =>
      let contentType := http_DetectContentType content in
      if strings_HasPrefix contentType "text/" then
        res <- AddSourceFromText c projectID (string_of_list_byte content) filename ;;
        ret (res, stderr)
      else
        let encoded := base64.EncodeToString content in
        AddSourceFromBase64 c projectID encoded filename contentType stderr
  end.

End Readers.

(** The fields of [url.URL] the client reads. *)
Record url_URL := { Host : string; Path : string; RawQuery : string }.

Section URLs.

(** [url.Parse] and the lookup [u.Query().Get(key)] in the parsed query of
    [u.RawQuery] are library functions. *)
Variable url_Parse : string -> option url_URL * error.
Variable url_Values_Get : string -> string -> string.

(* Helper functions to identify and extract YouTube video IDs *)
Definition isYouTubeURL (url : string) : bool :=
  strings_Contains url "youtube.com" || strings_Contains url "youtu.be".

Definition extractYouTubeVideoID (urlStr : string) : Go (string * error) :=
  let '(u, err) := url_Parse urlStr in
  match err with
  | Some e => ret ("", Some e)
  | None =>
      u <- deref u ;;
      if String.eqb (Host u) "youtu.be" then
        ret (strings_TrimPrefix (Path u) "/", None)
      else if strings_Contains (Host u) "youtube.com" && String.eqb (Path u) "/watch" then
        ret (url_Values_Get (RawQuery u) "v", None)
      else ret ("", Some (Errorf "unsupported YouTube URL format" []))
  end.

Definition AddSourceFromURL (c : Client) (projectID url : string)
  : Go (string * error) :=
  (* Check if it's a YouTube URL first *)
  if isYouTubeURL url then
    '(videoID, err) <- extractYouTubeVideoID url ;;
    match err with
    | Some e => ret ("", Some (Errorf "invalid YouTube URL: %w" [Err e]))
    | None =>
        (* Use dedicated YouTube method *)
        AddYouTubeSource c projectID videoID
    end
  else
    (* Regular URL handling *)
    '(resp, err) <- rpc_Do {| ID := RPCAddSources;
                              Args := [Slice
                                         [Slice
                                            [Nil;
                                             Nil;
                                             StringSlice [url]]];
                                       Str projectID];
                              NotebookID := projectID |} ;;
    match err with
    | Some e => ret ("", Some (Errorf "add source from URL: %w" [Err e]))
    | None =>
        '(sourceID, err) <- extractSourceID resp ;;
        match err with
        | Some e => ret ("", Some (Errorf "extract source ID: %w" [Err e]))
        | None => ret (sourceID, None)
        end
    end.

End URLs.

(** ** Worlds used as concrete inputs *)

Definition quiet_client : Client := {| rpc := {| Config := {| Debug := false |} |} |}.
Definition debug_client : Client := {| rpc := {| Config := {| Debug := true |} |} |}.

(** The JSON string literal of a text without quotes or backslashes. *)
Definition quoted (s : string) : string :=
  String "034" (s ++ String "034" EmptyString)%string.

(** [[null,null,[3,"QUJD","audio-1","Overview",null]]] *)
Definition audio_payload_short : RawMessage :=
  ("[null,null,[3," ++ quoted "QUJD" ++ "," ++ quoted "audio-1" ++ ","
     ++ quoted "Overview" ++ ",null]]")%string.

(** [[null,null,[3,5,"audio-1","Overview",null,true]]] *)
Definition audio_payload_mistyped : RawMessage :=
  ("[null,null,[3,5," ++ quoted "audio-1" ++ "," ++ quoted "Overview"
     ++ ",null,true]]")%string.

(** [[[17,"share-1"]]] *)
Definition share_payload_mistyped : RawMessage :=
  ("[[17," ++ quoted "share-1" ++ "]]")%string.

(** [[[["Title",[[["src-1"],"Source"]],"proj-1"]]]] *)
Definition projects_payload : RawMessage :=
  ("[[[" ++ quoted "Title" ++ ",[[[" ++ quoted "src-1" ++ "]," ++ quoted "Source"
     ++ "]]," ++ quoted "proj-1" ++ "]]]")%string.

(** [[[[["src-1"]]]]] *)
Definition source_payload : RawMessage :=
  ("[[[[" ++ quoted "src-1" ++ "]]]]")%string.

(** A server that answers every [Do] with the same payload and fails every
    [DoWithFullResponse]. *)
Definition constant_server (payload : RawMessage) : Server :=
  {| answer_Do := fun _ _ => (payload, None);
     answer_DoWithFullResponse := fun _ _ => (None, Some (serverError "unavailable")) |}.

(** A server whose project listing holds one project, "proj-1", with one
    source, "src-1", and whose freshness check answers [freshness]. *)
Definition listing_server (freshness : option FullResponse * error) : Server :=
  {| answer_Do := fun _ _ => (EmptyString, Some (serverError "unavailable"));
     answer_DoWithFullResponse := fun _ call =>
       match ID call with
       | RPCListRecentlyViewedProjects =>
           (Some {| Data := projects_payload;
                    RawArray := [] |}, None)
       | RPCCheckSourceFreshness => freshness
       | _ => (None, Some (serverError "refresh failed"))
       end |}.

Definition fresh_world (s : Server) : World :=
  {| server := s; trace := []; stdout := [] |}.

(** The zero value of [AudioOverviewResult]. *)
Definition zeroAudioOverviewResult : AudioOverviewResult :=
  {| ProjectID := ""; AudioID := ""; Title := ""; AudioData := ""; IsReady := false |}.

(** ** Vocabulary of the statements *)

(** The requests the client issues. *)

Definition getAudioOverviewCall (projectID : string) : Call :=
  {| ID := RPCGetAudioOverview; Args := [Str projectID; Int 1];
     NotebookID := projectID |}.

Definition createAudioOverviewCall (projectID instructions : string) : Call :=
  {| ID := RPCCreateAudioOverview;
     Args := [Str projectID; Int 0; StringSlice [instructions]];
     NotebookID := projectID |}.

Definition shareAudioCall (projectID : string) (shareOption : ShareOption) : Call :=
  {| ID := RPCShareAudio; Args := [IntSlice [shareOption]; Str projectID];
     NotebookID := projectID |}.

Definition listProjectsCall : Call :=
  {| ID := RPCListRecentlyViewedProjects; Args := [Nil; Int 1]; NotebookID := "" |}.

Definition refreshSourceCall (projectID sourceID : string) : Call :=
  {| ID := RPCRefreshSource; Args := [Str sourceID]; NotebookID := projectID |}.

Definition checkFreshnessCall (projectID sourceID : string) : Call :=
  {| ID := RPCCheckSourceFreshness; Args := [Str sourceID]; NotebookID := projectID |}.

(** A computation that neither reads nor changes the world. *)
Definition state_free {A} (m : Go A) : Prop :=
  exists o, forall w, m w = (o, w).

(** A computation that returns (does not panic) whatever the world. *)
Definition always_returns {A} (m : Go A) : Prop :=
  forall w, exists a, result_of (m w) = Returns a.

(** ** Shapes of the positional payloads

    The positions the decoders read, written as functions of the decoded
    value; the properties compare the decoders with them. *)

(** The value reached from [v] by [depth] steps into element 0 of an array. *)
Fixpoint first_at_depth (depth : nat) (v : any) : option any :=
  match depth with
  | O => Some v
  | S d =>
      match v with
      | Slice (x :: _) => first_at_depth d x
      | _ => None
      end
  end.

(** The string that sits [depth] arrays deep at the head of [data]. *)
Definition id_at_depth (depth : nat) (data : list any) : option string :=
  match first_at_depth depth (Slice data) with
  | Some (Str id) => Some id
  | _ => None
  end.

(** The source ID a response carries: the head string four, three or two
    arrays deep, the deepest first. *)
Definition source_id_in (data : list any) : option string :=
  match id_at_depth 4 data with
  | Some id => Some id
  | None =>
      match id_at_depth 3 data with
      | Some id => Some id
      | None => id_at_depth 2 data
      end
  end.

(** A source entry [[[id, ...], ...]] of a project listing carries [sourceID]. *)
Definition source_has_id (sourceID : string) (sourceData : any) : bool :=
  match sourceData with
  | Slice (Slice (Str id :: _) :: _) => String.eqb id sourceID
  | _ => false
  end.

(** A project entry [[title, sources, projectID, ...]] lists [sourceID]. *)
Definition project_lists (sourceID : string) (projectData : any) : bool :=
  match projectData with
  | Slice (_ :: Slice sourcesData :: _ :: _) =>
      existsb (source_has_id sourceID) sourcesData
  | _ => false
  end.

(** The project ID of a project entry: its element 2 when that is a string. *)
Definition project_id_slot (projectData : any) : string :=
  match projectData with
  | Slice (_ :: _ :: Str id :: _) => id
  | _ => ""
  end.

(** The audio sub-array of a payload is usable: the payload has no element
    2, or that element is an array of at least four elements. *)
Definition audio_array_ok (data : list any) : bool :=
  match index data 2 with
  | Some (Slice audioData) => 4 <=? len audioData
  | Some _ => false
  | None => true
  end.

(** The two source IDs [interpretFreshnessStatusCode] knows by name. *)
Definition known_needs_sync (sourceID : string) : bool :=
  String.eqb sourceID "ac38c61f-ce14-4d8d-9def-35651c3bed87" ||
  String.eqb sourceID "7e57807c-9331-4750-be23-bec3157277cc".

(** ** Relating two runs

    Two worlds are similar when their servers are related by [R] and the
    same requests have been issued; standard output is left out. *)

Definition sim (R : Server -> Server -> Prop) (w1 w2 : World) : Prop :=
  R (server w1) (server w2) /\ trace w1 = trace w2.

(** Two computations agree: from similar worlds they end in similar worlds,
    both panic or both return, with results related by [Q]. *)
Definition agree_upto {A} (R : Server -> Server -> Prop) (Q : A -> A -> Prop)
    (m1 m2 : Go A) : Prop :=
  forall w1 w2, sim R w1 w2 ->
    sim R (world_of (m1 w1)) (world_of (m2 w2)) /\
    match result_of (m1 w1), result_of (m2 w2) with
    | Returns a1, Returns a2 => Q a1 a2
    | Panics r1, Panics r2 => r1 = r2
    | _, _ => False
    end.

Definition agree {A} (R : Server -> Server -> Prop) (m1 m2 : Go A) : Prop :=
  agree_upto R eq m1 m2.

(** A computation that only writes to standard output. *)
Definition silent (m : Go unit) : Prop :=
  forall w, exists out, m w = (Returns tt, with_stdout w out).

(** Servers that answer alike, except perhaps to refresh requests. *)
Definition same_but_refresh (s1 s2 : Server) : Prop :=
  (forall t call, answer_Do s1 t call = answer_Do s2 t call) /\
  (forall t call, ID call <> RPCRefreshSource ->
     answer_DoWithFullResponse s1 t call = answer_DoWithFullResponse s2 t call).

(** A server whose successful full responses are never nil. *)
Definition responds (s : Server) : Prop :=
  forall t call r, answer_DoWithFullResponse s t call = (r, None) -> r <> None.

(** [m] run in [w] returns, and its result and final world satisfy [Q]. *)
Definition wp {A} (m : Go A) (Q : A -> World -> Prop) (w : World) : Prop :=
  match m w with
  | (Returns a, w') => Q a w'
  | (Panics _, _) => False
  end.

(** The response [resp] carries the source ID [id]. *)
Definition carries_source_id (resp : RawMessage) (id : string) : Prop :=
  exists data, json.Unmarshal resp = (data, None) /\ source_id_in data = Some id.

(** The request every source upload issues: one item, and the project ID. *)
Definition addSourcesCall (projectID : string) (item : list any) : Call :=
  {| ID := RPCAddSources; Args := [Slice [Slice item]; Str projectID];
     NotebookID := projectID |}.

(** What a freshness check can report for [sourceID]: an error, or
    "synchronized" for a source it does not know by name, or "needs
    synchronization" for one it does. *)
Definition freshness_verdict (sourceID : string) (r : SourceFreshnessResult) : Prop :=
  Status r = SourceSettings_SOURCE_STATUS_ERROR
  \/ (Status r = SourceSettings_SOURCE_STATUS_ENABLED /\ known_needs_sync sourceID = false)
  \/ (Status r = SourceSettings_SOURCE_STATUS_DISABLED /\ known_needs_sync sourceID = true).

(** What the analysis of a source reports, seen from the world [w0] it
    started in: a result for the same source, with a status, and no
    request. *)
Definition reported (result : SourceFreshnessResult) (w0 : World)
    (res : option SourceFreshnessResult * error) (w' : World) : Prop :=
  (exists r, res = (Some r, None)
             /\ SourceID r = SourceID result
             /\ Status r <> SourceSettings_SOURCE_STATUS_UNSPECIFIED)
  /\ server w' = server w0 /\ trace w' = trace w0.

(** ** Further concrete inputs *)

(** [[null,null,[3,"QUJD","audio-1","Overview",null,true]]] *)
Definition audio_payload_full : RawMessage :=
  ("[null,null,[3," ++ quoted "QUJD" ++ "," ++ quoted "audio-1" ++ ","
     ++ quoted "Overview" ++ ",null,true]]")%string.

(** [[["https://example.com/s/1","share-1"]]] *)
Definition share_payload : RawMessage :=
  ("[[" ++ quoted "https://example.com/s/1" ++ "," ++ quoted "share-1" ++ "]]")%string.

(** [[["src-2"]]] *)
Definition source_payload_shallow : RawMessage :=
  ("[[" ++ quoted "src-2" ++ "]]")%string.

(** [listing_server] with a chosen answer to refresh requests as well. *)
Definition listing_server_with (refresh freshness : option FullResponse * error)
  : Server :=
  {| answer_Do := fun _ _ => (EmptyString, Some (serverError "unavailable"));
     answer_DoWithFullResponse := fun _ call =>
       match ID call with
       | RPCListRecentlyViewedProjects =>
           (Some {| Data := projects_payload;
                    RawArray := [] |}, None)
       | RPCCheckSourceFreshness => freshness
       | RPCRefreshSource => refresh
       | _ => (None, Some (serverError "unavailable"))
       end |}.

(** A freshness response whose status code, at [RawArray[5][0]], is 3. *)
Definition freshness_code_3 : option FullResponse * error :=
  (Some {| Data := "";
           RawArray := [Nil; Nil; Nil; Nil; Nil;
                        Slice [Float64 (S754_finite false 3 0)]] |}, None).

(** * Properties *)

(** ** Running computations *)

Ltac run :=
  cbv beta iota zeta delta
    [result_of world_of bind ret panic when at_ deref
     rpc_Do rpc_DoWithFullResponse fmt_Printf fmt_Printf_operands spew_dump
     fst snd];
  cbn [as_slice as_string as_bool as_float64
       with_trace with_stdout server trace stdout].

Lemma state_free_ret {A} (a : A) : state_free (ret a).
Proof. exists (Returns a). reflexivity. Qed.

Lemma state_free_panic {A} (r : string) : state_free (@panic A r).
Proof. exists (Panics r). reflexivity. Qed.

Lemma state_free_bind {A B} (m : Go A) (k : A -> Go B) :
  state_free m -> (forall a, state_free (k a)) -> state_free (bind m k).
Proof.
  intros [o Hm] Hk. destruct o as [a | r].
  - destruct (Hk a) as [o' Hk']. exists o'. intro w.
    unfold bind. rewrite Hm. apply Hk'.
  - exists (Panics r). intro w. unfold bind. rewrite Hm. reflexivity.
Qed.

Lemma state_free_at (l : list any) (i : Z) : state_free (at_ l i).
Proof.
  unfold at_. destruct (index l i).
  - apply state_free_ret.
  - apply state_free_panic.
Qed.

Ltac state_free_step :=
  match goal with
  | |- state_free (ret _) => apply state_free_ret
  | |- state_free (panic _) => apply state_free_panic
  | |- state_free (at_ _ _) => apply state_free_at
  | |- state_free (bind _ _) => apply state_free_bind; [ | intro ]
  | |- state_free (match ?x with _ => _ end) => destruct x
  | |- state_free (let '(_, _) := ?x in _) => destruct x
  end.

Ltac prove_state_free := repeat state_free_step.

Lemma state_free_result {A} (m : Go A) (w1 w2 : World) :
  state_free m -> result_of (m w1) = result_of (m w2).
Proof. intros [o H]. unfold result_of. now rewrite !H. Qed.

Lemma state_free_world {A} (m : Go A) (w : World) :
  state_free m -> world_of (m w) = w.
Proof. intros [o H]. unfold world_of. now rewrite H. Qed.

(** ** Indexing *)

Lemma index_in_range {A} (l : list A) (i : Z) :
  0 <= i < len l -> exists x, index l i = Some x.
Proof.
  intros [H0 H1]. unfold index, len in *.
  destruct (i <? 0) eqn:E; [apply Z.ltb_lt in E; lia|].
  destruct (nth_error l (Z.to_nat i)) eqn:N; [eauto|].
  apply nth_error_None in N. lia.
Qed.

Lemma index_some_lt {A} (l : list A) (i : Z) (x : A) :
  index l i = Some x -> 0 <= i < len l.
Proof.
  unfold index, len. destruct (i <? 0) eqn:E; [discriminate|].
  intro H. apply Z.ltb_ge in E.
  assert (nth_error l (Z.to_nat i) <> None) as N by congruence.
  apply nth_error_Some in N. lia.
Qed.

Lemma index_out_of_range {A} (l : list A) (i : Z) :
  len l <= i -> index l i = None.
Proof.
  intro H. unfold index, len in *.
  destruct (i <? 0); [reflexivity|].
  apply nth_error_None. lia.
Qed.

(** ** Audio overviews *)

Ltac ltb_true H := let E := fresh in assert (E := H); apply Z.ltb_lt in E; rewrite E.

Ltac decide_ltb :=
  repeat match goal with
  | |- context [?a <? ?b] =>
      first [ replace (a <? b) with true by (symmetry; apply Z.ltb_lt; lia)
            | replace (a <? b) with false by (symmetry; apply Z.ltb_ge; lia) ]
  | |- context [?a =? ?b] =>
      first [ replace (a =? b) with true by (symmetry; apply Z.eqb_eq; lia)
            | replace (a =? b) with false by (symmetry; apply Z.eqb_neq; lia) ]
  end.

(** The fields [GetAudioOverview] reads from an audio sub-array of at least
    four elements. *)
Lemma GetAudioOverview_audio c projectID w resp data audioData a1 a2 a3 :
  answer_Do (server w) (trace w) (getAudioOverviewCall projectID) = (resp, None) ->
  json.Unmarshal resp = (data, None) ->
  index data 2 = Some (Slice audioData) ->
  index audioData 1 = Some a1 ->
  index audioData 2 = Some a2 ->
  index audioData 3 = Some a3 ->
  result_of (GetAudioOverview c projectID w) =
    let result :=
      assign (as_string a3) set_Title
        (assign (as_string a2) set_AudioID
           (assign (as_string a1) set_AudioData (newAudioOverviewResult projectID))) in
    Returns
      (Some (if 5 <? len audioData
             then match index audioData 5 with
                  | Some a5 => assign (as_bool a5) set_IsReady result
                  | None => result
                  end
             else result), None).
Proof.
  intros Hrpc Hjson H2 H1 H2' H3.
  pose proof (index_some_lt _ _ _ H2) as L2.
  pose proof (index_some_lt _ _ _ H3) as L3.
  unfold GetAudioOverview, getAudioOverviewCall in *. run.
  rewrite Hrpc, Hjson. decide_ltb. rewrite H2. run.
  decide_ltb. rewrite H1, H2', H3. run.
  destruct (5 <? len audioData) eqn:E5; [|reflexivity].
  apply Z.ltb_lt in E5.
  destruct (index_in_range audioData 5) as [a5 H5]; [lia|].
  rewrite H5. reflexivity.
Qed.

Lemma GetAudioOverview_empty c projectID w resp :
  answer_Do (server w) (trace w) (getAudioOverviewCall projectID) = (resp, None) ->
  json.Unmarshal resp = ([], None) ->
  result_of (GetAudioOverview c projectID w) =
    Returns (Some (newAudioOverviewResult projectID), None).
Proof.
  intros Hrpc Hjson. unfold GetAudioOverview, getAudioOverviewCall in *. run.
  rewrite Hrpc, Hjson. reflexivity.
Qed.

Lemma assign_IsReady (v : option string) set r :
  (forall s x, IsReady (set s x) = IsReady x) ->
  IsReady (assign v set r) = IsReady r.
Proof. intro H. destruct v; simpl; auto. Qed.

(** C1 (amended).  Fields the response leaves out take their zero value and
    no error is reported.  When the audio sub-array (index 2 of the payload)
    has at least 4 but fewer than 6 elements, [GetAudioOverview] returns a
    result whose [IsReady] is [false], with a nil error.  When the payload is
    an empty top-level array it returns, with a nil error, the result whose
    [ProjectID] is the requested project ID and whose other fields
    ([AudioID], [Title], [AudioData], [IsReady]) are at their zero
    values. *)
Theorem GetAudioOverview_absent_fields
    (c : Client) (projectID : string) (w w' : World) (resp resp' : RawMessage)
    (data audioData : list any) :
  answer_Do (server w) (trace w) (getAudioOverviewCall projectID) = (resp, None) ->
  json.Unmarshal resp = (data, None) ->
  index data 2 = Some (Slice audioData) ->
  4 <= len audioData < 6 ->
  answer_Do (server w') (trace w') (getAudioOverviewCall projectID) = (resp', None) ->
  json.Unmarshal resp' = ([], None) ->
  (exists r, result_of (GetAudioOverview c projectID w) = Returns (Some r, None)
             /\ IsReady r = false)
  /\ result_of (GetAudioOverview c projectID w') =
       Returns (Some {| ProjectID := projectID; AudioID := ""; Title := "";
                        AudioData := ""; IsReady := false |}, None).
Proof.
  intros Hrpc Hjson H2 Hlen Hrpc' Hjson'. split.
  - destruct (index_in_range audioData 1) as [a1 H1]; [lia|].
    destruct (index_in_range audioData 2) as [a2 H2']; [lia|].
    destruct (index_in_range audioData 3) as [a3 H3]; [lia|].
    rewrite (GetAudioOverview_audio c projectID w resp data audioData a1 a2 a3)
      by assumption.
    cbv zeta. replace (5 <? len audioData) with false
      by (symmetry; apply Z.ltb_ge; lia).
    eexists. split; [reflexivity|].
    rewrite !assign_IsReady by reflexivity. reflexivity.
  - exact (GetAudioOverview_empty c projectID w' resp' Hrpc' Hjson').
Qed.

Lemma GetAudioOverview_absent_fields_witness :
  (exists r,
      result_of (GetAudioOverview quiet_client "notebook-1"
                   (fresh_world (constant_server
                      audio_payload_short)))
      = Returns (Some r, None)
      /\ IsReady r = false)
  /\ result_of (GetAudioOverview quiet_client "notebook-1"
                  (fresh_world (constant_server "[]")))
     = Returns (Some {| ProjectID := "notebook-1"; AudioID := ""; Title := "";
                        AudioData := ""; IsReady := false |}, None).
Proof.
  eapply (GetAudioOverview_absent_fields quiet_client "notebook-1").
  - reflexivity.
  - vm_compute. reflexivity.
  - reflexivity.
  - unfold len; simpl; lia.
  - reflexivity.
  - vm_compute. reflexivity.
Defined.

(** C1, as stated, fails: for the empty payload [[]] and the project ID
    "notebook-1" the result carries that project ID, so it is not the
    all-zero [AudioOverviewResult]. *)
Lemma GetAudioOverview_empty_payload_not_zero :
  result_of (GetAudioOverview quiet_client "notebook-1"
               (fresh_world (constant_server "[]")))
  = Returns (Some {| ProjectID := "notebook-1"; AudioID := ""; Title := "";
                     AudioData := ""; IsReady := false |}, None)
  /\ result_of (GetAudioOverview quiet_client "notebook-1"
                  (fresh_world (constant_server "[]")))
     <> Returns (Some zeroAudioOverviewResult, None).
Proof.
  split.
  - vm_compute. reflexivity.
  - vm_compute. discriminate.
Qed.

(** C3 (amended).  Inside an audio sub-array of at least four elements,
    and inside the share data array, a present value whose type is not the
    field's is not an error: the field keeps its zero value.  For every
    audio-overview payload whose element 2 is an array of at least four
    elements, [GetAudioOverview] returns a result with a nil error, in
    which [AudioData], [AudioID] and [Title] are empty whenever the element
    at index 1, 2 or 3, respectively, is not a string, and [IsReady] is
    false whenever the element at index 5 is present and not a boolean.
    For every share payload whose element 0 is an array, [ShareAudio]
    returns a result with a nil error, in which [ShareURL] and [ShareID]
    are empty whenever the element at index 0 or 1, respectively, is
    present and not a string. *)
Theorem type_mismatch_leaves_zero_value
    (c : Client) (projectID : string) (shareOption : ShareOption)
    (w w' : World) (resp resp' : RawMessage)
    (data audioData data' shareData : list any) :
  answer_Do (server w) (trace w) (getAudioOverviewCall projectID) = (resp, None) ->
  json.Unmarshal resp = (data, None) ->
  index data 2 = Some (Slice audioData) ->
  4 <= len audioData ->
  answer_Do (server w') (trace w') (shareAudioCall projectID shareOption) = (resp', None) ->
  json.Unmarshal resp' = (data', None) ->
  index data' 0 = Some (Slice shareData) ->
  (exists r,
      result_of (GetAudioOverview c projectID w) = Returns (Some r, None)
      /\ (forall a, index audioData 1 = Some a -> as_string a = None -> AudioData r = "")
      /\ (forall a, index audioData 2 = Some a -> as_string a = None -> AudioID r = "")
      /\ (forall a, index audioData 3 = Some a -> as_string a = None -> Title r = "")
      /\ (forall a, index audioData 5 = Some a -> as_bool a = None -> IsReady r = false))
  /\ (exists r,
        result_of (ShareAudio c projectID shareOption w') = Returns (Some r, None)
        /\ (forall s, index shareData 0 = Some s -> as_string s = None -> ShareURL r = "")
        /\ (forall s, index shareData 1 = Some s -> as_string s = None -> ShareID r = "")).
Proof.
  intros Hrpc Hjson H2 Hlen Hrpc' Hjson' H0. split.
  - destruct (index_in_range audioData 1) as [a1 H1]; [lia|].
    destruct (index_in_range audioData 2) as [a2 H2']; [lia|].
    destruct (index_in_range audioData 3) as [a3 H3]; [lia|].
    rewrite (GetAudioOverview_audio c projectID w resp data audioData a1 a2 a3)
      by assumption.
    cbv zeta. eexists. split; [reflexivity|].
    rewrite H1, H2', H3.
    destruct (5 <? len audioData) eqn:E5.
    + apply Z.ltb_lt in E5.
      destruct (index_in_range audioData 5) as [a5 H5]; [lia|]. rewrite H5.
      repeat split; intros a [= <-] Hty; rewrite Hty;
        destruct (as_string a1), (as_string a2), (as_string a3), (as_bool a5);
        try discriminate; reflexivity.
    + apply Z.ltb_ge in E5. rewrite (index_out_of_range audioData 5) by lia.
      repeat split; intros a [= <-] Hty; try rewrite Hty;
        destruct (as_string a1), (as_string a2), (as_string a3);
        try discriminate; reflexivity.
  - pose proof (index_some_lt _ _ _ H0) as L0.
    unfold ShareAudio, shareAudioCall in *. run.
    rewrite Hrpc', Hjson'. decide_ltb. rewrite H0. run.
    destruct (0 <? len shareData) eqn:E0.
    2:{ apply Z.ltb_ge in E0. eexists. split; [reflexivity|].
        rewrite (index_out_of_range shareData 0), (index_out_of_range shareData 1) by lia.
        split; intros s [=]. }
    apply Z.ltb_lt in E0.
    destruct (index_in_range shareData 0) as [s0 Hs0]; [lia|]. rewrite Hs0. run.
    destruct (1 <? len shareData) eqn:E1.
    + apply Z.ltb_lt in E1.
      destruct (index_in_range shareData 1) as [s1 Hs1]; [lia|]. rewrite Hs1.
      eexists. split; [reflexivity|].
      split; intros s [= <-] Hty; rewrite Hty;
        destruct (as_string s0), (as_string s1); try discriminate; reflexivity.
    + apply Z.ltb_ge in E1. rewrite (index_out_of_range shareData 1) by lia.
      eexists. split; [reflexivity|].
      split; intros s [= <-] Hty; try rewrite Hty;
        destruct (as_string s0); try discriminate; reflexivity.
Qed.

Lemma type_mismatch_leaves_zero_value_witness :
  (exists r,
      result_of (GetAudioOverview quiet_client "notebook-1"
                   (fresh_world (constant_server
                      audio_payload_mistyped)))
      = Returns (Some r, None)
      /\ AudioData r = "")
  /\ (exists r,
        result_of (ShareAudio quiet_client "notebook-1" SharePublic
                     (fresh_world (constant_server share_payload_mistyped)))
        = Returns (Some r, None)
        /\ ShareURL r = "").
Proof.
  destruct (type_mismatch_leaves_zero_value quiet_client "notebook-1" SharePublic
              (fresh_world (constant_server audio_payload_mistyped))
              (fresh_world (constant_server share_payload_mistyped))
              audio_payload_mistyped share_payload_mistyped
              [Nil; Nil;
               Slice [Float64 (S754_finite false 6755399441055744 (-51));
                      Float64 (S754_finite false 5629499534213120 (-50));
                      Str "audio-1"; Str "Overview"; Nil; Bool true]]
              [Float64 (S754_finite false 6755399441055744 (-51));
               Float64 (S754_finite false 5629499534213120 (-50));
               Str "audio-1"; Str "Overview"; Nil; Bool true]
              [Slice [Float64 (S754_finite false 4785074604081152 (-48)); Str "share-1"]]
              [Float64 (S754_finite false 4785074604081152 (-48)); Str "share-1"])
    as [(r & Hr & Haudio & _) (r' & Hr' & Hurl & _)].
  - reflexivity.
  - vm_compute. reflexivity.
  - reflexivity.
  - unfold len; simpl; lia.
  - reflexivity.
  - vm_compute. reflexivity.
  - reflexivity.
  - split.
    + exists r. split; [exact Hr|]. eapply Haudio; reflexivity.
    + exists r'. split; [exact Hr'|]. eapply Hurl; reflexivity.
Defined.

(** C3, as stated, fails: the audio sub-array [[3,5,"audio-1","Overview",
    null,true]] holds the number 5 where the base64 string is expected, and
    [GetAudioOverview] returns a result with empty [AudioData] and a nil
    error; the share data [[17,"share-1"]] holds the number 17 where the URL
    is expected, and [ShareAudio] returns a result with empty [ShareURL] and
    a nil error. *)
Lemma type_mismatch_is_not_an_error :
  result_of (GetAudioOverview quiet_client "notebook-1"
               (fresh_world (constant_server
                  audio_payload_mistyped)))
  = Returns (Some {| ProjectID := "notebook-1"; AudioID := "audio-1";
                     Title := "Overview"; AudioData := ""; IsReady := true |}, None)
  /\ result_of (ShareAudio quiet_client "notebook-1" SharePublic
                  (fresh_world (constant_server share_payload_mistyped)))
     = Returns (Some {| ShareURL := ""; ShareID := "share-1"; IsPublic := true |}, None).
Proof. split; vm_compute; reflexivity. Qed.

(** C8.  When the payload has an element at index 2 that is not an array of
    at least four elements, [CreateAudioOverview] returns the default
    result (the one it builds before parsing: the project ID it was given,
    every other field at its zero value) with a nil error, while
    [GetAudioOverview] returns the error "invalid audio data format". *)
Theorem index2_not_audio_array
    (c : Client) (projectID instructions : string) (w w' : World)
    (resp resp' : RawMessage) (data : list any) (d2 : any) :
  projectID <> "" ->
  instructions <> "" ->
  answer_Do (server w) (trace w) (createAudioOverviewCall projectID instructions)
    = (resp, None) ->
  json.Unmarshal resp = (data, None) ->
  answer_Do (server w') (trace w') (getAudioOverviewCall projectID) = (resp', None) ->
  json.Unmarshal resp' = (data, None) ->
  index data 2 = Some d2 ->
  (forall audioData, d2 = Slice audioData -> len audioData < 4) ->
  result_of (CreateAudioOverview c projectID instructions w) =
    Returns (Some {| ProjectID := projectID; AudioID := ""; Title := "";
                     AudioData := ""; IsReady := false |}, None)
  /\ result_of (GetAudioOverview c projectID w') =
       Returns (None, Some (Errorf "invalid audio data format" [])).
Proof.
  intros Hp Hi Hrpc Hjson Hrpc' Hjson' H2 Hshape.
  pose proof (index_some_lt _ _ _ H2) as L2.
  apply String.eqb_neq in Hp. apply String.eqb_neq in Hi.
  split.
  - unfold CreateAudioOverview, createAudioOverviewCall in *.
    rewrite Hp, Hi. run. rewrite Hrpc, Hjson. decide_ltb. rewrite H2. run.
    destruct d2; run; try reflexivity.
    specialize (Hshape l eq_refl). decide_ltb. reflexivity.
  - unfold GetAudioOverview, getAudioOverviewCall in *. run.
    rewrite Hrpc', Hjson'. decide_ltb. rewrite H2. run.
    destruct d2; run; try reflexivity.
    specialize (Hshape l eq_refl). decide_ltb. reflexivity.
Qed.

Lemma index2_not_audio_array_witness :
  result_of (CreateAudioOverview quiet_client "notebook-1" "be brief"
               (fresh_world (constant_server "[null,null,[3]]"))) =
    Returns (Some {| ProjectID := "notebook-1"; AudioID := ""; Title := "";
                     AudioData := ""; IsReady := false |}, None)
  /\ result_of (GetAudioOverview quiet_client "notebook-1"
                  (fresh_world (constant_server "[null,null,[3]]"))) =
       Returns (None, Some (Errorf "invalid audio data format" [])).
Proof.
  eapply (index2_not_audio_array quiet_client "notebook-1" "be brief").
  - discriminate.
  - discriminate.
  - reflexivity.
  - vm_compute. reflexivity.
  - reflexivity.
  - vm_compute. reflexivity.
  - reflexivity.
  - intros audioData E. injection E as <-. unfold len; simpl; lia.
Defined.

(** C10.  [CreateAudioOverview] checks its arguments before any network
    call: with an empty project ID or empty instructions it returns a
    non-nil error and leaves the world as it was, so no RPC is issued. *)
Theorem CreateAudioOverview_validates_first
    (c : Client) (projectID instructions : string) (w : World) :
  projectID = "" \/ instructions = "" ->
  (exists e, result_of (CreateAudioOverview c projectID instructions w)
             = Returns (None, Some e))
  /\ world_of (CreateAudioOverview c projectID instructions w) = w
  /\ trace (world_of (CreateAudioOverview c projectID instructions w)) = trace w.
Proof.
  intros H. unfold CreateAudioOverview.
  destruct (String.eqb projectID "") eqn:Ep.
  - run. repeat split. eexists. reflexivity.
  - destruct H as [-> | ->]; [discriminate Ep|].
    cbn [String.eqb]. run. repeat split. eexists. reflexivity.
Qed.

Lemma CreateAudioOverview_validates_first_witness :
  (exists e, result_of (CreateAudioOverview quiet_client "" "be brief"
                          (fresh_world (constant_server "[]")))
             = Returns (None, Some e))
  /\ world_of (CreateAudioOverview quiet_client "" "be brief"
                 (fresh_world (constant_server "[]")))
     = fresh_world (constant_server "[]")
  /\ trace (world_of (CreateAudioOverview quiet_client "" "be brief"
                        (fresh_world (constant_server "[]"))))
     = trace (fresh_world (constant_server "[]")).
Proof.
  apply (CreateAudioOverview_validates_first quiet_client "" "be brief").
  left. reflexivity.
Defined.

(** ** Source freshness *)

Lemma append_empty_r (s : string) : (s ++ "")%string = s.
Proof. induction s; simpl; congruence. Qed.

(** The decimal text of an integer determines the integer. *)
Lemma fmt_d_inj (n m : int) : fmt_d n = fmt_d m -> n = m.
Proof.
  unfold fmt_d. intro H.
  assert (forall z, NilZero.int_of_string (NilZero.string_of_int (Z.to_int z))
                    = Some (Z.to_int z)) as P.
  { intro z. apply NilZero.isi; destruct z; simpl; try discriminate;
      intros [= E]; exact (DecimalPos.Unsigned.to_uint_nonnil _ E). }
  apply (f_equal NilZero.int_of_string) in H. rewrite !P in H.
  injection H as H. apply (f_equal Z.of_int) in H.
  now rewrite !DecimalZ.of_to in H.
Qed.

(** C2.  For every status code other than 3 (the only recognized one),
    [interpretFreshnessStatusCode] returns, with a nil error, the sentinel
    result: status [SOURCE_STATUS_ERROR] and the message "Unknown freshness
    status code: %d" formatted with the raw integer.  The message renders
    as that prefix followed by the integer in decimal, from which the
    integer can be read back; no RPC is issued. *)
Theorem interpretFreshnessStatusCode_unknown
    (c : Client) (statusCode : int) (sourceID : string)
    (result : SourceFreshnessResult) (w : World) :
  statusCode <> 3 ->
  result_of (interpretFreshnessStatusCode c statusCode sourceID result w) =
    Returns (Some {| SourceID := SourceID result;
                     Status := SourceSettings_SOURCE_STATUS_ERROR;
                     Message := Sprintf "Unknown freshness status code: %d"
                                        [Int statusCode] |}, None)
  /\ text_render (Sprintf "Unknown freshness status code: %d" [Int statusCode])
     = Some ("Unknown freshness status code: " ++ fmt_d statusCode)%string
  /\ (forall n : int, fmt_d n = fmt_d statusCode -> n = statusCode)
  /\ trace (world_of (interpretFreshnessStatusCode c statusCode sourceID result w))
     = trace w.
Proof.
  intro H. apply Z.eqb_neq in H.
  unfold interpretFreshnessStatusCode. rewrite H.
  repeat split.
  - destruct (debug c); reflexivity.
  - cbn. now rewrite append_empty_r.
  - intros n. apply fmt_d_inj.
  - destruct (debug c); reflexivity.
Qed.

Lemma interpretFreshnessStatusCode_unknown_witness :
  result_of (interpretFreshnessStatusCode debug_client 99 "src-1"
               {| SourceID := "src-1";
                  Status := SourceSettings_SOURCE_STATUS_UNSPECIFIED;
                  Message := Lit "" |}
               (fresh_world (constant_server ""))) =
    Returns (Some {| SourceID := "src-1";
                     Status := SourceSettings_SOURCE_STATUS_ERROR;
                     Message := Sprintf "Unknown freshness status code: %d" [Int 99] |},
             None)
  /\ text_render (Sprintf "Unknown freshness status code: %d" [Int 99])
     = Some "Unknown freshness status code: 99".
Proof.
  pose proof (interpretFreshnessStatusCode_unknown debug_client 99 "src-1"
                {| SourceID := "src-1";
                   Status := SourceSettings_SOURCE_STATUS_UNSPECIFIED;
                   Message := Lit "" |}
                (fresh_world (constant_server ""))) as H.
  destruct H as (H1 & H2 & _); [discriminate|].
  split; [exact H1 | exact H2].
Defined.

Lemma state_free_deref {A} (p : option A) : state_free (deref p).
Proof. destruct p; [apply state_free_ret | apply state_free_panic]. Qed.

Lemma state_free_find_source sourceID sourcesData :
  state_free (find_source sourceID sourcesData).
Proof.
  induction sourcesData as [|sourceData rest IH]; cbn [find_source].
  - apply state_free_ret.
  - prove_state_free; assumption.
Qed.

Lemma state_free_find_project sourceID projects :
  state_free (find_project sourceID projects).
Proof.
  induction projects as [|projectData rest IH]; cbn [find_project].
  - apply state_free_ret.
  - prove_state_free; try assumption; apply state_free_find_source.
Qed.

(** [findProjectIDForSource] issues the project listing and nothing else;
    what it returns depends on the server and the trace only. *)
Lemma findProjectIDForSource_run c sourceID w :
  exists o, forall out,
    findProjectIDForSource c sourceID (with_stdout w out) =
      (o, {| server := server w;
             trace := trace w ++ [DoWithFullResponse listProjectsCall];
             stdout := out |}).
Proof.
  unfold findProjectIDForSource.
  match goal with
  | |- context [bind _ ?k] =>
      assert (forall x, state_free (k x)) as Hk
  end.
  { intros [resp err]. prove_state_free;
      first [ apply state_free_deref | apply state_free_find_project ]. }
  match goal with H : forall x, state_free (?k x) |- _ => set (K := k) in * end.
  destruct (Hk (answer_DoWithFullResponse (server w) (trace w) listProjectsCall))
    as [o Ho].
  exists o. intro out. unfold bind, rpc_DoWithFullResponse.
  cbn [with_stdout with_trace server trace stdout].
  apply Ho.
Qed.

Lemma with_stdout_self (w : World) : with_stdout w (stdout w) = w.
Proof. destruct w; reflexivity. Qed.

(** C4 (amended).  During a source-freshness check a failure of the
    project-lookup call, or of the freshness call, is reported inside the
    result and not as an error.  When the project listing of the lookup
    fails with [e], [CheckSourceFreshness] returns a nil error and a result
    whose status is [SOURCE_STATUS_ERROR] and whose message is "Could not
    find project for source: %v" formatted with the lookup's error (which
    wraps [e]); when the lookup finds the project and the freshness call
    fails with [e'], whatever the refresh call in between returned, it
    returns a nil error and a result whose status is [SOURCE_STATUS_ERROR]
    and whose message is "Failed to check source freshness: %v" formatted
    with [e'].  The earlier revision, whose only request is the project
    listing, does the same with the message "Failed to get projects data:
    %v". *)
Theorem CheckSourceFreshness_reports_failure_in_result
    (c : Client) (sourceID projectID : string) (w w' : World)
    (r r' : option FullResponse) (e e' : errorValue) :
  answer_DoWithFullResponse (server w) (trace w) listProjectsCall = (r, Some e) ->
  result_of (findProjectIDForSource c sourceID w') = Returns (projectID, None) ->
  answer_DoWithFullResponse (server w')
    (trace w' ++ [DoWithFullResponse listProjectsCall;
                  DoWithFullResponse (refreshSourceCall projectID sourceID)])
    (checkFreshnessCall projectID sourceID) = (r', Some e') ->
  result_of (CheckSourceFreshness c sourceID w) =
    Returns (Some {| SourceID := sourceID;
                     Status := SourceSettings_SOURCE_STATUS_ERROR;
                     Message := Sprintf "Could not find project for source: %v"
                                  [Err (Errorf "failed to get projects: %w" [Err e])] |},
             None)
  /\ result_of (CheckSourceFreshness c sourceID w') =
       Returns (Some {| SourceID := sourceID;
                        Status := SourceSettings_SOURCE_STATUS_ERROR;
                        Message := Sprintf "Failed to check source freshness: %v"
                                     [Err e'] |},
                None)
  /\ result_of (part_000.CheckSourceFreshness c sourceID w) =
       Returns (Some {| SourceID := sourceID;
                        Status := SourceSettings_SOURCE_STATUS_ERROR;
                        Message := Sprintf "Failed to get projects data: %v" [Err e] |},
                None).
Proof.
  intros Hlist Hfind Hfresh. split; [|split].
  - unfold CheckSourceFreshness, checkSourceSyncStatus, findProjectIDForSource,
      listProjectsCall in *.
    destruct (debug c); run; rewrite Hlist; reflexivity.
  - destruct (findProjectIDForSource_run c sourceID w') as [o Ho].
    assert (o = Returns (projectID, None)) as ->.
    { specialize (Ho (stdout w')). rewrite with_stdout_self in Ho.
      unfold result_of in Hfind. rewrite Ho in Hfind. exact Hfind. }
    unfold CheckSourceFreshness, checkSourceSyncStatus,
      refreshSourceCall, checkFreshnessCall in *.
    destruct (debug c); run;
      match goal with
      | |- context [findProjectIDForSource c sourceID ?W] =>
          change W with (with_stdout w' (stdout W)); rewrite Ho
      end; run;
      match goal with
      | |- context [answer_DoWithFullResponse ?s ?t
                      {| ID := RPCRefreshSource; Args := ?a; NotebookID := ?n |}] =>
          destruct (answer_DoWithFullResponse s t
                      {| ID := RPCRefreshSource; Args := a; NotebookID := n |})
            as [rr [re|]]
      end; run;
      rewrite <- app_assoc; cbn [app]; rewrite Hfresh; reflexivity.
  - unfold part_000.CheckSourceFreshness, part_000.checkSourceSyncStatus,
      listProjectsCall in *.
    run. rewrite Hlist. reflexivity.
Qed.

Lemma CheckSourceFreshness_reports_failure_in_result_witness :
  result_of (CheckSourceFreshness quiet_client "src-1"
               (fresh_world (constant_server ""))) =
    Returns (Some {| SourceID := "src-1";
                     Status := SourceSettings_SOURCE_STATUS_ERROR;
                     Message := Sprintf "Could not find project for source: %v"
                                  [Err (Errorf "failed to get projects: %w"
                                          [Err (serverError "unavailable")])] |},
             None)
  /\ result_of (CheckSourceFreshness quiet_client "src-1"
                  (fresh_world (listing_server (None, Some (serverError "timeout"))))) =
       Returns (Some {| SourceID := "src-1";
                        Status := SourceSettings_SOURCE_STATUS_ERROR;
                        Message := Sprintf "Failed to check source freshness: %v"
                                     [Err (serverError "timeout")] |},
                None)
  /\ result_of (part_000.CheckSourceFreshness quiet_client "src-1"
                  (fresh_world (constant_server ""))) =
       Returns (Some {| SourceID := "src-1";
                        Status := SourceSettings_SOURCE_STATUS_ERROR;
                        Message := Sprintf "Failed to get projects data: %v"
                                     [Err (serverError "unavailable")] |},
                None).
Proof.
  eapply (CheckSourceFreshness_reports_failure_in_result quiet_client "src-1" "proj-1").
  - reflexivity.
  - vm_compute. reflexivity.
  - reflexivity.
Defined.

(** C4, as stated, fails: when the project listing fails, and when the
    listing succeeds but the freshness call fails, [CheckSourceFreshness]
    returns a nil error (the failure is in the result's status and
    message). *)
Lemma CheckSourceFreshness_rpc_failure_nil_error :
  result_of (CheckSourceFreshness quiet_client "src-1"
               (fresh_world (constant_server ""))) =
    Returns (Some {| SourceID := "src-1";
                     Status := SourceSettings_SOURCE_STATUS_ERROR;
                     Message := Sprintf "Could not find project for source: %v"
                                  [Err (Errorf "failed to get projects: %w"
                                          [Err (serverError "unavailable")])] |},
             None)
  /\ result_of (CheckSourceFreshness quiet_client "src-1"
                  (fresh_world (listing_server (None, Some (serverError "timeout"))))) =
       Returns (Some {| SourceID := "src-1";
                        Status := SourceSettings_SOURCE_STATUS_ERROR;
                        Message := Sprintf "Failed to check source freshness: %v"
                                     [Err (serverError "timeout")] |},
                None)
  /\ result_of (part_000.CheckSourceFreshness quiet_client "src-1"
                  (fresh_world (constant_server ""))) =
       Returns (Some {| SourceID := "src-1";
                        Status := SourceSettings_SOURCE_STATUS_ERROR;
                        Message := Sprintf "Failed to get projects data: %v"
                                     [Err (serverError "unavailable")] |},
                None).
Proof. repeat split; vm_compute; reflexivity. Qed.

(** ** Decoding is independent of the world *)

Lemma state_free_try_formats formats data :
  (forall format, In format formats -> state_free (format data)) ->
  state_free (try_formats formats data).
Proof.
  induction formats as [|format formats IH]; intro H; cbn [try_formats].
  - apply state_free_ret.
  - apply state_free_bind.
    + apply H. now left.
    + intros [id ok]. destruct ok.
      * apply state_free_ret.
      * apply IH. intros f Hf. apply H. now right.
Qed.

Lemma state_free_extractSourceID resp : state_free (extractSourceID resp).
Proof.
  unfold extractSourceID. prove_state_free.
  apply state_free_try_formats.
  intros format [<- | [<- | [<- | []]]];
    unfold format1, format2, format3; prove_state_free.
Qed.

Lemma state_free_extractTimestamps c metadataArr :
  state_free (extractTimestamps c metadataArr).
Proof. unfold extractTimestamps. prove_state_free. Qed.

Lemma always_returns_ret {A} (a : A) : always_returns (ret a).
Proof. intro w. now exists a. Qed.

Lemma always_returns_bind {A B} (m : Go A) (k : A -> Go B) :
  always_returns m -> (forall a, always_returns (k a)) -> always_returns (bind m k).
Proof.
  intros Hm Hk w. destruct (Hm w) as [a Ha].
  unfold bind, result_of in *. destruct (m w) as [o w']. cbn [fst] in Ha. subst o.
  apply Hk.
Qed.

(** [if len(l) > 0 { x := l[0]; ... } else { ... }] does not panic. *)
Lemma always_returns_guarded {B} (l : list any) (k : any -> Go B) (e : Go B) :
  (forall x, always_returns (k x)) -> always_returns e ->
  always_returns (if 0 <? len l then bind (at_ l 0) k else e).
Proof.
  intros Hk He. destruct (0 <? len l) eqn:E; [|exact He].
  apply Z.ltb_lt in E.
  destruct (index_in_range l 0) as [x Hx]; [lia|].
  unfold at_. rewrite Hx. apply always_returns_bind; [apply always_returns_ret|exact Hk].
Qed.

Ltac returns_step :=
  match goal with
  | |- always_returns (ret _) => apply always_returns_ret
  | |- always_returns (if 0 <? len _ then bind (at_ _ 0) _ else _) =>
      apply always_returns_guarded; [intro|]
  | |- always_returns (match ?x with _ => _ end) => destruct x
  end.

Lemma always_returns_try_formats formats data :
  (forall format, In format formats -> always_returns (format data)) ->
  always_returns (try_formats formats data).
Proof.
  induction formats as [|format formats IH]; intro H; cbn [try_formats].
  - apply always_returns_ret.
  - apply always_returns_bind.
    + apply H. now left.
    + intros [id ok]. destruct ok.
      * apply always_returns_ret.
      * apply IH. intros f Hf. apply H. now right.
Qed.

Lemma always_returns_extractSourceID resp : always_returns (extractSourceID resp).
Proof.
  unfold extractSourceID.
  destruct (len_bytes resp =? 0); [apply always_returns_ret|].
  destruct (json.Unmarshal resp) as [data [e|]]; [apply always_returns_ret|].
  apply always_returns_try_formats.
  intros format [<- | [<- | [<- | []]]];
    unfold format1, format2, format3; repeat returns_step.
Qed.

Lemma always_returns_extractTimestamps c metadataArr :
  4 <= len metadataArr -> always_returns (extractTimestamps c metadataArr).
Proof.
  intro H. unfold extractTimestamps.
  destruct (index_in_range metadataArr 3) as [m3 H3]; [lia|].
  destruct (index_in_range metadataArr 2) as [m2 H2]; [lia|].
  unfold at_ at 1. rewrite H3.
  apply always_returns_bind; [apply always_returns_ret|]. intros ?.
  apply always_returns_bind.
  - destruct (as_slice a) as [timestampArr|]; [|apply always_returns_ret].
    destruct (2 <=? len timestampArr) eqn:E; [|apply always_returns_ret].
    apply Z.leb_le in E.
    destruct (index_in_range timestampArr 1) as [t1 Ht1]; [lia|].
    unfold at_ at 1. rewrite Ht1.
    apply always_returns_bind; [apply always_returns_ret|]. intros ?.
    destruct (as_slice a0) as [ts|]; [|apply always_returns_ret].
    destruct (1 <=? len ts) eqn:E'; [|apply always_returns_ret].
    apply Z.leb_le in E'.
    destruct (index_in_range ts 0) as [t0 Ht0]; [lia|].
    unfold at_. rewrite Ht0.
    apply always_returns_bind; [apply always_returns_ret|]. intros ?.
    destruct (as_float64 a1); apply always_returns_ret.
  - intros lastUpdate. unfold at_ at 1. rewrite H2.
    apply always_returns_bind; [apply always_returns_ret|]. intros ?.
    apply always_returns_bind; [|intros ?; apply always_returns_ret].
    destruct (as_slice a0) as [timestampArr|]; [|apply always_returns_ret].
    destruct (1 <=? len timestampArr) eqn:E; [|apply always_returns_ret].
    apply Z.leb_le in E.
    destruct (index_in_range timestampArr 0) as [t0 Ht0]; [lia|].
    unfold at_. rewrite Ht0.
    apply always_returns_bind; [apply always_returns_ret|]. intros ?.
    destruct (as_float64 a1); apply always_returns_ret.
Qed.

(** C6.  Decoding raw positional payloads is pure and deterministic: the
    outcome of [extractSourceID] is a function of the raw bytes alone, and
    the outcome of [extractTimestamps] a function of the metadata array
    alone.  Whatever the world (server, requests issued so far, output so
    far) and whatever the client, identical input gives the identical
    outcome, and the world is left as it was: no request is issued and
    nothing is written.  [extractSourceID] always returns a pair, and so
    does [extractTimestamps] on an array of at least four elements. *)
Theorem decoding_is_pure
    (resp : RawMessage) (metadataArr : list any) (c1 c2 : Client) (w1 w2 : World) :
  result_of (extractSourceID resp w1) = result_of (extractSourceID resp w2)
  /\ world_of (extractSourceID resp w1) = w1
  /\ (exists id err, result_of (extractSourceID resp w1) = Returns (id, err))
  /\ result_of (extractTimestamps c1 metadataArr w1)
     = result_of (extractTimestamps c2 metadataArr w2)
  /\ world_of (extractTimestamps c1 metadataArr w1) = w1
  /\ (4 <= len metadataArr ->
      exists lastUpdate creation,
        result_of (extractTimestamps c1 metadataArr w1) = Returns (lastUpdate, creation)).
Proof.
  repeat split.
  - apply state_free_result, state_free_extractSourceID.
  - apply state_free_world, state_free_extractSourceID.
  - destruct (always_returns_extractSourceID resp w1) as [[id err] H]. eauto.
  - transitivity (result_of (extractTimestamps c1 metadataArr w2)).
    + apply state_free_result, state_free_extractTimestamps.
    + reflexivity.
  - apply state_free_world, state_free_extractTimestamps.
  - intro H.
    destruct (always_returns_extractTimestamps c1 metadataArr H w1) as [[l cr] E].
    eauto.
Qed.

Lemma decoding_is_pure_witness :
  result_of (extractSourceID source_payload (fresh_world (constant_server "")))
  = Returns ("src-1", None)
  /\ result_of (extractTimestamps quiet_client
                  [Nil; Nil;
                   Slice [Float64 (S754_finite false 1 10)];
                   Slice [Nil; Slice [Float64 (S754_finite false 3 10)]]]
                  (fresh_world (constant_server "")))
     = Returns (3072, 1024).
Proof.
  pose proof (decoding_is_pure source_payload
                [Nil; Nil;
                 Slice [Float64 (S754_finite false 1 10)];
                 Slice [Nil; Slice [Float64 (S754_finite false 3 10)]]]
                quiet_client debug_client
                (fresh_world (constant_server ""))
                (fresh_world (listing_server (None, None))))
    as (_ & _ & (id & err & H1) & _ & _ & H2).
  destruct H2 as (lastUpdate & creation & H2); [unfold len; simpl; lia|].
  split.
  - rewrite H1. vm_compute in H1. exact (eq_sym H1).
  - rewrite H2. vm_compute in H2. exact (eq_sym H2).
Defined.

(** ** Positional arguments *)

(** C5.  Positional argument lists keep their null placeholders.  The one
    request [CreateNote] issues carries the five arguments [projectID,
    initialContent, [1], null, title]: the placeholder is at index 3 and the
    title at index 4.  The one request [AddYouTubeSource] issues carries an
    inner array with null at positions 0, 1 and 3 and the video ID at
    position 2. *)
Theorem positional_arguments_keep_placeholders
    (Note : Type) (beprotojson_Unmarshal : RawMessage -> Note * error)
    (c : Client) (projectID title initialContent videoID : string) (w : World) :
  let noteArgs := [Str projectID; Str initialContent; IntSlice [1]; Nil; Str title] in
  let inner := [Nil; Nil; Str videoID; Nil;
                EnumSourceType SourceType_SOURCE_TYPE_YOUTUBE_VIDEO] in
  trace (world_of (CreateNote Note beprotojson_Unmarshal c projectID title
                     initialContent w))
  = trace w ++ [Do {| ID := RPCCreateNote; Args := noteArgs; NotebookID := projectID |}]
  /\ len noteArgs = 5
  /\ index noteArgs 3 = Some Nil
  /\ index noteArgs 4 = Some (Str title)
  /\ trace (world_of (AddYouTubeSource c projectID videoID w))
     = trace w ++ [Do {| ID := RPCAddSources;
                         Args := [Slice [Slice inner]; Str projectID];
                         NotebookID := projectID |}]
  /\ index inner 0 = Some Nil
  /\ index inner 1 = Some Nil
  /\ index inner 2 = Some (Str videoID)
  /\ index inner 3 = Some Nil.
Proof.
  cbv zeta. repeat split.
  - unfold CreateNote. run.
    destruct (answer_Do _ _ _) as [resp [e|]]; [reflexivity|].
    destruct (beprotojson_Unmarshal resp) as [note [e|]]; reflexivity.
  - unfold AddYouTubeSource.
    destruct (debug c); run;
      destruct (answer_Do _ _ _) as [resp [e|]]; try reflexivity;
      destruct (len_bytes resp =? 0); try reflexivity;
      destruct (state_free_extractSourceID resp) as [o Ho]; rewrite Ho;
      destruct o as [[id [e|]]|]; reflexivity.
Qed.

(** ** Base64 *)

Module base64_facts.

Import Byte base64.

Local Open Scope N_scope.

Lemma land_disjoint (x b k : N) :
  x mod 2 ^ k = 0 -> b < 2 ^ k -> N.land x b = 0.
Proof.
  intros Hx Hb. apply N.bits_inj. intro n.
  rewrite N.land_spec, N.bits_0.
  destruct (N.ltb_spec n k) as [L | L].
  - rewrite <- (N.mod_pow2_bits_low x k n L), Hx, N.bits_0. reflexivity.
  - rewrite <- (N.mod_small b (2 ^ k) Hb), N.mod_pow2_bits_high by exact L.
    apply andb_false_r.
Qed.

(** [y << k | b] is [y * 2^k + b] when [b] fits in [k] bits. *)
Lemma lor_add (y b k : N) :
  b < 2 ^ k -> N.lor (y * 2 ^ k) b = y * 2 ^ k + b.
Proof.
  intros Hb.
  pose proof (land_disjoint (y * 2 ^ k) b k (N.Div0.mod_mul _ _) Hb) as D.
  rewrite <- (N.lxor_lor _ _ D). symmetry. apply N.add_nocarry_lxor, D.
Qed.

Lemma land_63 (v : N) : N.land v 63 = v mod 64.
Proof. change 63 with (N.ones 6). now rewrite N.land_ones. Qed.

Lemma land_255 (v : N) : N.land v 255 = v mod 256.
Proof. change 255 with (N.ones 8). now rewrite N.land_ones. Qed.

Lemma to_N_lt (b : byte) : to_N b < 256.
Proof. pose proof (to_N_bounded b). lia. Qed.

Lemma byte_of_to_N (b : byte) (v : N) : v mod 256 = to_N b -> byte_of v = b.
Proof. intro H. unfold byte_of. now rewrite land_255, H, of_to_N. Qed.

(** The 24-bit value of three bytes, as arithmetic. *)
Lemma val3 (a b c : N) :
  b < 256 -> c < 256 ->
  N.lor (N.lor (N.shiftl a 16) (N.shiftl b 8)) c = a * 65536 + b * 256 + c.
Proof.
  intros Hb Hc. rewrite !N.shiftl_mul_pow2.
  rewrite (lor_add a (b * 2 ^ 8) 16) by (change (2 ^ 8) with 256;
                                         change (2 ^ 16) with 65536; lia).
  replace (a * 2 ^ 16 + b * 2 ^ 8) with ((a * 256 + b) * 2 ^ 8)
    by (change (2 ^ 8) with 256; change (2 ^ 16) with 65536; lia).
  rewrite lor_add by exact Hc.
  change (2 ^ 8) with 256. lia.
Qed.

(** The value of a quantum of sextets, as arithmetic. *)
Lemma quantum_val_arith (d0 d1 d2 d3 : N) :
  d1 < 64 -> d2 < 64 -> d3 < 64 ->
  quantum_val [d0; d1; d2; d3] = d0 * 262144 + d1 * 4096 + d2 * 64 + d3.
Proof.
  intros H1 H2 H3. unfold quantum_val. cbn [nth]. rewrite !N.shiftl_mul_pow2.
  rewrite (lor_add d0 (d1 * 2 ^ 12) 18)
    by (change (2 ^ 12) with 4096; change (2 ^ 18) with 262144; lia).
  replace (d0 * 2 ^ 18 + d1 * 2 ^ 12) with ((d0 * 64 + d1) * 2 ^ 12)
    by (change (2 ^ 12) with 4096; change (2 ^ 18) with 262144; lia).
  rewrite (lor_add _ (d2 * 2 ^ 6) 12)
    by (change (2 ^ 6) with 64; change (2 ^ 12) with 4096; lia).
  replace ((d0 * 64 + d1) * 2 ^ 12 + d2 * 2 ^ 6)
    with (((d0 * 64 + d1) * 64 + d2) * 2 ^ 6)
    by (change (2 ^ 6) with 64; change (2 ^ 12) with 4096; lia).
  rewrite lor_add by exact H3.
  change (2 ^ 6) with 64. lia.
Qed.

Lemma decodeMap_enc_char (i : N) : i < 64 -> decodeMap (enc_char i) = Some i.
Proof.
  intro H. rewrite <- (N2Nat.id i) in *.
  assert (N.to_nat i < 64)%nat as L by lia. clear H.
  generalize dependent (N.to_nat i). intros n L.
  do 64 (destruct n as [|n]; [reflexivity|]). lia.
Qed.

Lemma decodeMap_sextet (val shift : N) :
  decodeMap (sextet val shift) = Some ((val / 2 ^ shift) mod 64).
Proof.
  unfold sextet. rewrite land_63, N.shiftr_div_pow2.
  apply decodeMap_enc_char. apply N.mod_lt. discriminate.
Qed.

Ltac div_lia := zify; Z.to_euclidean_division_equations; lia.

Ltac pow2 :=
  change (2 ^ 18) with 262144 in *; change (2 ^ 16) with 65536 in *;
  change (2 ^ 12) with 4096 in *; change (2 ^ 8) with 256 in *;
  change (2 ^ 6) with 64 in *; change (2 ^ 0) with 1 in *.

(** Decoding the four characters of three bytes gives the three bytes. *)
Lemma quantum_bytes_3 (a b c : byte) :
  let val := N.lor (N.lor (N.shiftl (to_N a) 16) (N.shiftl (to_N b) 8)) (to_N c) in
  quantum_bytes [(val / 2 ^ 18) mod 64; (val / 2 ^ 12) mod 64;
                 (val / 2 ^ 6) mod 64; (val / 2 ^ 0) mod 64] = [a; b; c].
Proof.
  pose proof (to_N_lt a). pose proof (to_N_lt b). pose proof (to_N_lt c).
  cbv zeta. rewrite val3 by assumption.
  unfold quantum_bytes. rewrite quantum_val_arith by (apply N.mod_lt; discriminate).
  cbn [List.length Nat.sub firstn]. rewrite !N.shiftr_div_pow2. pow2.
  repeat f_equal; apply byte_of_to_N; div_lia.
Qed.

(** Decoding the three characters of two bytes gives the two bytes. *)
Lemma quantum_bytes_2 (a b : byte) :
  let val := N.lor (N.shiftl (to_N a) 16) (N.shiftl (to_N b) 8) in
  quantum_bytes [(val / 2 ^ 18) mod 64; (val / 2 ^ 12) mod 64;
                 (val / 2 ^ 6) mod 64] = [a; b].
Proof.
  pose proof (to_N_lt a). pose proof (to_N_lt b).
  cbv zeta.
  rewrite <- (N.lor_0_r (N.lor _ _)), (val3 (to_N a) (to_N b) 0) by lia.
  unfold quantum_bytes.
  match goal with
  | |- context [quantum_val [?d0; ?d1; ?d2]] =>
      change (quantum_val [d0; d1; d2]) with (quantum_val [d0; d1; d2; 0])
  end.
  rewrite quantum_val_arith by (try apply N.mod_lt; try discriminate; lia).
  cbn [List.length Nat.sub firstn]. rewrite !N.shiftr_div_pow2. pow2.
  repeat f_equal; apply byte_of_to_N; div_lia.
Qed.

(** Decoding the two characters of one byte gives the byte. *)
Lemma quantum_bytes_1 (a : byte) :
  let val := N.shiftl (to_N a) 16 in
  quantum_bytes [(val / 2 ^ 18) mod 64; (val / 2 ^ 12) mod 64] = [a].
Proof.
  pose proof (to_N_lt a).
  cbv zeta. rewrite N.shiftl_mul_pow2.
  unfold quantum_bytes.
  match goal with
  | |- context [quantum_val [?d0; ?d1]] =>
      change (quantum_val [d0; d1]) with (quantum_val [d0; d1; 0; 0])
  end.
  rewrite quantum_val_arith by (try apply N.mod_lt; try discriminate; lia).
  cbn [List.length Nat.sub firstn]. rewrite !N.shiftr_div_pow2. pow2.
  repeat f_equal; apply byte_of_to_N; div_lia.
Qed.

Lemma list_ind3 {A} (P : list A -> Prop) :
  P [] -> (forall a, P [a]) -> (forall a b, P [a; b]) ->
  (forall a b c l, P l -> P (a :: b :: c :: l)) ->
  forall l, P l.
Proof.
  intros H0 H1 H2 H3.
  fix IH 1. intros [|a [|b [|c l]]];
    [apply H0 | apply H1 | apply H2 | apply H3, IH].
Qed.

Local Open Scope Z_scope.

(** One step of the decoder on a character of the alphabet. *)
Lemma decode_alphabet n c r si dbuf dst v :
  decodeMap c = Some v ->
  decode n (String c r) si dbuf dst =
    if (List.length (dbuf ++ [v]) =? 4)%nat
    then decode n r (si + 1) [] (dst ++ quantum_bytes (dbuf ++ [v]))
    else decode n r (si + 1) (dbuf ++ [v]) dst.
Proof. intro H. cbn [decode]. now rewrite H. Qed.

Lemma decode_padding_2 n si d0 d1 dst :
  decode n (String padChar (String padChar EmptyString)) si [d0; d1] dst =
    (dst ++ quantum_bytes [d0; d1], None).
Proof. reflexivity. Qed.

Lemma decode_padding_1 n si d0 d1 d2 dst :
  decode n (String padChar EmptyString) si [d0; d1; d2] dst =
    (dst ++ quantum_bytes [d0; d1; d2], None).
Proof. reflexivity. Qed.

Ltac decode_sextet :=
  rewrite (decode_alphabet _ _ _ _ _ _ _ (decodeMap_sextet _ _));
  cbn [app List.length Nat.eqb].

(** Decoding what [EncodeToString] produced gives back the bytes. *)
Lemma decode_EncodeToString (src : list byte) :
  forall n si dst,
    decode n (EncodeToString src) si [] dst = (dst ++ src, None).
Proof.
  induction src as [|a|a b|a b c src IH] using list_ind3; intros n si dst.
  - cbn. now rewrite app_nil_r.
  - cbn [EncodeToString]. do 2 decode_sextet.
    rewrite decode_padding_2, (quantum_bytes_1 a). reflexivity.
  - cbn [EncodeToString]. do 3 decode_sextet.
    rewrite decode_padding_1, (quantum_bytes_2 a b). reflexivity.
  - cbn [EncodeToString]. do 4 decode_sextet.
    rewrite (quantum_bytes_3 a b c), IH, <- app_assoc. reflexivity.
Qed.

Lemma DecodeString_EncodeToString (src : list byte) :
  DecodeString (EncodeToString src) = (src, None).
Proof. unfold DecodeString. apply decode_EncodeToString. Qed.

Lemma EncodeToString_nonempty (src : list byte) :
  src <> [] -> EncodeToString src <> EmptyString.
Proof. destruct src as [|a [|b [|c l]]]; [congruence | discriminate ..]. Qed.

(** *** The decoder accepts exactly the well-formed texts *)

Lemma alphabet_not_newline c : in_alphabet c = true -> is_newline c = false.
Proof.
  unfold is_newline. intro H.
  destruct (Ascii.eqb_spec c "010"%char) as [-> | _]; [discriminate H|].
  destruct (Ascii.eqb_spec c "013"%char) as [-> | _]; [discriminate H|].
  reflexivity.
Qed.

Lemma skip_newlines_strip s si :
  strip_newlines (fst (skip_newlines s si)) = strip_newlines s.
Proof.
  revert si. induction s as [|c r IH]; intro si; cbn [skip_newlines strip_newlines].
  - reflexivity.
  - destruct (is_newline c) eqn:E.
    + apply IH.
    + cbn [fst strip_newlines]. now rewrite E.
Qed.

Lemma skip_newlines_head s si c r si' :
  skip_newlines s si = (String c r, si') -> is_newline c = false.
Proof.
  revert si. induction s as [|c0 r0 IH]; intro si; cbn [skip_newlines].
  - discriminate.
  - destruct (is_newline c0) eqn:E.
    + apply IH.
    + intros [= <- <- <-]. exact E.
Qed.

Lemma after_padding_ok s si :
  after_padding s si = None <-> strip_newlines s = EmptyString.
Proof.
  unfold after_padding. rewrite <- (skip_newlines_strip s si).
  destruct (skip_newlines s si) as [s' si'] eqn:E. cbn [fst].
  destruct s' as [|c r].
  - cbn. tauto.
  - cbn [strip_newlines]. rewrite (skip_newlines_head _ _ _ _ _ E).
    split; discriminate.
Qed.

Lemma is_empty_true s : is_empty s = true <-> s = EmptyString.
Proof. destruct s; cbn; split; congruence. Qed.

(** A character of the alphabet can stand for any other in [well_formed]. *)
Lemma well_formed_1 a t :
  in_alphabet a = true ->
  well_formed (String a t) = well_formed (String "A" t).
Proof. intro H. destruct t as [|b [|c [|d r]]]; cbn; now rewrite ?H. Qed.

Lemma well_formed_2 b t :
  in_alphabet b = true ->
  well_formed (String "A" (String b t)) = well_formed (String "A" (String "A" t)).
Proof. intro H. destruct t as [|c [|d r]]; cbn; now rewrite ?H. Qed.

Lemma well_formed_3 c t :
  in_alphabet c = true ->
  well_formed (String "A" (String "A" (String c t)))
  = well_formed (String "A" (String "A" (String "A" t))).
Proof. intro H. destruct t as [|d r]; cbn; now rewrite ?H. Qed.

Lemma well_formed_4 d t :
  in_alphabet d = true ->
  well_formed (String "A" (String "A" (String "A" (String d t)))) = well_formed t.
Proof. intro H. cbn. now rewrite H. Qed.

(** The decoder, with 0 to 3 characters of a quantum already read, accepts
    the rest of the input exactly when that many alphabet characters
    followed by the rest, newlines removed, are well formed. *)
Lemma decode_accepts s :
  (forall n si dst,
      accepted (decode n s si [] dst)
      <-> well_formed (strip_newlines s) = true)
  /\ (forall n si dst d0,
      accepted (decode n s si [d0] dst)
      <-> well_formed (String "A" (strip_newlines s)) = true)
  /\ (forall n si dst d0 d1,
      accepted (decode n s si [d0; d1] dst)
      <-> well_formed (String "A" (String "A" (strip_newlines s))) = true)
  /\ (forall n si dst d0 d1 d2,
      accepted (decode n s si [d0; d1; d2] dst)
      <-> well_formed (String "A" (String "A" (String "A" (strip_newlines s)))) = true).
Proof.
  induction s as [|c r (IH0 & IH1 & IH2 & IH3)].
  - unfold accepted. cbn.
    split; [|split; [|split]]; intros; split; intro; try discriminate; reflexivity.
  - assert (forall n si dbuf dst, is_newline c = true ->
              decode n (String c r) si dbuf dst = decode n r (si + 1) dbuf dst) as Hnl.
    { intros n si dbuf dst E. cbn [decode].
      destruct (decodeMap c) eqn:D; [|now rewrite E].
      assert (in_alphabet c = true) as A by (unfold in_alphabet; now rewrite D).
      apply alphabet_not_newline in A. congruence. }
    destruct (is_newline c) eqn:Enl.
    { cbn [strip_newlines]. rewrite Enl.
      split; [|split; [|split]]; intros; rewrite Hnl by reflexivity;
        first [apply IH0 | apply IH1 | apply IH2 | apply IH3]. }
    cbn [strip_newlines]. rewrite Enl.
    destruct (decodeMap c) as [v|] eqn:D.
    { assert (in_alphabet c = true) as A by (unfold in_alphabet; now rewrite D).
      split; [|split; [|split]]; intros;
        rewrite (decode_alphabet _ _ _ _ _ _ _ D); cbn [app List.length Nat.eqb].
      - rewrite well_formed_1 by exact A. apply IH1.
      - rewrite well_formed_2 by exact A. apply IH2.
      - rewrite well_formed_3 by exact A. apply IH3.
      - rewrite well_formed_4 by exact A. apply IH0. }
    assert (in_alphabet c = false) as A by (unfold in_alphabet; now rewrite D).
    assert (forall n si dbuf dst,
              decode n (String c r) si dbuf dst =
              if negb (Ascii.eqb c padChar) then (dst, Some (CorruptInputError si))
              else
                match dbuf with
                | [] | [_] => (dst, Some (CorruptInputError si))
                | [_; _] =>
                    let '(r', si') := skip_newlines r (si + 1) in
                    match r' with
                    | EmptyString => (dst, Some (CorruptInputError n))
                    | String c' r'' =>
                        if negb (Ascii.eqb c' padChar)
                        then (dst, Some (CorruptInputError (si' - 1)))
                        else (dst ++ quantum_bytes dbuf, after_padding r'' (si' + 1))
                    end
                | _ => (dst ++ quantum_bytes dbuf, after_padding r (si + 1))
                end) as Hstep.
    { intros. cbn [decode]. now rewrite D, Enl. }
    unfold accepted.
    destruct (Ascii.eqb c padChar) eqn:Epad.
    2:{ split; [|split; [|split]]; intros; rewrite Hstep; cbn [negb snd];
          (split; [discriminate|]);
          destruct (strip_newlines r) as [|x [|y [|z t]]]; cbn;
          rewrite ?A, ?Epad; cbn; discriminate. }
    split; [|split; [|split]]; intros; rewrite Hstep; cbn [negb].
    + cbn [snd]. split; [discriminate|].
      destruct (strip_newlines r) as [|x [|y [|z t]]]; cbn; rewrite ?A; discriminate.
    + cbn [snd]. split; [discriminate|].
      destruct (strip_newlines r) as [|y [|z t]]; cbn; rewrite ?A; discriminate.
    + rewrite <- (skip_newlines_strip r (si + 1)).
      destruct (skip_newlines r (si + 1)) as [r' si'] eqn:E. cbn [fst].
      destruct r' as [|c' r''].
      * cbn. split; discriminate.
      * pose proof (skip_newlines_head _ _ _ _ _ E) as Hc'.
        cbn [strip_newlines]. rewrite Hc'.
        cbn [well_formed]. rewrite A, Epad.
        change (in_alphabet "A"%char) with true. cbn [andb].
        destruct (Ascii.eqb c' padChar); cbn [negb snd andb].
        -- rewrite after_padding_ok, is_empty_true. tauto.
        -- split; discriminate.
    + cbn [snd well_formed]. rewrite A, Epad.
      change (in_alphabet "A"%char) with true. cbn [andb].
      rewrite after_padding_ok, is_empty_true. tauto.
Qed.

(** [DecodeString] succeeds exactly on valid standard base64 text. *)
Lemma DecodeString_ok_iff (s : string) :
  snd (DecodeString s) = None <-> valid_std_base64 s = true.
Proof. unfold DecodeString, valid_std_base64. apply (decode_accepts s). Qed.

End base64_facts.

(** C9 (amended).  Audio data round-trips through base64 for every
    non-empty byte sequence: a result whose [AudioData] is the standard
    base64 encoding of a non-empty [b] yields exactly [b] with a nil error
    from [GetAudioBytes].  [GetAudioBytes] fails exactly when [AudioData] is
    the empty string or, carriage returns and line feeds aside, is not
    padded standard base64 text. *)
Theorem GetAudioBytes_round_trip
    (b : list Byte.byte) (r r' : AudioOverviewResult) :
  b <> [] ->
  AudioData r = base64.EncodeToString b ->
  GetAudioBytes r = (b, None)
  /\ (snd (GetAudioBytes r') <> None
      <-> AudioData r' = "" \/ base64.valid_std_base64 (AudioData r') = false).
Proof.
  intros Hb Hr. split.
  - unfold GetAudioBytes. rewrite Hr.
    destruct (String.eqb_spec (base64.EncodeToString b) "") as [E|_].
    + now apply base64_facts.EncodeToString_nonempty in E.
    + apply base64_facts.DecodeString_EncodeToString.
  - unfold GetAudioBytes.
    destruct (String.eqb_spec (AudioData r') "") as [E|E].
    + cbn. split; [now left | discriminate].
    + pose proof (base64_facts.DecodeString_ok_iff (AudioData r')) as V.
      destruct (base64.valid_std_base64 (AudioData r')).
      * split; [intro H; exfalso; apply H; now apply V | intros [H|H]; congruence].
      * split; [now right|]. intros _ H. apply V in H. discriminate.
Qed.

Lemma GetAudioBytes_round_trip_witness :
  GetAudioBytes {| ProjectID := "notebook-1"; AudioID := "audio-1";
                   Title := "Overview"; AudioData := "//79AAE="; IsReady := true |}
  = ([Byte.xff; Byte.xfe; Byte.xfd; Byte.x00; Byte.x01], None)
  /\ (snd (GetAudioBytes (set_AudioData "QUJDR" zeroAudioOverviewResult)) <> None
      <-> AudioData (set_AudioData "QUJDR" zeroAudioOverviewResult) = ""
          \/ base64.valid_std_base64
               (AudioData (set_AudioData "QUJDR" zeroAudioOverviewResult)) = false).
Proof.
  apply (GetAudioBytes_round_trip
           [Byte.xff; Byte.xfe; Byte.xfd; Byte.x00; Byte.x01]).
  - discriminate.
  - reflexivity.
Defined.

(** C9, as stated, fails.  The empty byte sequence encodes to the empty
    string, on which [GetAudioBytes] reports "no audio data available"
    instead of returning the empty sequence; and the text "QUJD" followed by
    a line feed, which is not text over the base64 alphabet, is decoded
    without error. *)
Lemma GetAudioBytes_empty_and_newline :
  GetAudioBytes (set_AudioData (base64.EncodeToString []) zeroAudioOverviewResult)
  = ([], Some (Errorf "no audio data available" []))
  /\ base64.well_formed (String "Q" (String "U" (String "J" (String "D"
                           (String "010" EmptyString))))) = false
  /\ GetAudioBytes (set_AudioData
                      (String "Q" (String "U" (String "J" (String "D"
                         (String "010" EmptyString)))))
                      zeroAudioOverviewResult)
     = ([Byte.x41; Byte.x42; Byte.x43], None).
Proof. repeat split. Qed.

(** ** De-chunking *)

Module Framing_facts.

Import Framing.

Local Open Scope nat_scope.

Lemma append_assoc (a b c : string) : ((a ++ b) ++ c = a ++ (b ++ c))%string.
Proof. induction a; cbn; congruence. Qed.

Lemma length_append (a b : string) :
  String.length (a ++ b) = String.length a + String.length b.
Proof. induction a; cbn; congruence. Qed.

Lemma read_line_length s line rest :
  read_line s = Some (line, rest) ->
  String.length s = S (String.length line + String.length rest).
Proof.
  revert line rest. induction s as [|c r IH]; intros line rest; cbn [read_line].
  - discriminate.
  - destruct (Ascii.eqb c newline).
    + intros [= <- <-]. reflexivity.
    + destruct (read_line r) as [[l k]|]; [|discriminate].
      intros [= <- <-]. cbn. now rewrite (IH l k eq_refl).
Qed.

Lemma read_exactly_length n s p rest :
  read_exactly n s = Some (p, rest) ->
  String.length s = n + String.length rest /\ String.length p = n.
Proof.
  revert s p rest. induction n as [|n IH]; intros s p rest; cbn [read_exactly].
  - intros [= <- <-]. split; reflexivity.
  - destruct s as [|c r]; [discriminate|].
    destruct (read_exactly n r) as [[q k]|] eqn:E; [|discriminate].
    intros [= <- <-]. destruct (IH _ _ _ E) as [H1 H2]. cbn. lia.
Qed.

Lemma read_exactly_app p s : read_exactly (String.length p) (p ++ s) = Some (p, s).
Proof. induction p as [|c p IH]; cbn; [reflexivity | now rewrite IH]. Qed.

Lemma read_exactly_short n s : String.length s < n -> read_exactly n s = None.
Proof.
  revert s. induction n as [|n IH]; intros s H; [lia|].
  destruct s as [|c r]; cbn; [reflexivity|].
  cbn in H. rewrite IH by lia. reflexivity.
Qed.

Lemma read_line_no_newline line rest :
  no_newline line = true ->
  read_line (line ++ String newline rest) = Some (line, rest).
Proof.
  induction line as [|c r IH]; cbn.
  - reflexivity.
  - intro H. apply andb_prop in H as [H1 H2].
    apply negb_true_iff in H1. now rewrite H1, IH.
Qed.

Lemma read_line_none s : no_newline s = true -> read_line s = None.
Proof.
  induction s as [|c r IH]; cbn; [reflexivity|].
  intro H. apply andb_prop in H as [H1 H2].
  apply negb_true_iff in H1. now rewrite H1, IH.
Qed.

(** *** Fuel *)

Lemma dechunk_loop_fuel fuel1 :
  forall fuel2 s,
    String.length s < fuel1 -> String.length s < fuel2 ->
    dechunk_loop fuel1 s = dechunk_loop fuel2 s.
Proof.
  induction fuel1 as [|fuel1 IH]; intros fuel2 s H1 H2; [lia|].
  destruct fuel2 as [|fuel2]; [lia|].
  cbn [dechunk_loop]. destruct s as [|c r]; [reflexivity|].
  destruct (read_line (String c r)) as [[line rest]|] eqn:E; [|reflexivity].
  apply read_line_length in E.
  destruct line as [|l0 line].
  - apply IH; cbn in *; lia.
  - destruct (parse_length (String l0 line)) as [n|]; [|reflexivity].
    destruct (read_exactly n rest) as [[payload rest']|] eqn:E'; [|reflexivity].
    apply read_exactly_length in E' as [E' _].
    rewrite (IH fuel2 rest') by (cbn in *; lia). reflexivity.
Qed.

(** One unit of fuel per byte of the stream, and one more, are enough. *)
Lemma dechunk_loop_enough fuel s :
  String.length s < fuel -> dechunk_loop fuel s <> None.
Proof.
  revert s. induction fuel as [|fuel IH]; intros s H; [lia|].
  cbn [dechunk_loop]. destruct s as [|c r]; [discriminate|].
  destruct (read_line (String c r)) as [[line rest]|] eqn:E; [|discriminate].
  apply read_line_length in E.
  destruct line as [|l0 line].
  - apply IH. cbn in *. lia.
  - destruct (parse_length (String l0 line)) as [n|]; [|discriminate].
    destruct (read_exactly n rest) as [[payload rest']|] eqn:E'; [|discriminate].
    apply read_exactly_length in E' as [E' _].
    specialize (IH rest'). 
    destruct (dechunk_loop fuel rest') as [[e|frames]|]; try discriminate.
    exfalso. apply IH; [cbn in *; lia | reflexivity].
Qed.

Lemma dechunk_unfold s :
  dechunk_loop (S (String.length s)) s = Some (dechunk s).
Proof.
  unfold dechunk.
  destruct (dechunk_loop (S (String.length s)) s) eqn:E; [reflexivity|].
  exfalso. exact (dechunk_loop_enough _ _ (Nat.lt_succ_diag_r _) E).
Qed.

(** *** Length lines *)

Lemma NilEmpty_no_newline d : no_newline (NilEmpty.string_of_uint d) = true.
Proof. induction d; cbn; auto. Qed.

Lemma decimal_no_newline n : no_newline (decimal n) = true.
Proof.
  unfold decimal, NilZero.string_of_uint.
  destruct (Nat.to_uint n); try reflexivity;
    apply (NilEmpty_no_newline (_ _)).
Qed.

Lemma decimal_nonempty n : exists c r, decimal n = String c r.
Proof.
  unfold decimal, NilZero.string_of_uint.
  destruct (Nat.to_uint n); cbn; eauto.
Qed.

Lemma parse_length_decimal n : parse_length (decimal n) = Some n.
Proof.
  unfold parse_length, decimal.
  destruct (Nat.to_uint n) eqn:E.
  1: { cbn. f_equal. rewrite <- (DecimalNat.Unsigned.of_to n), E. reflexivity. }
  all: rewrite NilZero.usu by discriminate; cbn [option_map];
    now rewrite <- E, DecimalNat.Unsigned.of_to.
Qed.

(** *** The de-chunker on assembled streams *)

Lemma Some_inj {A} (x y : A) : Some x = Some y -> x = y.
Proof. congruence. Qed.

Lemma dechunk_empty : dechunk EmptyString = inr [].
Proof. reflexivity. Qed.

(** A chunk at the head of the stream becomes the first frame. *)
Lemma dechunk_chunk p s :
  dechunk (chunk p ++ s) =
    match dechunk s with
    | inr frames => inr (frame_of p :: frames)
    | inl e => inl e
    end.
Proof.
  apply Some_inj. rewrite <- dechunk_unfold.
  unfold chunk. rewrite append_assoc. cbn [append].
  pose proof (read_line_no_newline _ (p ++ s) (decimal_no_newline (String.length p)))
    as Hline.
  pose proof (parse_length_decimal (String.length p)) as Hparse.
  destruct (decimal_nonempty (String.length p)) as (c & r & E). rewrite E in *.
  cbn [dechunk_loop append]. cbn [append] in Hline. rewrite Hline, Hparse.
  rewrite read_exactly_app.
  rewrite (dechunk_loop_fuel _ (S (String.length s)) s), dechunk_unfold.
  - destruct (dechunk s); reflexivity.
  - cbn. rewrite !length_append. cbn. rewrite length_append. lia.
  - lia.
Qed.

Lemma dechunk_assemble payloads s :
  dechunk (assemble payloads ++ s) =
    match dechunk s with
    | inr frames => inr (map frame_of payloads ++ frames)
    | inl e => inl e
    end.
Proof.
  induction payloads as [|p ps IH]; cbn [assemble map app append].
  - destruct (dechunk s); reflexivity.
  - rewrite append_assoc, dechunk_chunk, IH. destruct (dechunk s); reflexivity.
Qed.

(** Two ways of cutting the same string in two. *)
Lemma append_split (x y cut tail : string) :
  (x ++ y = cut ++ tail)%string ->
  (exists m, x = cut ++ m /\ tail = m ++ y)%string
  \/ (exists m, cut = x ++ m /\ y = m ++ tail)%string.
Proof.
  revert cut. induction x as [|c x IH]; intros cut H.
  - right. exists cut. split; [reflexivity | exact H].
  - destruct cut as [|c' cut].
    + left. exists (String c x). split; [reflexivity | cbn in *; congruence].
    + cbn in H. injection H as -> H.
      destruct (IH cut H) as [(m & -> & ->) | (m & -> & ->)].
      * left. exists m. split; reflexivity.
      * right. exists m. split; reflexivity.
Qed.

Lemma no_newline_prefix (a b : string) :
  no_newline (a ++ b) = true -> no_newline a = true.
Proof.
  induction a as [|c a IH]; cbn; [reflexivity|].
  intro H. apply andb_prop in H as [H1 H2]. now rewrite H1, IH.
Qed.

(** A stream that ends inside a line is a framing error. *)
Lemma dechunk_mid_line s :
  s <> EmptyString -> no_newline s = true -> dechunk s = inl (MidLine s).
Proof.
  intros Hs Hn. apply Some_inj. rewrite <- dechunk_unfold.
  destruct s as [|c r]; [congruence|].
  cbn [dechunk_loop]. now rewrite (read_line_none _ Hn).
Qed.

(** A stream cut inside its only chunk is a framing error. *)
Lemma dechunk_cut p cut tail :
  (chunk p = cut ++ tail)%string -> cut <> EmptyString -> tail <> EmptyString ->
  exists e, dechunk cut = inl e.
Proof.
  intros H Hcut Htail. unfold chunk in H.
  pose proof (decimal_no_newline (String.length p)) as Hn.
  destruct (append_split _ _ _ _ H) as [(m & E1 & E2) | (m & E1 & E2)].
  - exists (MidLine cut). apply dechunk_mid_line; [exact Hcut|].
    rewrite E1 in Hn. exact (no_newline_prefix _ _ Hn).
  - destruct m as [|c q].
    + rewrite append_empty_r in E1. subst cut.
      exists (MidLine (decimal (String.length p))).
      now apply dechunk_mid_line.
    + cbn in E2. injection E2 as <- E2.
      exists (MidChunk (String.length p) (String.length q)).
      apply Some_inj. rewrite <- dechunk_unfold. subst cut.
      pose proof (read_line_no_newline _ q Hn) as Hline.
      pose proof (parse_length_decimal (String.length p)) as Hparse.
      destruct (decimal_nonempty (String.length p)) as (c & r & E).
      rewrite E in *. cbn [dechunk_loop append]. cbn [append] in Hline.
      rewrite Hline, Hparse, read_exactly_short; [reflexivity|].
      rewrite E2, length_append.
      destruct tail; [congruence | cbn; lia].
Qed.

(** A length line that is not a decimal number is a framing error. *)
Lemma dechunk_bad_length line rest :
  line <> EmptyString -> no_newline line = true -> parse_length line = None ->
  dechunk (line ++ String newline rest) = inl (BadLength line).
Proof.
  intros Hline Hn Hparse. apply Some_inj. rewrite <- dechunk_unfold.
  pose proof (read_line_no_newline _ rest Hn) as Hread.
  destruct line as [|c r]; [congruence|].
  cbn [dechunk_loop append]. cbn [append] in Hread.
  now rewrite Hread, Hparse.
Qed.

End Framing_facts.

(** C7.  For every sequence of payloads assembled as [<len>\n<payload>]
    blocks, the de-chunker returns one frame per payload, in order, each
    with its declared length, so the concatenation of the frames' payloads
    is the concatenation of the original payloads.  A stream that ends
    mid-chunk (the assembled stream followed by a non-empty proper prefix
    [cut] of a further chunk) is a [FramingError], and so is a stream whose
    next length line (non-empty, not a decimal number) cannot be parsed;
    no frames are returned with an error. *)
Theorem dechunk_round_trip
    (payloads : list string) (p cut tail line rest : string) :
  (Framing.chunk p = cut ++ tail)%string ->
  cut <> EmptyString ->
  tail <> EmptyString ->
  line <> EmptyString ->
  Framing.no_newline line = true ->
  Framing.parse_length line = None ->
  Framing.dechunk (Framing.assemble payloads)
    = inr (map Framing.frame_of payloads)
  /\ Framing.payload_concat (map Framing.frame_of payloads)
     = String.concat EmptyString payloads
  /\ (exists e, Framing.dechunk (Framing.assemble payloads ++ cut) = inl e)
  /\ Framing.dechunk (Framing.assemble payloads
                        ++ line ++ String Framing.newline rest)
     = inl (Framing.BadLength line).
Proof.
  intros Hchunk Hcut Htail Hline Hn Hparse. repeat split.
  - rewrite <- (append_empty_r (Framing.assemble payloads)).
    rewrite Framing_facts.dechunk_assemble, Framing_facts.dechunk_empty.
    now rewrite app_nil_r.
  - unfold Framing.payload_concat. rewrite map_map. cbn [Framing.frame_of Framing.Payload].
    now rewrite map_id.
  - rewrite Framing_facts.dechunk_assemble.
    destruct (Framing_facts.dechunk_cut p cut tail Hchunk Hcut Htail) as [e ->].
    eauto.
  - rewrite Framing_facts.dechunk_assemble.
    now rewrite (Framing_facts.dechunk_bad_length line rest Hline Hn Hparse).
Qed.

Lemma dechunk_round_trip_witness :
  Framing.dechunk (Framing.assemble ["abc"; ""; "hello world!"])
    = inr [ {| Framing.DeclaredLength := 3; Framing.Payload := "abc" |};
            {| Framing.DeclaredLength := 0; Framing.Payload := "" |};
            {| Framing.DeclaredLength := 12; Framing.Payload := "hello world!" |} ]
  /\ Framing.payload_concat (map Framing.frame_of ["abc"; ""; "hello world!"])
     = "abchello world!"
  /\ (exists e,
        Framing.dechunk (Framing.assemble ["abc"; ""; "hello world!"]
                           ++ String "5" (String Framing.newline "wor")) = inl e)
  /\ Framing.dechunk (Framing.assemble ["abc"; ""; "hello world!"]
                        ++ "0x1f" ++ String Framing.newline "rest")
     = inl (Framing.BadLength "0x1f").
Proof.
  apply (dechunk_round_trip ["abc"; ""; "hello world!"] "world"
           (String "5" (String Framing.newline "wor")) "ld" "0x1f" "rest").
  - reflexivity.
  - discriminate.
  - discriminate.
  - discriminate.
  - reflexivity.
  - reflexivity.
Defined.

(** * Further properties *)

(** ** Indexing and running, continued *)

Lemma len_nonneg {A} (l : list A) : 0 <= len l.
Proof. unfold len. lia. Qed.

Lemma len_cons {A} (x : A) (l : list A) : len (x :: l) = len l + 1.
Proof. unfold len. cbn [List.length]. lia. Qed.

Lemma len_zero {A} (l : list A) : len l = 0 -> l = [].
Proof. destruct l; [reflexivity|]. rewrite len_cons. pose proof (len_nonneg l). lia. Qed.

(** What is left to show of an outcome: it is the given pair, and the
    stated facts hold of it. *)
Ltac outcome := eexists; split; [reflexivity|]; cbn [fst snd].

(** ** Audio overviews, continued *)

(** X1.  [GetAudioOverview] decodes the wire format its comment documents.
    When element 2 of the payload is an array with strings at indices 1, 2
    and 3 and a boolean at index 5, the result carries the project ID that
    was asked for, the audio data of index 1, the audio ID of index 2, the
    title of index 3 and the ready flag of index 5, with a nil error; the
    elements at indices 0 and 4 and those after index 5 are not read. *)
Theorem GetAudioOverview_decodes_fields
    (c : Client) (projectID : string) (w : World) (resp : RawMessage)
    (data rest : list any) (x0 x4 : any) (audio id title : string) (ready : bool) :
  answer_Do (server w) (trace w) (getAudioOverviewCall projectID) = (resp, None) ->
  json.Unmarshal resp = (data, None) ->
  index data 2 = Some (Slice (x0 :: Str audio :: Str id :: Str title :: x4
                                :: Bool ready :: rest)) ->
  result_of (GetAudioOverview c projectID w) =
    Returns (Some {| ProjectID := projectID; AudioID := id; Title := title;
                     AudioData := audio; IsReady := ready |}, None).
Proof.
  intros Hrpc Hjson H2.
  rewrite (GetAudioOverview_audio c projectID w resp data _ (Str audio) (Str id)
             (Str title) Hrpc Hjson H2) by reflexivity.
  cbv zeta.
  replace (5 <? len (x0 :: Str audio :: Str id :: Str title :: x4 :: Bool ready :: rest))
    with true by (symmetry; apply Z.ltb_lt; rewrite !len_cons; pose proof (len_nonneg rest); lia).
  reflexivity.
Qed.

Lemma GetAudioOverview_decodes_fields_witness :
  result_of (GetAudioOverview quiet_client "notebook-1"
               (fresh_world (constant_server audio_payload_full))) =
    Returns (Some {| ProjectID := "notebook-1"; AudioID := "audio-1";
                     Title := "Overview"; AudioData := "QUJD"; IsReady := true |}, None).
Proof.
  eapply (GetAudioOverview_decodes_fields quiet_client "notebook-1").
  - reflexivity.
  - vm_compute. reflexivity.
  - reflexivity.
Defined.

(** X2.  [GetAudioOverview] never panics and issues exactly one request,
    whatever the server answers.  Its error is nil exactly when the
    transport reported none, the payload decodes as a JSON array without
    error and element 2 of the payload, if there is one, is an array of at
    least four elements.  The result is nil exactly when the error is
    not. *)
Theorem GetAudioOverview_fails_exactly_when
    (c : Client) (projectID : string) (w : World) (resp : RawMessage)
    (err jerr : error) (data : list any) :
  answer_Do (server w) (trace w) (getAudioOverviewCall projectID) = (resp, err) ->
  json.Unmarshal resp = (data, jerr) ->
  exists res,
    GetAudioOverview c projectID w
      = (Returns res, with_trace w (trace w ++ [Do (getAudioOverviewCall projectID)]))
    /\ (snd res = None <-> err = None /\ jerr = None /\ audio_array_ok data = true)
    /\ (fst res = None <-> snd res <> None).
Proof.
  intros Hrpc Hjson.
  unfold GetAudioOverview, audio_array_ok, getAudioOverviewCall in *. run.
  rewrite Hrpc. destruct err as [e|].
  { outcome. intuition congruence. }
  rewrite Hjson. destruct jerr as [e|].
  { outcome. intuition congruence. }
  destruct (len data =? 0) eqn:E0.
  { apply Z.eqb_eq, len_zero in E0. subst data. outcome. cbn. intuition congruence. }
  destruct (2 <? len data) eqn:E2.
  2:{ apply Z.ltb_ge in E2. rewrite (index_out_of_range data 2) by lia.
      outcome. intuition congruence. }
  apply Z.ltb_lt in E2.
  destruct (index_in_range data 2) as [d2 H2]; [lia|]. rewrite H2. run.
  destruct d2 as [| | | | |audioData| | | | |]; run;
    try (outcome; intuition congruence).
  rewrite (Z.leb_antisym (len audioData) 4).
  destruct (len audioData <? 4) eqn:E4.
  { outcome. cbn. intuition congruence. }
  apply Z.ltb_ge in E4.
  destruct (index_in_range audioData 1) as [a1 H1]; [lia|].
  destruct (index_in_range audioData 2) as [a2 H2']; [lia|].
  destruct (index_in_range audioData 3) as [a3 H3]; [lia|].
  rewrite H1, H2', H3. run.
  destruct (5 <? len audioData) eqn:E5.
  - apply Z.ltb_lt in E5.
    destruct (index_in_range audioData 5) as [a5 H5]; [lia|]. rewrite H5.
    outcome. cbn. intuition congruence.
  - outcome. cbn. intuition congruence.
Qed.

Lemma GetAudioOverview_fails_exactly_when_witness :
  exists res,
    GetAudioOverview quiet_client "notebook-1"
      (fresh_world (constant_server "[null,null,true]"))
      = (Returns res,
         with_trace (fresh_world (constant_server "[null,null,true]"))
           [Do (getAudioOverviewCall "notebook-1")])
    /\ snd res <> None
    /\ fst res = None.
Proof.
  destruct (GetAudioOverview_fails_exactly_when quiet_client "notebook-1"
              (fresh_world (constant_server "[null,null,true]"))
              "[null,null,true]" None None [Nil; Nil; Bool true])
    as (res & Hrun & Herr & Hnil).
  - reflexivity.
  - vm_compute. reflexivity.
  - exists res. split; [exact Hrun|].
    assert (snd res <> None) as H.
    { intro E. apply Herr in E. destruct E as (_ & _ & E). discriminate E. }
    split; [exact H | now apply Hnil].
Defined.

(** X3.  Given a non-empty project ID and non-empty instructions,
    [CreateAudioOverview] never panics and issues exactly one request.  Its
    error is nil exactly when the transport reported none and the payload
    decodes as a JSON array without error: no shape of the decoded payload
    is an error.  The result is nil exactly when the error is not, and a
    result always carries the project ID that was asked for. *)
Theorem CreateAudioOverview_fails_exactly_when
    (c : Client) (projectID instructions : string) (w : World) (resp : RawMessage)
    (err jerr : error) (data : list any) :
  projectID <> "" ->
  instructions <> "" ->
  answer_Do (server w) (trace w) (createAudioOverviewCall projectID instructions)
    = (resp, err) ->
  json.Unmarshal resp = (data, jerr) ->
  exists res,
    CreateAudioOverview c projectID instructions w
      = (Returns res,
         with_trace w (trace w ++ [Do (createAudioOverviewCall projectID instructions)]))
    /\ (snd res = None <-> err = None /\ jerr = None)
    /\ (fst res = None <-> snd res <> None)
    /\ (forall r, fst res = Some r -> ProjectID r = projectID).
Proof.
  intros Hp Hi Hrpc Hjson.
  apply String.eqb_neq in Hp. apply String.eqb_neq in Hi.
  unfold CreateAudioOverview, createAudioOverviewCall in *. rewrite Hp, Hi. run.
  rewrite Hrpc. destruct err as [e|].
  { outcome. intuition congruence. }
  rewrite Hjson. destruct jerr as [e|].
  { outcome. intuition congruence. }
  assert (forall r0 : AudioOverviewResult,
             ProjectID r0 = projectID ->
             ((@None errorValue = None <-> @None errorValue = None /\ @None errorValue = None)
              /\ (Some r0 = None <-> @None errorValue <> None)
              /\ (forall r, Some r0 = Some r -> ProjectID r = projectID))) as Fin.
  { intros r0 H0. repeat split; congruence. }
  assert (forall (v : option string) set r,
             (forall s x, ProjectID (set s x) = ProjectID x) ->
             ProjectID (assign v set r) = ProjectID r) as Keep.
  { intros v set r H. destruct v; cbn; auto. }
  assert (forall (v : option bool) r,
             ProjectID (assign v set_IsReady r) = ProjectID r) as Keep'.
  { intros v r. destruct v; reflexivity. }
  destruct (len data =? 0) eqn:E0.
  { outcome. apply Fin. reflexivity. }
  destruct (2 <? len data) eqn:E2.
  2:{ outcome. apply Fin. reflexivity. }
  apply Z.ltb_lt in E2.
  destruct (index_in_range data 2) as [d2 H2]; [lia|]. rewrite H2. run.
  destruct d2 as [| | | | |audioData| | | | |]; run;
    try (outcome; apply Fin; reflexivity).
  destruct (len audioData <? 4) eqn:E4.
  { outcome. apply Fin. reflexivity. }
  apply Z.ltb_ge in E4.
  destruct (index_in_range audioData 1) as [a1 H1]; [lia|].
  destruct (index_in_range audioData 2) as [a2 H2']; [lia|].
  destruct (index_in_range audioData 3) as [a3 H3]; [lia|].
  rewrite H1, H2', H3. run.
  destruct (5 <? len audioData) eqn:E5.
  - apply Z.ltb_lt in E5.
    destruct (index_in_range audioData 5) as [a5 H5]; [lia|]. rewrite H5.
    outcome. apply Fin.
    rewrite Keep', !Keep by reflexivity. reflexivity.
  - outcome. apply Fin.
    rewrite !Keep by reflexivity. reflexivity.
Qed.

Lemma CreateAudioOverview_fails_exactly_when_witness :
  exists res,
    CreateAudioOverview quiet_client "notebook-1" "be brief"
      (fresh_world (constant_server "[null,null,true]"))
      = (Returns res,
         with_trace (fresh_world (constant_server "[null,null,true]"))
           [Do (createAudioOverviewCall "notebook-1" "be brief")])
    /\ snd res = None
    /\ (forall r, fst res = Some r -> ProjectID r = "notebook-1").
Proof.
  destruct (CreateAudioOverview_fails_exactly_when quiet_client "notebook-1" "be brief"
              (fresh_world (constant_server "[null,null,true]"))
              "[null,null,true]" None None [Nil; Nil; Bool true])
    as (res & Hrun & Herr & _ & Hid).
  - discriminate.
  - discriminate.
  - reflexivity.
  - vm_compute. reflexivity.
  - exists res. split; [exact Hrun|]. split; [|exact Hid].
    apply Herr. split; reflexivity.
Defined.

(** X4.  [CreateAudioOverview] and [GetAudioOverview] decode alike.
    Answered with the same payload, one whose element 2 is absent or is an
    array of at least four elements, they return the same result. *)
Theorem CreateAudioOverview_GetAudioOverview_agree
    (c : Client) (projectID instructions : string) (w w' : World)
    (resp : RawMessage) (data : list any) :
  projectID <> "" ->
  instructions <> "" ->
  answer_Do (server w) (trace w) (createAudioOverviewCall projectID instructions)
    = (resp, None) ->
  answer_Do (server w') (trace w') (getAudioOverviewCall projectID) = (resp, None) ->
  json.Unmarshal resp = (data, None) ->
  audio_array_ok data = true ->
  result_of (CreateAudioOverview c projectID instructions w)
  = result_of (GetAudioOverview c projectID w').
Proof.
  intros Hp Hi Hrpc Hrpc' Hjson Hok.
  apply String.eqb_neq in Hp. apply String.eqb_neq in Hi.
  unfold CreateAudioOverview, GetAudioOverview, audio_array_ok,
    createAudioOverviewCall, getAudioOverviewCall in *.
  rewrite Hp, Hi. run. rewrite Hrpc, Hrpc', Hjson.
  destruct (len data =? 0); [reflexivity|].
  destruct (2 <? len data) eqn:E2; [|reflexivity].
  apply Z.ltb_lt in E2.
  destruct (index_in_range data 2) as [d2 H2]; [lia|]. rewrite H2 in *. run.
  destruct d2 as [| | | | |audioData| | | | |]; try discriminate Hok. run.
  rewrite (Z.leb_antisym (len audioData) 4) in Hok.
  destruct (len audioData <? 4) eqn:E4; [discriminate Hok|].
  apply Z.ltb_ge in E4.
  destruct (index_in_range audioData 1) as [a1 H1]; [lia|].
  destruct (index_in_range audioData 2) as [a2 H2']; [lia|].
  destruct (index_in_range audioData 3) as [a3 H3]; [lia|].
  rewrite H1, H2', H3. run.
  destruct (5 <? len audioData) eqn:E5; [|reflexivity].
  apply Z.ltb_lt in E5.
  destruct (index_in_range audioData 5) as [a5 H5]; [lia|]. rewrite H5.
  reflexivity.
Qed.

Lemma CreateAudioOverview_GetAudioOverview_agree_witness :
  result_of (CreateAudioOverview quiet_client "notebook-1" "be brief"
               (fresh_world (constant_server audio_payload_full)))
  = result_of (GetAudioOverview quiet_client "notebook-1"
                 (fresh_world (constant_server audio_payload_full))).
Proof.
  eapply (CreateAudioOverview_GetAudioOverview_agree quiet_client
            "notebook-1" "be brief").
  - discriminate.
  - discriminate.
  - reflexivity.
  - reflexivity.
  - vm_compute. reflexivity.
  - reflexivity.
Defined.

(** X5.  The audio bytes survive the way from the payload to the caller.
    When index 1 of the audio array holds the standard base64 encoding of a
    non-empty byte sequence [b], [GetAudioOverview] returns a result on which
    [GetAudioBytes] yields exactly [b] with a nil error. *)
Theorem GetAudioOverview_then_GetAudioBytes
    (c : Client) (projectID : string) (w : World) (resp : RawMessage)
    (data audioData : list any) (b : list Byte.byte) :
  answer_Do (server w) (trace w) (getAudioOverviewCall projectID) = (resp, None) ->
  json.Unmarshal resp = (data, None) ->
  index data 2 = Some (Slice audioData) ->
  4 <= len audioData ->
  index audioData 1 = Some (Str (base64.EncodeToString b)) ->
  b <> [] ->
  exists r,
    result_of (GetAudioOverview c projectID w) = Returns (Some r, None)
    /\ GetAudioBytes r = (b, None).
Proof.
  intros Hrpc Hjson H2 Hlen H1 Hb.
  destruct (index_in_range audioData 2) as [a2 H2']; [lia|].
  destruct (index_in_range audioData 3) as [a3 H3]; [lia|].
  rewrite (GetAudioOverview_audio c projectID w resp data audioData _ a2 a3
             Hrpc Hjson H2 H1 H2' H3).
  cbv zeta. eexists. split; [reflexivity|].
  unfold GetAudioBytes.
  match goal with
  | |- context [AudioData ?r] =>
      assert (AudioData r = base64.EncodeToString b) as ->
  end.
  { destruct (5 <? len audioData), (index audioData 5) as [a5|],
      (as_string a2), (as_string a3); try destruct (as_bool a5); reflexivity. }
  destruct (String.eqb_spec (base64.EncodeToString b) "") as [E|_].
  - now apply base64_facts.EncodeToString_nonempty in E.
  - apply base64_facts.DecodeString_EncodeToString.
Qed.

Lemma GetAudioOverview_then_GetAudioBytes_witness :
  exists r,
    result_of (GetAudioOverview quiet_client "notebook-1"
                 (fresh_world (constant_server audio_payload_full)))
    = Returns (Some r, None)
    /\ GetAudioBytes r = ([Byte.x41; Byte.x42; Byte.x43], None).
Proof.
  eapply (GetAudioOverview_then_GetAudioBytes quiet_client "notebook-1").
  - reflexivity.
  - vm_compute. reflexivity.
  - reflexivity.
  - unfold len; simpl; lia.
  - reflexivity.
  - discriminate.
Defined.

(** ** Sharing, continued *)

(** X6.  [ShareAudio] never panics and issues exactly one request.  Its
    error is nil exactly when the transport reported none and the payload
    decodes as a JSON array without error; the result is nil exactly when
    the error is not.  [IsPublic] of the result is computed from the
    argument (true exactly for [SharePublic]) and never from the reply. *)
Theorem ShareAudio_fails_exactly_when
    (c : Client) (projectID : string) (shareOption : ShareOption) (w : World)
    (resp : RawMessage) (err jerr : error) (data : list any) :
  answer_Do (server w) (trace w) (shareAudioCall projectID shareOption) = (resp, err) ->
  json.Unmarshal resp = (data, jerr) ->
  exists res,
    ShareAudio c projectID shareOption w
      = (Returns res,
         with_trace w (trace w ++ [Do (shareAudioCall projectID shareOption)]))
    /\ (snd res = None <-> err = None /\ jerr = None)
    /\ (fst res = None <-> snd res <> None)
    /\ (forall r, fst res = Some r -> IsPublic r = (shareOption =? SharePublic)).
Proof.
  intros Hrpc Hjson.
  unfold ShareAudio, shareAudioCall in *. run.
  rewrite Hrpc. destruct err as [e|].
  { outcome. intuition congruence. }
  rewrite Hjson. destruct jerr as [e|].
  { outcome. intuition congruence. }
  assert (forall r0 : ShareAudioResult,
             IsPublic r0 = (shareOption =? SharePublic) ->
             ((@None errorValue = None <-> @None errorValue = None /\ @None errorValue = None)
              /\ (Some r0 = None <-> @None errorValue <> None)
              /\ (forall r, Some r0 = Some r -> IsPublic r = (shareOption =? SharePublic))))
    as Fin.
  { intros r0 H0. repeat split; congruence. }
  destruct (0 <? len data) eqn:E0.
  2:{ outcome. apply Fin. reflexivity. }
  apply Z.ltb_lt in E0.
  destruct (index_in_range data 0) as [d0 H0]; [lia|]. rewrite H0. run.
  destruct d0 as [| | | | |shareData| | | | |]; run;
    try (outcome; apply Fin; reflexivity).
  destruct (0 <? len shareData) eqn:E0'.
  2:{ outcome. apply Fin. reflexivity. }
  apply Z.ltb_lt in E0'.
  destruct (index_in_range shareData 0) as [s0 Hs0]; [lia|]. rewrite Hs0. run.
  destruct (1 <? len shareData) eqn:E1.
  - apply Z.ltb_lt in E1.
    destruct (index_in_range shareData 1) as [s1 Hs1]; [lia|]. rewrite Hs1.
    outcome. apply Fin. destruct (as_string s0), (as_string s1); reflexivity.
  - outcome. apply Fin. destruct (as_string s0); reflexivity.
Qed.

Lemma ShareAudio_fails_exactly_when_witness :
  exists res,
    ShareAudio quiet_client "notebook-1" 2
      (fresh_world (constant_server share_payload))
      = (Returns res,
         with_trace (fresh_world (constant_server share_payload))
           [Do (shareAudioCall "notebook-1" 2)])
    /\ snd res = None
    /\ (forall r, fst res = Some r -> IsPublic r = false).
Proof.
  destruct (ShareAudio_fails_exactly_when quiet_client "notebook-1" 2
              (fresh_world (constant_server share_payload))
              share_payload None None
              [Slice [Str "https://example.com/s/1"; Str "share-1"]])
    as (res & Hrun & Herr & _ & Hpub).
  - reflexivity.
  - vm_compute. reflexivity.
  - exists res. split; [exact Hrun|]. split; [|exact Hpub].
    apply Herr. split; reflexivity.
Defined.

(** X7.  [ShareAudio] reads the share URL and the share ID from the first
    two elements of element 0 of the payload, when those are strings; what
    follows them is not read. *)
Theorem ShareAudio_decodes_fields
    (c : Client) (projectID : string) (shareOption : ShareOption) (w : World)
    (resp : RawMessage) (data rest : list any) (url id : string) :
  answer_Do (server w) (trace w) (shareAudioCall projectID shareOption) = (resp, None) ->
  json.Unmarshal resp = (data, None) ->
  index data 0 = Some (Slice (Str url :: Str id :: rest)) ->
  result_of (ShareAudio c projectID shareOption w) =
    Returns (Some {| ShareURL := url; ShareID := id;
                     IsPublic := shareOption =? SharePublic |}, None).
Proof.
  intros Hrpc Hjson H0.
  pose proof (index_some_lt _ _ _ H0) as L0.
  unfold ShareAudio, shareAudioCall in *. run.
  rewrite Hrpc, Hjson. decide_ltb. rewrite H0. run.
  rewrite !len_cons. pose proof (len_nonneg rest). decide_ltb.
  reflexivity.
Qed.

Lemma ShareAudio_decodes_fields_witness :
  result_of (ShareAudio quiet_client "notebook-1" SharePublic
               (fresh_world (constant_server share_payload))) =
    Returns (Some {| ShareURL := "https://example.com/s/1"; ShareID := "share-1";
                     IsPublic := true |}, None).
Proof.
  eapply (ShareAudio_decodes_fields quiet_client "notebook-1" SharePublic).
  - reflexivity.
  - vm_compute. reflexivity.
  - reflexivity.
Defined.

(** ** Source IDs in responses *)

Lemma guarded_cons {B} (x : any) (l : list any) (k : any -> Go B) (e : Go B) :
  (if 0 <? len (x :: l) then bind (at_ (x :: l) 0) k else e) = k x.
Proof. reflexivity. Qed.

Lemma try_formats_source_id_in (data : list any) (w : World) :
  try_formats [format1; format2; format3] data w =
    (Returns (match source_id_in data with
              | Some id => (id, None)
              | None => ("", Some (Errorf
                  "could not find source ID in response structure: %v" [Slice data]))
              end), w).
Proof.
  unfold source_id_in, id_at_depth. cbn [first_at_depth try_formats].
  unfold format1, format2, format3.
  destruct data as [|x0 r0]; [reflexivity|]. rewrite !guarded_cons.
  destruct x0 as [| | | | |d0| | | | |]; try reflexivity. cbn [as_slice].
  destruct d0 as [|x1 r1]; [reflexivity|]. rewrite !guarded_cons.
  destruct x1 as [| | | |id|d1| | | | |]; try reflexivity. cbn [as_slice].
  destruct d1 as [|x2 r2]; [reflexivity|]. rewrite !guarded_cons.
  destruct x2 as [| | | |id|d2| | | | |]; try reflexivity. cbn [as_slice].
  destruct d2 as [|x3 r3]; [reflexivity|]. rewrite !guarded_cons.
  destruct x3 as [| | | |id| | | | | |]; reflexivity.
Qed.

Lemma Unmarshal_empty : snd (json.Unmarshal "") <> None.
Proof. vm_compute. discriminate. Qed.

Lemma len_bytes_nonempty (s : string) : s <> "" -> (len_bytes s =? 0) = false.
Proof.
  intro H. destruct s; [congruence|]. apply Z.eqb_neq. unfold len_bytes.
  cbn [String.length]. lia.
Qed.

(** What [extractSourceID] returns, in terms of [carries_source_id]. *)
Lemma extractSourceID_outcome (resp : RawMessage) (w : World) :
  exists id err,
    extractSourceID resp w = (Returns (id, err), w)
    /\ (forall i, (id, err) = (i, None) <-> carries_source_id resp i)
    /\ (err <> None -> id = "").
Proof.
  unfold extractSourceID, carries_source_id.
  destruct (len_bytes resp =? 0) eqn:E.
  { assert (resp = "") as ->.
    { destruct resp; [reflexivity|]. apply Z.eqb_eq in E. unfold len_bytes in E.
      cbn [String.length] in E. lia. }
    do 2 eexists. split; [reflexivity|]. split; [|reflexivity].
    intro i. split; [discriminate|]. intros (data & H & _).
    pose proof Unmarshal_empty as U. rewrite H in U. now elim U. }
  destruct (json.Unmarshal resp) as [data [e|]] eqn:J.
  { do 2 eexists. split; [reflexivity|]. split; [|reflexivity].
    intro i. split; [discriminate|]. intros (data' & H & _). discriminate H. }
  rewrite try_formats_source_id_in.
  destruct (source_id_in data) as [id|] eqn:S.
  - do 2 eexists. split; [reflexivity|]. split; [|congruence].
    intro i. split.
    + intros [= <-]. eauto.
    + intros (data' & [= <-] & H). rewrite S in H. now injection H as ->.
  - do 2 eexists. split; [reflexivity|]. split; [|reflexivity].
    intro i. split; [discriminate|]. intros (data' & [= <-] & H). congruence.
Qed.

(** X8.  For a response that decodes as a JSON array, [extractSourceID]
    returns the string found by descending into element 0 four, three or
    two arrays deep, the deepest that exists first, with a nil error; when
    no such string exists it returns the empty ID and the error "could not
    find source ID in response structure" carrying the decoded value.  The
    world is left as it was. *)
Theorem extractSourceID_finds_nested_id
    (resp : RawMessage) (data : list any) (w : World) :
  json.Unmarshal resp = (data, None) ->
  extractSourceID resp w =
    (Returns (match source_id_in data with
              | Some id => (id, None)
              | None => ("", Some (Errorf
                  "could not find source ID in response structure: %v" [Slice data]))
              end), w).
Proof.
  intro J. unfold extractSourceID.
  rewrite len_bytes_nonempty.
  - rewrite J. apply try_formats_source_id_in.
  - intros ->. pose proof Unmarshal_empty as U. rewrite J in U. now elim U.
Qed.

Lemma extractSourceID_finds_nested_id_witness :
  extractSourceID source_payload_shallow (fresh_world (constant_server ""))
  = (Returns ("src-2", None), fresh_world (constant_server "")).
Proof.
  apply (extractSourceID_finds_nested_id source_payload_shallow [Slice [Str "src-2"]]).
  vm_compute. reflexivity.
Defined.

(** ** Source uploads *)

(** The statements after a successful [c.rpc.Do] in the upload functions:
    extract the ID, wrap the error. *)
Lemma extract_and_wrap (resp : RawMessage) (w : World) :
  exists res,
    ('(sourceID, err) <- extractSourceID resp ;;
     match err with
     | Some e => ret ("", Some (Errorf "extract source ID: %w" [Err e]))
     | None => ret (sourceID, None)
     end) w = (Returns res, w)
    /\ (forall id, res = (id, None) <-> carries_source_id resp id)
    /\ (snd res <> None -> fst res = "").
Proof.
  destruct (extractSourceID_outcome resp w) as (id & err & Hrun & Hiff & Hid).
  unfold bind. rewrite Hrun. destruct err as [e|].
  - outcome. split; [|reflexivity]. intro i. rewrite <- Hiff. split; discriminate.
  - outcome. split; [|congruence]. exact Hiff.
Qed.

(** X9.  [AddSourceFromText] issues exactly one request, whose item is
    [[nil, [title, content], nil, 2]].  It returns an ID with a nil error
    exactly when the transport reported no error and the response carries
    that ID (as [extractSourceID] finds it); whenever it returns an error
    the ID is empty. *)
Theorem AddSourceFromText_returns_carried_id
    (c : Client) (projectID content title : string) (w : World)
    (resp : RawMessage) (err : error) :
  let call := addSourcesCall projectID [Nil; StringSlice [title; content]; Nil; Int 2] in
  answer_Do (server w) (trace w) call = (resp, err) ->
  exists res,
    AddSourceFromText c projectID content title w
      = (Returns res, with_trace w (trace w ++ [Do call]))
    /\ (forall id, res = (id, None) <-> err = None /\ carries_source_id resp id)
    /\ (snd res <> None -> fst res = "").
Proof.
  cbv zeta. intro Hrpc. unfold AddSourceFromText, addSourcesCall in *.
  unfold bind at 1. unfold rpc_Do. rewrite Hrpc. destruct err as [e|].
  - outcome. split; [|reflexivity]. intro id. split; [discriminate|intros [H _]; discriminate H].
  - match goal with |- context [bind _ _ ?W] => destruct (extract_and_wrap resp W) as (res & Hrun & Hiff & Hid) end.
    rewrite Hrun. outcome. split; [|exact Hid].
    intro id. rewrite Hiff. tauto.
Qed.

Lemma AddSourceFromText_returns_carried_id_witness :
  exists res,
    AddSourceFromText quiet_client "notebook-1" "some text" "Title"
      (fresh_world (constant_server source_payload))
      = (Returns res,
         with_trace (fresh_world (constant_server source_payload))
           [Do (addSourcesCall "notebook-1"
                  [Nil; StringSlice ["Title"; "some text"]; Nil; Int 2])])
    /\ res = ("src-1", None).
Proof.
  destruct (AddSourceFromText_returns_carried_id quiet_client "notebook-1" "some text"
              "Title" (fresh_world (constant_server source_payload))
              source_payload None)
    as (res & Hrun & Hiff & _).
  - reflexivity.
  - exists res. split; [exact Hrun|]. apply Hiff. split; [reflexivity|].
    exists [Slice [Slice [Slice [Str "src-1"]]]]. split; vm_compute; reflexivity.
Defined.

Lemma len_bytes_zero (s : string) : (len_bytes s =? 0) = true -> s = "".
Proof.
  intro E. destruct s; [reflexivity|]. apply Z.eqb_eq in E. unfold len_bytes in E.
  cbn [String.length] in E. lia.
Qed.

Lemma not_carried_by_empty (id : string) : ~ carries_source_id "" id.
Proof.
  intros (data & H & _). pose proof Unmarshal_empty as U. rewrite H in U. now elim U.
Qed.

(** X10.  [AddYouTubeSource] issues exactly one request, whose item is
    [[nil, nil, videoID, nil, SOURCE_TYPE_YOUTUBE_VIDEO]], and with the debug
    flag off writes nothing.  It returns an ID with a nil error exactly when
    the transport reported no error and the response carries that ID;
    whenever it returns an error the ID is empty. *)
Theorem AddYouTubeSource_returns_carried_id
    (c : Client) (projectID videoID : string) (w : World)
    (resp : RawMessage) (err : error) :
  let call := addSourcesCall projectID
                [Nil; Nil; Str videoID; Nil;
                 EnumSourceType SourceType_SOURCE_TYPE_YOUTUBE_VIDEO] in
  answer_Do (server w) (trace w) call = (resp, err) ->
  exists res w',
    AddYouTubeSource c projectID videoID w = (Returns res, w')
    /\ server w' = server w
    /\ trace w' = trace w ++ [Do call]
    /\ (debug c = false -> stdout w' = stdout w)
    /\ (forall id, res = (id, None) <-> err = None /\ carries_source_id resp id)
    /\ (snd res <> None -> fst res = "").
Proof.
  cbv zeta. intro Hrpc. unfold AddYouTubeSource, addSourcesCall in *.
  destruct (debug c); run; rewrite Hrpc.
  all: destruct err as [e|];
    [ do 2 eexists; split; [reflexivity|]; cbn [server trace stdout fst snd];
      repeat split; try discriminate; intros [H _]; discriminate H | ].
  all: destruct (len_bytes resp =? 0) eqn:E;
    [ apply len_bytes_zero in E; subst resp;
      do 2 eexists; split; [reflexivity|]; cbn [server trace stdout fst snd];
      repeat split; try discriminate; intros [_ H]; now apply not_carried_by_empty in H | ].
  all: match goal with
       | |- context [extractSourceID ?r ?W] =>
           destruct (extractSourceID_outcome r W) as (id & err & Hrun & Hiff & Hid);
           rewrite Hrun
       end.
  all: destruct err as [e|]; do 2 eexists; (split; [reflexivity|]);
    cbn [server trace stdout fst snd];
    (split; [reflexivity|]); (split; [reflexivity|]);
    (split; [try reflexivity; try discriminate|]); split.
  all: try reflexivity.
  all: try (intro H; now elim H).
  all: intro i; rewrite <- Hiff; split;
    solve [ discriminate | intros [_ H]; discriminate H | intro H; split; [reflexivity|exact H]
          | intros [_ H]; exact H ].
Qed.

Lemma AddYouTubeSource_returns_carried_id_witness :
  exists res w',
    AddYouTubeSource debug_client "notebook-1" "dQw4w9WgXcQ"
      (fresh_world (constant_server source_payload)) = (Returns res, w')
    /\ trace w' = [Do (addSourcesCall "notebook-1"
                         [Nil; Nil; Str "dQw4w9WgXcQ"; Nil;
                          EnumSourceType SourceType_SOURCE_TYPE_YOUTUBE_VIDEO])]
    /\ res = ("src-1", None).
Proof.
  destruct (AddYouTubeSource_returns_carried_id debug_client "notebook-1" "dQw4w9WgXcQ"
              (fresh_world (constant_server source_payload)) source_payload None)
    as (res & w' & Hrun & _ & Htrace & _ & Hiff & _).
  - reflexivity.
  - exists res, w'. split; [exact Hrun|]. split; [exact Htrace|].
    apply Hiff. split; [reflexivity|].
    exists [Slice [Slice [Slice [Str "src-1"]]]]. split; vm_compute; reflexivity.
Defined.

(** X11.  [AddSourceFromBase64] issues exactly one request, whose item is
    [[content, filename, contentType, "base64"]], and returns an ID with a
    nil error exactly when the transport reported no error and the response
    carries that ID.  It writes the raw response to standard error and
    dumps it to standard output exactly when the transport succeeded and no
    ID could be extracted; otherwise it writes nothing. *)
Theorem AddSourceFromBase64_reports_unparsed_response
    (c : Client) (projectID content filename contentType : string)
    (stderr : Stderr) (w : World) (resp : RawMessage) (err : error) :
  let call := addSourcesCall projectID
                [Str content; Str filename; Str contentType; Str "base64"] in
  answer_Do (server w) (trace w) call = (resp, err) ->
  exists res stderr' w',
    AddSourceFromBase64 c projectID content filename contentType stderr w
      = (Returns (res, stderr'), w')
    /\ trace w' = trace w ++ [Do call]
    /\ (forall id, res = (id, None) <-> err = None /\ carries_source_id resp id)
    /\ (snd res <> None -> fst res = "")
    /\ (err = None /\ snd res <> None ->
        stderr' = stderr ++ [resp] /\ stdout w' = stdout w ++ [spew_Dump (Str resp)])
    /\ (err <> None \/ snd res = None -> stderr' = stderr /\ stdout w' = stdout w).
Proof.
  cbv zeta. intro Hrpc. unfold AddSourceFromBase64, addSourcesCall in *.
  run. rewrite Hrpc. destruct err as [e|].
  { do 3 eexists. split; [reflexivity|]. cbn [trace stdout with_trace fst snd].
    split; [reflexivity|]. split.
    { intro id. split; [discriminate|intros [H _]; discriminate H]. }
    split; [reflexivity|]. split.
    - intros [H _]. discriminate H.
    - intros _. split; reflexivity. }
  match goal with
  | |- context [extractSourceID ?r ?W] =>
      destruct (extractSourceID_outcome r W) as (id & err & Hrun & Hiff & Hid);
      rewrite Hrun
  end.
  destruct err as [e|]; do 3 eexists; (split; [reflexivity|]);
    cbn [trace stdout with_trace with_stdout fst snd]; (split; [reflexivity|]).
  - split.
    { intro i. rewrite <- Hiff. split; [discriminate|intros [_ H]; discriminate H]. }
    split; [reflexivity|]. split.
    + intros _. split; reflexivity.
    + intros [H|H]; [now elim H|discriminate H].
  - split.
    { intro i. rewrite <- Hiff. split; [intro H; split; [reflexivity|exact H]|].
      intros [_ H]. exact H. }
    split; [intro H; now elim H|]. split.
    + intros [_ H]. now elim H.
    + intros _. split; reflexivity.
Qed.

Lemma AddSourceFromBase64_reports_unparsed_response_witness :
  exists res stderr' w',
    AddSourceFromBase64 quiet_client "notebook-1" "AAEC" "blob.bin"
      "application/octet-stream" [] (fresh_world (constant_server "[7]"))
      = (Returns (res, stderr'), w')
    /\ stderr' = ["[7]"]
    /\ stdout w' = [spew_Dump (Str "[7]")].
Proof.
  destruct (AddSourceFromBase64_reports_unparsed_response quiet_client "notebook-1"
              "AAEC" "blob.bin" "application/octet-stream" []
              (fresh_world (constant_server "[7]")) "[7]" None)
    as (res & stderr' & w' & Hrun & _ & Hiff & _ & Hfail & _).
  - reflexivity.
  - exists res, stderr', w'. split; [exact Hrun|].
    apply Hfail. split; [reflexivity|].
    destruct res as [id [e|]]; [discriminate|].
    destruct (Hiff id) as [H _]. destruct (H eq_refl) as [_ (data & J & S)].
    vm_compute in J. injection J as <-. discriminate S.
Defined.


Lemma AddSourceFromText_trace c projectID content title w :
  trace (world_of (AddSourceFromText c projectID content title w))
  = trace w ++ [Do (addSourcesCall projectID
                      [Nil; StringSlice [title; content]; Nil; Int 2])].
Proof.
  unfold AddSourceFromText, addSourcesCall. run.
  destruct (answer_Do _ _ _) as [resp [e|]]; [reflexivity|].
  match goal with
  | |- context [extractSourceID ?r ?W] =>
      destruct (extractSourceID_outcome r W) as (id & err & Hrun & _); rewrite Hrun
  end.
  destruct err; reflexivity.
Qed.

Lemma AddSourceFromBase64_trace c projectID content filename contentType stderr w :
  trace (world_of (AddSourceFromBase64 c projectID content filename contentType stderr w))
  = trace w ++ [Do (addSourcesCall projectID
                      [Str content; Str filename; Str contentType; Str "base64"])].
Proof.
  unfold AddSourceFromBase64, addSourcesCall. run.
  destruct (answer_Do _ _ _) as [resp [e|]]; [reflexivity|].
  match goal with
  | |- context [extractSourceID ?r ?W] =>
      destruct (extractSourceID_outcome r W) as (id & err & Hrun & _); rewrite Hrun
  end.
  destruct err; reflexivity.
Qed.

(** X12.  [AddSourceFromReader] sends what it read, or nothing.  When
    reading fails it returns the error "read content: %w" and issues no
    request.  Otherwise it issues one request from which the bytes read can
    be recovered: for content sniffed as "text/..." the item is the text
    item, whose text has the bytes read as its bytes and whose title is the
    file name; for any other content the item is the base64 item, whose
    first element decodes to the bytes read. *)
Theorem AddSourceFromReader_sends_what_it_read
    (Reader : Type) (io_ReadAll : Reader -> list Byte.byte * error)
    (http_DetectContentType : list Byte.byte -> string)
    (c : Client) (projectID : string) (r : Reader) (filename : string)
    (stderr : Stderr) (w : World) (content : list Byte.byte) (err : error) :
  io_ReadAll r = (content, err) ->
  let run := AddSourceFromReader Reader io_ReadAll http_DetectContentType
               c projectID r filename stderr w in
  let contentType := http_DetectContentType content in
  match err with
  | Some e =>
      run = (Returns ("", Some (Errorf "read content: %w" [Err e]), stderr), w)
  | None =>
      if strings_HasPrefix contentType "text/" then
        exists text,
          trace (world_of run)
          = trace w ++ [Do (addSourcesCall projectID
                              [Nil; StringSlice [filename; text]; Nil; Int 2])]
          /\ list_byte_of_string text = content
      else
        exists encoded,
          trace (world_of run)
          = trace w ++ [Do (addSourcesCall projectID
                              [Str encoded; Str filename; Str contentType; Str "base64"])]
          /\ base64.DecodeString encoded = (content, None)
  end.
Proof.
  intro Hread. cbv zeta. unfold AddSourceFromReader. rewrite Hread.
  destruct err as [e|]; [reflexivity|].
  destruct (strings_HasPrefix (http_DetectContentType content) "text/").
  - exists (string_of_list_byte content). split.
    + pose proof (AddSourceFromText_trace c projectID (string_of_list_byte content)
                    filename w) as T.
      unfold bind, world_of in *.
      destruct (AddSourceFromText c projectID (string_of_list_byte content) filename w)
        as [[res|p] w']; exact T.
    + apply list_byte_of_string_of_list_byte.
  - exists (base64.EncodeToString content). split.
    + apply AddSourceFromBase64_trace.
    + apply base64_facts.DecodeString_EncodeToString.
Qed.

Lemma AddSourceFromReader_sends_what_it_read_witness :
  exists encoded,
    trace (world_of
             (AddSourceFromReader (list Byte.byte) (fun r => (r, None))
                (fun _ => "application/octet-stream")
                quiet_client "notebook-1" [Byte.x00; Byte.x01; Byte.x02] "blob.bin" []
                (fresh_world (constant_server source_payload))))
    = [Do (addSourcesCall "notebook-1"
             [Str encoded; Str "blob.bin"; Str "application/octet-stream"; Str "base64"])]
    /\ base64.DecodeString encoded = ([Byte.x00; Byte.x01; Byte.x02], None).
Proof.
  apply (AddSourceFromReader_sends_what_it_read (list Byte.byte) (fun r => (r, None))
           (fun _ => "application/octet-stream")
           quiet_client "notebook-1" [Byte.x00; Byte.x01; Byte.x02] "blob.bin" []
           (fresh_world (constant_server source_payload))
           [Byte.x00; Byte.x01; Byte.x02] None).
  reflexivity.
Defined.

(** ** URLs *)

Lemma substring_all (s : string) : String.substring 0 (String.length s) s = s.
Proof. induction s as [|a s IH]; cbn; [reflexivity|now rewrite IH]. Qed.

Lemma strings_TrimPrefix_slash (s : string) :
  strings_TrimPrefix (String "/" s) "/" = s.
Proof.
  unfold strings_TrimPrefix, strings_HasPrefix. cbn.
  assert (String.prefix "" s = true) as -> by (destruct s; reflexivity).
  rewrite Nat.sub_0_r. apply substring_all.
Qed.

(** X13.  A URL that mentions "youtube.com" or "youtu.be" is never added
    as an ordinary web page.  When such a URL parses to a host other than
    "youtu.be" and is not a "/watch" path on a host containing
    "youtube.com", [AddSourceFromURL] returns the error "invalid YouTube URL"
    wrapping "unsupported YouTube URL format" and issues no request. *)
Theorem AddSourceFromURL_rejects_unsupported_youtube
    (url_Parse : string -> option url_URL * error)
    (url_Values_Get : string -> string -> string)
    (c : Client) (projectID url : string) (w : World) (u : url_URL) :
  isYouTubeURL url = true ->
  url_Parse url = (Some u, None) ->
  Host u <> "youtu.be" ->
  strings_Contains (Host u) "youtube.com" = false \/ Path u <> "/watch" ->
  AddSourceFromURL url_Parse url_Values_Get c projectID url w
  = (Returns ("", Some (Errorf "invalid YouTube URL: %w"
                          [Err (Errorf "unsupported YouTube URL format" [])])), w).
Proof.
  intros Hyt Hparse Hhost Hwatch.
  unfold AddSourceFromURL, extractYouTubeVideoID. rewrite Hyt, Hparse.
  apply String.eqb_neq in Hhost. run. rewrite Hhost.
  destruct Hwatch as [-> | Hpath]; [reflexivity|].
  apply String.eqb_neq in Hpath. rewrite Hpath, andb_false_r. reflexivity.
Qed.

Lemma AddSourceFromURL_rejects_unsupported_youtube_witness :
  AddSourceFromURL
    (fun _ => (Some {| Host := "www.youtube.com"; Path := "/shorts/abc123";
                       RawQuery := "" |}, None))
    (fun _ _ => "")
    quiet_client "notebook-1" "https://www.youtube.com/shorts/abc123"
    (fresh_world (constant_server source_payload))
  = (Returns ("", Some (Errorf "invalid YouTube URL: %w"
                          [Err (Errorf "unsupported YouTube URL format" [])])),
     fresh_world (constant_server source_payload)).
Proof.
  apply (AddSourceFromURL_rejects_unsupported_youtube
           (fun _ => (Some {| Host := "www.youtube.com"; Path := "/shorts/abc123";
                              RawQuery := "" |}, None))
           (fun _ _ => "")
           quiet_client "notebook-1" "https://www.youtube.com/shorts/abc123"
           (fresh_world (constant_server source_payload))
           {| Host := "www.youtube.com"; Path := "/shorts/abc123"; RawQuery := "" |}).
  - reflexivity.
  - reflexivity.
  - discriminate.
  - right. discriminate.
Defined.

(** X14.  For a URL that parses to host "youtu.be" and path "/" followed
    by [videoID], [AddSourceFromURL] behaves as [AddYouTubeSource] on
    [videoID]: same result, same request, same output. *)
Theorem AddSourceFromURL_short_link
    (url_Parse : string -> option url_URL * error)
    (url_Values_Get : string -> string -> string)
    (c : Client) (projectID url videoID : string) (w : World) (u : url_URL) :
  isYouTubeURL url = true ->
  url_Parse url = (Some u, None) ->
  Host u = "youtu.be" ->
  Path u = String "/" videoID ->
  AddSourceFromURL url_Parse url_Values_Get c projectID url w
  = AddYouTubeSource c projectID videoID w.
Proof.
  intros Hyt Hparse Hhost Hpath.
  unfold AddSourceFromURL, extractYouTubeVideoID. rewrite Hyt, Hparse.
  cbn [deref]. unfold bind at 2. cbn [ret]. rewrite Hhost, Hpath.
  cbn [String.eqb Ascii.eqb Bool.eqb]. unfold bind at 1. cbn [ret].
  now rewrite strings_TrimPrefix_slash.
Qed.

Lemma AddSourceFromURL_short_link_witness :
  AddSourceFromURL
    (fun _ => (Some {| Host := "youtu.be"; Path := "/dQw4w9WgXcQ"; RawQuery := "" |},
               None))
    (fun _ _ => "")
    quiet_client "notebook-1" "https://youtu.be/dQw4w9WgXcQ"
    (fresh_world (constant_server source_payload))
  = AddYouTubeSource quiet_client "notebook-1" "dQw4w9WgXcQ"
      (fresh_world (constant_server source_payload)).
Proof.
  apply (AddSourceFromURL_short_link
           (fun _ => (Some {| Host := "youtu.be"; Path := "/dQw4w9WgXcQ";
                              RawQuery := "" |}, None))
           (fun _ _ => "")
           quiet_client "notebook-1" "https://youtu.be/dQw4w9WgXcQ" "dQw4w9WgXcQ"
           (fresh_world (constant_server source_payload))
           {| Host := "youtu.be"; Path := "/dQw4w9WgXcQ"; RawQuery := "" |}).
  - reflexivity.
  - reflexivity.
  - reflexivity.
  - reflexivity.
Defined.

(** X15.  For a URL that mentions neither "youtube.com" nor "youtu.be",
    [AddSourceFromURL] does not consult the URL parser; it issues exactly
    one request, whose item is [[nil, nil, [url]]], and returns an ID with a
    nil error exactly when the transport reported no error and the response
    carries that ID. *)
Theorem AddSourceFromURL_regular
    (url_Parse : string -> option url_URL * error)
    (url_Values_Get : string -> string -> string)
    (c : Client) (projectID url : string) (w : World)
    (resp : RawMessage) (err : error) :
  let call := addSourcesCall projectID [Nil; Nil; StringSlice [url]] in
  isYouTubeURL url = false ->
  answer_Do (server w) (trace w) call = (resp, err) ->
  exists res,
    AddSourceFromURL url_Parse url_Values_Get c projectID url w
      = (Returns res, with_trace w (trace w ++ [Do call]))
    /\ (forall id, res = (id, None) <-> err = None /\ carries_source_id resp id)
    /\ (snd res <> None -> fst res = "").
Proof.
  cbv zeta. intros Hyt Hrpc. unfold AddSourceFromURL, addSourcesCall in *.
  rewrite Hyt.
  unfold bind at 1. unfold rpc_Do. rewrite Hrpc. destruct err as [e|].
  - outcome. split; [|reflexivity]. intro id. split; [discriminate|intros [H _]; discriminate H].
  - match goal with |- context [bind _ _ ?W] => destruct (extract_and_wrap resp W) as (res & Hrun & Hiff & Hid) end.
    rewrite Hrun. outcome. split; [|exact Hid].
    intro id. rewrite Hiff. tauto.
Qed.

Lemma AddSourceFromURL_regular_witness :
  exists res,
    AddSourceFromURL (fun _ => (None, Some (serverError "not consulted"))) (fun _ _ => "")
      quiet_client "notebook-1" "https://example.com/article"
      (fresh_world (constant_server source_payload_shallow))
      = (Returns res,
         with_trace (fresh_world (constant_server source_payload_shallow))
           [Do (addSourcesCall "notebook-1"
                  [Nil; Nil; StringSlice ["https://example.com/article"]])])
    /\ res = ("src-2", None).
Proof.
  destruct (AddSourceFromURL_regular
              (fun _ => (None, Some (serverError "not consulted"))) (fun _ _ => "")
              quiet_client "notebook-1" "https://example.com/article"
              (fresh_world (constant_server source_payload_shallow))
              source_payload_shallow None)
    as (res & Hrun & Hiff & _).
  - reflexivity.
  - reflexivity.
  - exists res. split; [exact Hrun|]. apply Hiff. split; [reflexivity|].
    exists [Slice [Str "src-2"]]. split; vm_compute; reflexivity.
Defined.


(** ** Looking a source up in the project listing *)

Lemma find_source_existsb (sourceID : string) (sourcesData : list any) (w : World) :
  find_source sourceID sourcesData w
  = (Returns (existsb (source_has_id sourceID) sourcesData), w).
Proof.
  induction sourcesData as [|sourceData rest IH]; [reflexivity|].
  cbn [find_source existsb].
  destruct sourceData as [| | | | |sourceArr| | | | |]; try exact IH. cbn [as_slice].
  destruct sourceArr as [|x r]; [exact IH|]. rewrite guarded_cons.
  destruct x as [| | | | |sourceIDArr| | | | |]; try exact IH. cbn [as_slice].
  destruct sourceIDArr as [|y r']; [exact IH|]. rewrite guarded_cons.
  destruct y as [| | | |sourceIDStr| | | | | |]; try exact IH.
  cbn [as_string source_has_id].
  destruct (String.eqb sourceIDStr sourceID); [reflexivity|exact IH].
Qed.

Lemma find_project_find (sourceID : string) (projects : list any) (w : World) :
  find_project sourceID projects w
  = (Returns (option_map project_id_slot (find (project_lists sourceID) projects)), w).
Proof.
  induction projects as [|projectData rest IH]; [reflexivity|].
  cbn [find_project find].
  destruct projectData as [| | | | |project| | | | |]; try exact IH. cbn [as_slice].
  destruct project as [|x0 [|x1 [|x2 r]]];
    [exact IH | exact IH | destruct x1; exact IH | ].
  replace (2 <? len (x0 :: x1 :: x2 :: r)) with true
    by (symmetry; apply Z.ltb_lt; rewrite !len_cons; pose proof (len_nonneg r); lia).
  change (at_ (x0 :: x1 :: x2 :: r) 2) with (@ret any x2).
  change (at_ (x0 :: x1 :: x2 :: r) 1) with (@ret any x1).
  unfold bind at 1. cbn [ret]. unfold bind at 1. cbn [ret].
  destruct x1 as [| | | | |sourcesData| | | | |]; try exact IH.
  cbn [as_slice project_lists]. unfold bind at 1.
  rewrite find_source_existsb.
  destruct (existsb (source_has_id sourceID) sourcesData); [|exact IH].
  destruct x2; reflexivity.
Qed.

(** X16.  [findProjectIDForSource] returns the project ID slot of the
    first project of the listing that lists the source: the first entry
    with more than two elements whose element 1 is an array holding a
    source entry [[[sourceID, ...], ...]].  The slot is element 2 of the
    project entry when that is a string and the empty string otherwise, so
    the lookup can succeed with an empty project ID.  When no project lists
    the source the error is "source %s not found in any project".  One
    request, the project listing, is issued. *)
Theorem findProjectIDForSource_first_holder
    (c : Client) (sourceID : string) (w : World) (resp : FullResponse)
    (projects rest : list any) :
  answer_DoWithFullResponse (server w) (trace w) listProjectsCall = (Some resp, None) ->
  json.Unmarshal (Data resp) = (Slice projects :: rest, None) ->
  findProjectIDForSource c sourceID w =
    (Returns (match find (project_lists sourceID) projects with
              | Some project => (project_id_slot project, None)
              | None => ("", Some (Errorf "source %s not found in any project"
                                     [Str sourceID]))
              end),
     with_trace w (trace w ++ [DoWithFullResponse listProjectsCall])).
Proof.
  intros Hrpc Hjson. unfold findProjectIDForSource, listProjectsCall in *.
  unfold bind at 1. unfold rpc_DoWithFullResponse. rewrite Hrpc.
  cbn [deref]. unfold bind at 1. cbn [ret]. rewrite Hjson, guarded_cons.
  cbn [as_slice]. unfold bind. rewrite find_project_find.
  destruct (find (project_lists sourceID) projects); reflexivity.
Qed.

Lemma findProjectIDForSource_first_holder_witness :
  findProjectIDForSource quiet_client "src-1" (fresh_world (listing_server (None, None)))
  = (Returns ("proj-1", None),
     with_trace (fresh_world (listing_server (None, None)))
       [DoWithFullResponse listProjectsCall]).
Proof.
  apply (findProjectIDForSource_first_holder quiet_client "src-1"
           (fresh_world (listing_server (None, None)))
           {| Data := projects_payload; RawArray := [] |}
           [Slice [Str "Title"; Slice [Slice [Slice [Str "src-1"]; Str "Source"]];
                   Str "proj-1"]] []).
  - reflexivity.
  - vm_compute. reflexivity.
Defined.

(** ** The freshness check as a whole *)

(** [findProjectIDForSource] returns unless the server answers the listing
    with a nil response and a nil error. *)
Lemma findProjectIDForSource_cases (c : Client) (sourceID : string) (w : World) :
  match findProjectIDForSource c sourceID w with
  | (Returns _, w') =>
      w' = with_trace w (trace w ++ [DoWithFullResponse listProjectsCall])
  | (Panics _, _) => ~ responds (server w)
  end.
Proof.
  unfold findProjectIDForSource, listProjectsCall.
  unfold bind at 1. unfold rpc_DoWithFullResponse.
  destruct (answer_DoWithFullResponse _ _ _) as [[resp|] [e|]] eqn:A;
    try reflexivity.
  - cbn [deref]. unfold bind at 1. cbn [ret].
    destruct (json.Unmarshal (Data resp)) as [data [e|]]; [reflexivity|].
    destruct data as [|r0 data]; [reflexivity|]. rewrite guarded_cons.
    destruct r0; try reflexivity. cbn [as_slice]. unfold bind.
    rewrite find_project_find.
    destruct (find _ _); reflexivity.
  - cbn. intro R. now apply (R _ _ _ A).
Qed.

Lemma interpretFreshnessStatusCode_cases c statusCode sourceID result w :
  exists r w',
    interpretFreshnessStatusCode c statusCode sourceID result w
      = (Returns (Some r, None), w')
    /\ server w' = server w /\ trace w' = trace w
    /\ (debug c = false -> stdout w' = stdout w)
    /\ SourceID r = SourceID result
    /\ freshness_verdict sourceID r.
Proof.
  unfold interpretFreshnessStatusCode, freshness_verdict.
  fold (known_needs_sync sourceID).
  destruct (statusCode =? 3), (known_needs_sync sourceID), (debug c); run;
    do 2 eexists; (split; [reflexivity|]); cbn;
    (split; [reflexivity|]); (split; [reflexivity|]);
    (split; [try reflexivity; discriminate|]); (split; [reflexivity|]); tauto.
Qed.

Ltac report :=
  eexists; split; [reflexivity|]; cbn [SourceID Status set_status];
  split; [reflexivity|]; split; [left; reflexivity|];
  cbn [server trace stdout with_trace with_stdout]; split; [reflexivity|];
  split; [try reflexivity; discriminate|];
  rewrite <- ?app_assoc; reflexivity.

Lemma checkSourceSyncStatus_cases
    (c : Client) (sourceID : string) (result : SourceFreshnessResult) (w : World) :
  match checkSourceSyncStatus c sourceID result w with
  | (Returns res, w') =>
      exists r,
        res = (Some r, None)
        /\ SourceID r = SourceID result
        /\ freshness_verdict sourceID r
        /\ server w' = server w
        /\ (debug c = false -> stdout w' = stdout w)
        /\ match result_of (findProjectIDForSource c sourceID w) with
           | Returns (projectID, None) =>
               trace w' = trace w ++
                 [DoWithFullResponse listProjectsCall;
                  DoWithFullResponse (refreshSourceCall projectID sourceID);
                  DoWithFullResponse (checkFreshnessCall projectID sourceID)]
           | _ => trace w' = trace w ++ [DoWithFullResponse listProjectsCall]
           end
  | (Panics _, _) => ~ responds (server w)
  end.
Proof.
  unfold checkSourceSyncStatus. unfold bind at 1.
  pose proof (findProjectIDForSource_cases c sourceID w) as F.
  destruct (findProjectIDForSource c sourceID w) as [[[projectID err]|reason] w1];
    cbn [result_of fst]; [|exact F].
  subst w1. destruct err as [e|].
  { unfold freshness_verdict. cbn [ret]. report. }
  unfold refreshSourceCall, checkFreshnessCall, freshness_verdict.
  destruct (debug c) eqn:D; run.
  all: match goal with
       | |- context [answer_DoWithFullResponse ?s ?t
                       {| ID := RPCRefreshSource; Args := ?a; NotebookID := ?n |}] =>
           destruct (answer_DoWithFullResponse s t
                       {| ID := RPCRefreshSource; Args := a; NotebookID := n |})
             as [rr [re|]]
       end; run.
  all: match goal with
       | |- context [answer_DoWithFullResponse ?s ?t
                       {| ID := RPCCheckSourceFreshness; Args := ?a; NotebookID := ?n |}] =>
           destruct (answer_DoWithFullResponse s t
                       {| ID := RPCCheckSourceFreshness; Args := a; NotebookID := n |})
             as [[resp|] [e|]] eqn:A
       end; run.
  all: try report.
  all: try (intro R; now apply (R _ _ _ A)).
  all: destruct (5 <? len (RawArray resp)) eqn:E5; [|report].
  all: apply Z.ltb_lt in E5;
    destruct (index_in_range (RawArray resp) 5) as [r5 H5]; [lia|]; rewrite H5; run.
  all: destruct r5 as [| | | | |statusArray| | | | |]; run; try report.
  all: destruct (0 <? len statusArray) eqn:E0; [|report].
  all: apply Z.ltb_lt in E0;
    destruct (index_in_range statusArray 0) as [s0 H0]; [lia|]; rewrite H0; run.
  all: destruct s0 as [| |statusCode| | | | | | | |]; run; try report.
  all: match goal with
       | |- context [interpretFreshnessStatusCode ?c ?n ?s ?r ?W] =>
           destruct (interpretFreshnessStatusCode_cases c n s r W)
             as (r' & w' & Hrun & Hs & Ht & Ho & Hid & Hv);
           rewrite Hrun
       end.
  all: exists r'; split; [reflexivity|]; split; [exact Hid|]; split; [exact Hv|];
    rewrite Hs, Ht; cbn [server trace with_trace with_stdout]; split; [reflexivity|];
    (split; [first [ discriminate | intros _; rewrite Ho by exact D; reflexivity ]|]);
    rewrite <- ?app_assoc; reflexivity.
Qed.

Lemma findProjectIDForSource_sim c sourceID w1 w2 :
  server w1 = server w2 -> trace w1 = trace w2 ->
  result_of (findProjectIDForSource c sourceID w1)
  = result_of (findProjectIDForSource c sourceID w2).
Proof.
  destruct w1 as [s1 t1 o1], w2 as [s2 t2 o2]. cbn. intros <- <-.
  destruct (findProjectIDForSource_run c sourceID
              {| server := s1; trace := t1; stdout := [] |}) as [o Ho].
  pose proof (Ho o1) as H1. pose proof (Ho o2) as H2.
  unfold with_stdout in H1, H2. cbn in H1, H2. now rewrite H1, H2.
Qed.

Lemma CheckSourceFreshness_cases (c : Client) (sourceID : string) (w : World) :
  match CheckSourceFreshness c sourceID w with
  | (Returns res, w') =>
      exists r,
        res = (Some r, None)
        /\ SourceID r = sourceID
        /\ freshness_verdict sourceID r
        /\ server w' = server w
        /\ (debug c = false ->
            stdout w' = stdout w ++
              [Printf "=== CheckSourceFreshness called with sourceID: %s ===\n"
                 [Value (Str sourceID)];
               Printf "Debug flag: %v\n" [Value (Bool false)]])
        /\ match result_of (findProjectIDForSource c sourceID w) with
           | Returns (projectID, None) =>
               trace w' = trace w ++
                 [DoWithFullResponse listProjectsCall;
                  DoWithFullResponse (refreshSourceCall projectID sourceID);
                  DoWithFullResponse (checkFreshnessCall projectID sourceID)]
           | _ => trace w' = trace w ++ [DoWithFullResponse listProjectsCall]
           end
  | (Panics _, _) => ~ responds (server w)
  end.
Proof.
  unfold CheckSourceFreshness.
  destruct (debug c) eqn:D; run.
  all: match goal with
       | |- context [checkSourceSyncStatus ?c0 ?s ?r ?W] =>
           pose proof (checkSourceSyncStatus_cases c0 s r W) as H;
           destruct (checkSourceSyncStatus c0 s r W) as [[res|reason] w']
       end; [|exact H].
  all: rewrite (findProjectIDForSource_sim c sourceID _ w) in H by reflexivity.
  all: destruct H as (r & -> & Hid & Hv & Hs & Ho & Ht); exists r;
    (split; [reflexivity|]); (split; [exact Hid|]); (split; [exact Hv|]);
    (split; [exact Hs|]); split; [|exact Ht].
  - discriminate.
  - intros _. rewrite Ho by exact D. cbn [stdout with_stdout].
    rewrite <- app_assoc. reflexivity.
Qed.

(** X17.  [CheckSourceFreshness] always reports in its result.  With a
    server whose successful full responses are never nil it does not panic
    and returns a nil error together with a result for the source asked
    about, whose status is set (never [SOURCE_STATUS_UNSPECIFIED]). *)
Theorem CheckSourceFreshness_always_reports
    (c : Client) (sourceID : string) (w : World) :
  responds (server w) ->
  exists r w',
    CheckSourceFreshness c sourceID w = (Returns (Some r, None), w')
    /\ SourceID r = sourceID
    /\ Status r <> SourceSettings_SOURCE_STATUS_UNSPECIFIED.
Proof.
  intro R. pose proof (CheckSourceFreshness_cases c sourceID w) as H.
  destruct (CheckSourceFreshness c sourceID w) as [[res|reason] w']; [|now elim H].
  destruct H as (r & -> & Hid & Hv & _). exists r, w'.
  split; [reflexivity|]. split; [exact Hid|].
  destruct Hv as [E | [[E _] | [E _]]]; rewrite E; discriminate.
Qed.

Lemma responds_listing_server_with refresh freshness :
  refresh <> (None, None) -> freshness <> (None, None) ->
  responds (listing_server_with refresh freshness).
Proof.
  intros Hr Hf t call r. cbn. destruct (ID call); intros E Hnil; subst r;
    first [discriminate E | now apply Hr | now apply Hf].
Qed.

Lemma CheckSourceFreshness_always_reports_witness :
  exists r w',
    CheckSourceFreshness quiet_client "src-1"
      (fresh_world (listing_server_with (None, Some (serverError "refresh failed"))
                      freshness_code_3))
    = (Returns (Some r, None), w')
    /\ SourceID r = "src-1"
    /\ Status r <> SourceSettings_SOURCE_STATUS_UNSPECIFIED.
Proof.
  apply (CheckSourceFreshness_always_reports quiet_client "src-1").
  apply responds_listing_server_with; discriminate.
Defined.

(** X18.  Whatever the server answers, [CheckSourceFreshness] reports
    "needs synchronization" ([SOURCE_STATUS_DISABLED]) only for the two
    source IDs [interpretFreshnessStatusCode] knows by name, and reports
    "synchronized" ([SOURCE_STATUS_ENABLED]) only for other sources. *)
Theorem CheckSourceFreshness_needs_sync_only_for_known_sources
    (c : Client) (sourceID : string) (w : World)
    (r : SourceFreshnessResult) (e : error) :
  result_of (CheckSourceFreshness c sourceID w) = Returns (Some r, e) ->
  (Status r = SourceSettings_SOURCE_STATUS_DISABLED -> known_needs_sync sourceID = true)
  /\ (Status r = SourceSettings_SOURCE_STATUS_ENABLED -> known_needs_sync sourceID = false).
Proof.
  intro Hres. pose proof (CheckSourceFreshness_cases c sourceID w) as H.
  unfold result_of in Hres.
  destruct (CheckSourceFreshness c sourceID w) as [[res|reason] w']; [|discriminate Hres].
  destruct H as (r' & -> & _ & Hv & _). cbn in Hres. injection Hres as <- _.
  destruct Hv as [E | [[E K] | [E K]]]; rewrite E; split; intro; congruence.
Qed.

Lemma CheckSourceFreshness_needs_sync_only_for_known_sources_witness :
  result_of (CheckSourceFreshness quiet_client "src-1"
               (fresh_world (listing_server freshness_code_3)))
  = Returns (Some {| SourceID := "src-1";
                     Status := SourceSettings_SOURCE_STATUS_ENABLED;
                     Message := Lit "Google Drive source is properly synchronized" |},
             None)
  /\ known_needs_sync "src-1" = false.
Proof.
  assert (result_of (CheckSourceFreshness quiet_client "src-1"
                       (fresh_world (listing_server freshness_code_3)))
          = Returns (Some {| SourceID := "src-1";
                             Status := SourceSettings_SOURCE_STATUS_ENABLED;
                             Message := Lit "Google Drive source is properly synchronized" |},
                     None)) as H by (vm_compute; reflexivity).
  split; [exact H|].
  apply (CheckSourceFreshness_needs_sync_only_for_known_sources _ _ _ _ _ H).
  reflexivity.
Defined.

(** The world a freshness check ends in, whether it returns or panics: what
    it has written with the debug flag off, and the requests it has
    issued. *)
Lemma checkSourceSyncStatus_world
    (c : Client) (sourceID : string) (result : SourceFreshnessResult) (w : World) :
  match checkSourceSyncStatus c sourceID result w with
  | (_, w') =>
      (debug c = false -> stdout w' = stdout w)
      /\ match result_of (findProjectIDForSource c sourceID w) with
         | Returns (projectID, None) =>
             trace w' = trace w ++
               [DoWithFullResponse listProjectsCall;
                DoWithFullResponse (refreshSourceCall projectID sourceID);
                DoWithFullResponse (checkFreshnessCall projectID sourceID)]
         | _ => trace w' = trace w ++ [DoWithFullResponse listProjectsCall]
         end
  end.
Proof.
  destruct (findProjectIDForSource_run c sourceID w) as [o Ho].
  specialize (Ho (stdout w)). rewrite with_stdout_self in Ho.
  unfold checkSourceSyncStatus. unfold result_of, bind at 1.
  rewrite Ho. cbn [fst snd].
  destruct o as [[projectID [e|]]|reason]; [split; reflexivity| |split; reflexivity].
  unfold refreshSourceCall, checkFreshnessCall.
  destruct (debug c) eqn:D; run.
  all: match goal with
       | |- context [answer_DoWithFullResponse ?s ?t
                       {| ID := RPCRefreshSource; Args := ?a; NotebookID := ?n |}] =>
           destruct (answer_DoWithFullResponse s t
                       {| ID := RPCRefreshSource; Args := a; NotebookID := n |})
             as [rr [re|]]
       end; run.
  all: match goal with
       | |- context [answer_DoWithFullResponse ?s ?t
                       {| ID := RPCCheckSourceFreshness; Args := ?a; NotebookID := ?n |}] =>
           destruct (answer_DoWithFullResponse s t
                       {| ID := RPCCheckSourceFreshness; Args := a; NotebookID := n |})
             as [[resp|] [e|]]
       end; run.
  all: try (split; [first [discriminate | reflexivity]
                   | rewrite <- ?app_assoc; reflexivity]).
  all: destruct (5 <? len (RawArray resp)) eqn:E5;
    [|split; [first [discriminate | reflexivity] | rewrite <- ?app_assoc; reflexivity]].
  all: apply Z.ltb_lt in E5;
    destruct (index_in_range (RawArray resp) 5) as [r5 H5]; [lia|]; rewrite H5; run.
  all: destruct r5 as [| | | | |statusArray| | | | |]; run;
    try (split; [first [discriminate | reflexivity] | rewrite <- ?app_assoc; reflexivity]).
  all: destruct (0 <? len statusArray) eqn:E0;
    [|split; [first [discriminate | reflexivity] | rewrite <- ?app_assoc; reflexivity]].
  all: apply Z.ltb_lt in E0;
    destruct (index_in_range statusArray 0) as [s0 H0]; [lia|]; rewrite H0; run.
  all: destruct s0 as [| |statusCode| | | | | | | |]; run;
    try (split; [first [discriminate | reflexivity] | rewrite <- ?app_assoc; reflexivity]).
  all: match goal with
       | |- context [interpretFreshnessStatusCode ?c ?n ?s ?r ?W] =>
           destruct (interpretFreshnessStatusCode_cases c n s r W)
             as (r' & w' & Hrun & Hs & Ht & Ho' & Hid & Hv);
           rewrite Hrun
       end.
  all: rewrite Ht; cbn [server trace stdout with_trace with_stdout];
    (split; [first [ discriminate | intros _; rewrite Ho' by exact D; reflexivity ]|]);
    rewrite <- ?app_assoc; reflexivity.
Qed.

Lemma CheckSourceFreshness_world (c : Client) (sourceID : string) (w : World) :
  match CheckSourceFreshness c sourceID w with
  | (_, w') =>
      (debug c = false ->
       stdout w' = stdout w ++
         [Printf "=== CheckSourceFreshness called with sourceID: %s ===\n"
            [Value (Str sourceID)];
          Printf "Debug flag: %v\n" [Value (Bool false)]])
      /\ match result_of (findProjectIDForSource c sourceID w) with
         | Returns (projectID, None) =>
             trace w' = trace w ++
               [DoWithFullResponse listProjectsCall;
                DoWithFullResponse (refreshSourceCall projectID sourceID);
                DoWithFullResponse (checkFreshnessCall projectID sourceID)]
         | _ => trace w' = trace w ++ [DoWithFullResponse listProjectsCall]
         end
  end.
Proof.
  unfold CheckSourceFreshness.
  destruct (debug c) eqn:D; run.
  all: match goal with
       | |- context [checkSourceSyncStatus ?c0 ?s ?r ?W] =>
           pose proof (checkSourceSyncStatus_world c0 s r W) as H;
           destruct (checkSourceSyncStatus c0 s r W) as [o w']
       end.
  all: rewrite (findProjectIDForSource_sim c sourceID _ w) in H by reflexivity.
  all: destruct H as [Ho Ht]; split; [|exact Ht].
  - discriminate.
  - intros _. rewrite Ho by exact D. cbn [stdout with_stdout].
    rewrite <- app_assoc. reflexivity.
Qed.

(** X19.  The requests of one freshness check.  When the project lookup
    fails, [CheckSourceFreshness] issues the project listing and nothing
    else; when it finds the project it issues, in this order, the listing,
    a refresh of the source and the freshness check, the last two addressed
    to the project found. *)
Theorem CheckSourceFreshness_requests
    (c : Client) (sourceID projectID : string) (err : error) (w : World) :
  result_of (findProjectIDForSource c sourceID w) = Returns (projectID, err) ->
  trace (world_of (CheckSourceFreshness c sourceID w))
  = trace w ++
      DoWithFullResponse listProjectsCall ::
      match err with
      | None => [DoWithFullResponse (refreshSourceCall projectID sourceID);
                 DoWithFullResponse (checkFreshnessCall projectID sourceID)]
      | Some _ => []
      end.
Proof.
  intro Hfind. pose proof (CheckSourceFreshness_world c sourceID w) as H.
  unfold world_of. destruct (CheckSourceFreshness c sourceID w) as [o w'].
  destruct H as [_ Ht]. rewrite Hfind in Ht. destruct err; exact Ht.
Qed.

Lemma CheckSourceFreshness_requests_witness :
  trace (world_of (CheckSourceFreshness debug_client "src-1"
                     (fresh_world (listing_server freshness_code_3))))
  = [DoWithFullResponse listProjectsCall;
     DoWithFullResponse (refreshSourceCall "proj-1" "src-1");
     DoWithFullResponse (checkFreshnessCall "proj-1" "src-1")].
Proof.
  apply (CheckSourceFreshness_requests debug_client "src-1" "proj-1" None
           (fresh_world (listing_server freshness_code_3))).
  vm_compute. reflexivity.
Defined.

(** X20.  [CheckSourceFreshness] writes to standard output even with the
    debug flag off: exactly two lines, the banner with the source ID and
    the line showing the debug flag. *)
Theorem CheckSourceFreshness_prints_with_debug_off
    (c : Client) (sourceID : string) (w : World) :
  debug c = false ->
  stdout (world_of (CheckSourceFreshness c sourceID w))
  = stdout w ++
      [Printf "=== CheckSourceFreshness called with sourceID: %s ===\n"
         [Value (Str sourceID)];
       Printf "Debug flag: %v\n" [Value (Bool false)]].
Proof.
  intro D. pose proof (CheckSourceFreshness_world c sourceID w) as H.
  unfold world_of. destruct (CheckSourceFreshness c sourceID w) as [o w'].
  destruct H as [Ho _]. exact (Ho D).
Qed.

Lemma CheckSourceFreshness_prints_with_debug_off_witness :
  stdout (world_of (CheckSourceFreshness quiet_client "src-1"
                      (fresh_world (listing_server freshness_code_3))))
  = [Printf "=== CheckSourceFreshness called with sourceID: %s ===\n"
       [Value (Str "src-1")];
     Printf "Debug flag: %v\n" [Value (Bool false)]].
Proof.
  apply (CheckSourceFreshness_prints_with_debug_off quiet_client "src-1"
           (fresh_world (listing_server freshness_code_3))).
  reflexivity.
Defined.

Lemma interpretFreshnessStatusCode_result c statusCode sourceID result w1 w2 :
  result_of (interpretFreshnessStatusCode c statusCode sourceID result w1)
  = result_of (interpretFreshnessStatusCode c statusCode sourceID result w2).
Proof.
  unfold interpretFreshnessStatusCode. fold (known_needs_sync sourceID).
  destruct (statusCode =? 3), (known_needs_sync sourceID), (debug c); reflexivity.
Qed.

(** X21.  When the project is found and the freshness call succeeds with
    a response whose [RawArray[5]] is an array headed by a number, the
    result of [CheckSourceFreshness] is the interpretation, by
    [interpretFreshnessStatusCode], of that number truncated to an
    integer. *)
Theorem CheckSourceFreshness_interprets_status_code
    (c : Client) (sourceID projectID : string) (w w0 : World)
    (resp : FullResponse) (statusCode : float64) (rest : list any) :
  result_of (findProjectIDForSource c sourceID w) = Returns (projectID, None) ->
  answer_DoWithFullResponse (server w)
    (trace w ++ [DoWithFullResponse listProjectsCall;
                 DoWithFullResponse (refreshSourceCall projectID sourceID)])
    (checkFreshnessCall projectID sourceID) = (Some resp, None) ->
  index (RawArray resp) 5 = Some (Slice (Float64 statusCode :: rest)) ->
  result_of (CheckSourceFreshness c sourceID w)
  = result_of (interpretFreshnessStatusCode c (int_of_float64 statusCode) sourceID
                 {| SourceID := sourceID;
                    Status := SourceSettings_SOURCE_STATUS_UNSPECIFIED;
                    Message := Lit "" |} w0).
Proof.
  intros Hfind Hfresh H5.
  pose proof (index_some_lt _ _ _ H5) as L5.
  destruct (findProjectIDForSource_run c sourceID w) as [o Ho].
  assert (o = Returns (projectID, None)) as ->.
  { specialize (Ho (stdout w)). rewrite with_stdout_self in Ho.
    unfold result_of in Hfind. rewrite Ho in Hfind. exact Hfind. }
  unfold CheckSourceFreshness, checkSourceSyncStatus,
    refreshSourceCall, checkFreshnessCall in *.
  destruct (debug c) eqn:D; run;
    match goal with
    | |- context [findProjectIDForSource c sourceID ?W] =>
        change W with (with_stdout w (stdout W)); rewrite Ho
    end; run;
    match goal with
    | |- context [answer_DoWithFullResponse ?s ?t
                    {| ID := RPCRefreshSource; Args := ?a; NotebookID := ?n |}] =>
        destruct (answer_DoWithFullResponse s t
                    {| ID := RPCRefreshSource; Args := a; NotebookID := n |})
          as [rr [re|]]
    end; run;
    rewrite <- app_assoc; cbn [app]; rewrite Hfresh; run;
    decide_ltb; rewrite H5; run;
    exact (interpretFreshnessStatusCode_result _ _ _ _ _ w0).
Qed.

Lemma CheckSourceFreshness_interprets_status_code_witness :
  result_of (CheckSourceFreshness quiet_client "src-1"
               (fresh_world (listing_server freshness_code_3)))
  = Returns (Some {| SourceID := "src-1";
                     Status := SourceSettings_SOURCE_STATUS_ENABLED;
                     Message := Lit "Google Drive source is properly synchronized" |},
             None).
Proof.
  rewrite (CheckSourceFreshness_interprets_status_code quiet_client "src-1" "proj-1"
             (fresh_world (listing_server freshness_code_3))
             (fresh_world (listing_server freshness_code_3))
             {| Data := "";
                RawArray := [Nil; Nil; Nil; Nil; Nil;
                             Slice [Float64 (S754_finite false 3 0)]] |}
             (S754_finite false 3 0) []).
  - reflexivity.
  - vm_compute. reflexivity.
  - reflexivity.
  - reflexivity.
Defined.

(** X22.  When the project is found and the freshness call succeeds, but
    [RawArray[5]] of the response is missing or is not an array headed by a
    number, [CheckSourceFreshness] reports [SOURCE_STATUS_ERROR] with the
    message "Could not parse freshness status from API response", and a
    nil error. *)
Theorem CheckSourceFreshness_unparsed_status
    (c : Client) (sourceID projectID : string) (w : World) (resp : FullResponse) :
  result_of (findProjectIDForSource c sourceID w) = Returns (projectID, None) ->
  answer_DoWithFullResponse (server w)
    (trace w ++ [DoWithFullResponse listProjectsCall;
                 DoWithFullResponse (refreshSourceCall projectID sourceID)])
    (checkFreshnessCall projectID sourceID) = (Some resp, None) ->
  (forall statusCode rest,
     index (RawArray resp) 5 <> Some (Slice (Float64 statusCode :: rest))) ->
  result_of (CheckSourceFreshness c sourceID w)
  = Returns (Some {| SourceID := sourceID;
                     Status := SourceSettings_SOURCE_STATUS_ERROR;
                     Message := Lit "Could not parse freshness status from API response" |},
             None).
Proof.
  intros Hfind Hfresh Hshape.
  destruct (findProjectIDForSource_run c sourceID w) as [o Ho].
  assert (o = Returns (projectID, None)) as ->.
  { specialize (Ho (stdout w)). rewrite with_stdout_self in Ho.
    unfold result_of in Hfind. rewrite Ho in Hfind. exact Hfind. }
  unfold CheckSourceFreshness, checkSourceSyncStatus,
    refreshSourceCall, checkFreshnessCall in *.
  destruct (debug c) eqn:D; run;
    match goal with
    | |- context [findProjectIDForSource c sourceID ?W] =>
        change W with (with_stdout w (stdout W)); rewrite Ho
    end; run;
    match goal with
    | |- context [answer_DoWithFullResponse ?s ?t
                    {| ID := RPCRefreshSource; Args := ?a; NotebookID := ?n |}] =>
        destruct (answer_DoWithFullResponse s t
                    {| ID := RPCRefreshSource; Args := a; NotebookID := n |})
          as [rr [re|]]
    end; run;
    rewrite <- app_assoc; cbn [app]; rewrite Hfresh; run.
  all: destruct (5 <? len (RawArray resp)) eqn:E5; [|reflexivity].
  all: apply Z.ltb_lt in E5;
    destruct (index_in_range (RawArray resp) 5) as [r5 H5]; [lia|]; rewrite H5; run.
  all: destruct r5 as [| | | | |statusArray| | | | |]; run; try reflexivity.
  all: destruct statusArray as [|s0 rest]; [reflexivity|].
  all: replace (0 <? len (s0 :: rest)) with true
         by (symmetry; apply Z.ltb_lt; rewrite len_cons; pose proof (len_nonneg rest); lia).
  all: change (index (s0 :: rest) 0) with (Some s0).
  all: destruct s0 as [| |statusCode| | | | | | | |]; run; try reflexivity.
  all: now elim (Hshape statusCode rest).
Qed.

Lemma CheckSourceFreshness_unparsed_status_witness :
  result_of (CheckSourceFreshness quiet_client "src-1"
               (fresh_world (listing_server
                               (Some {| Data := "[]"; RawArray := [] |}, None))))
  = Returns (Some {| SourceID := "src-1";
                     Status := SourceSettings_SOURCE_STATUS_ERROR;
                     Message := Lit "Could not parse freshness status from API response" |},
             None).
Proof.
  apply (CheckSourceFreshness_unparsed_status quiet_client "src-1" "proj-1"
           (fresh_world (listing_server (Some {| Data := "[]"; RawArray := [] |}, None)))
           {| Data := "[]"; RawArray := [] |}).
  - vm_compute. reflexivity.
  - reflexivity.
  - intros statusCode rest. discriminate.
Defined.

(** ** Relating two runs *)

Section Agreement.

Variable R : Server -> Server -> Prop.

Lemma agree_ret {A} (a : A) : agree R (ret a) (ret a).
Proof. intros w1 w2 H. split; [exact H|reflexivity]. Qed.

Lemma agree_upto_bind {A B} (Q : A -> A -> Prop) (P : B -> B -> Prop)
    (m1 m2 : Go A) (k1 k2 : A -> Go B) :
  agree_upto R Q m1 m2 ->
  (forall a1 a2, Q a1 a2 -> agree_upto R P (k1 a1) (k2 a2)) ->
  agree_upto R P (bind m1 k1) (bind m2 k2).
Proof.
  intros Hm Hk w1 w2 H. specialize (Hm w1 w2 H).
  unfold bind, world_of, result_of in *.
  destruct (m1 w1) as [[a1|r1] w1'], (m2 w2) as [[a2|r2] w2']; cbn [fst snd] in *;
    destruct Hm as [Hs Hq]; try contradiction.
  - apply (Hk a1 a2 Hq w1' w2' Hs).
  - split; assumption.
Qed.

Lemma agree_bind {A B} (m1 m2 : Go A) (k1 k2 : A -> Go B) :
  agree R m1 m2 ->
  (forall a, agree R (k1 a) (k2 a)) ->
  agree R (bind m1 k1) (bind m2 k2).
Proof.
  intros Hm Hk. apply (agree_upto_bind eq eq m1 m2 k1 k2 Hm).
  intros a1 a2 <-. apply Hk.
Qed.

Lemma agree_state_free {A} (m : Go A) : state_free m -> agree R m m.
Proof.
  intros [o Ho] w1 w2 H. unfold world_of, result_of. rewrite !Ho. cbn [fst snd].
  split; [exact H|]. destruct o; reflexivity.
Qed.

Lemma agree_silent {B} (p1 p2 : Go unit) (k1 k2 : unit -> Go B) (P : B -> B -> Prop) :
  silent p1 -> silent p2 ->
  agree_upto R P (k1 tt) (k2 tt) ->
  agree_upto R P (bind p1 k1) (bind p2 k2).
Proof.
  intros H1 H2 Hk w1 w2 H.
  destruct (H1 w1) as [o1 E1], (H2 w2) as [o2 E2].
  unfold bind. rewrite E1, E2. apply Hk.
  destruct H as [Hs Ht]. split; assumption.
Qed.

Lemma agree_rpc_DoWithFullResponse (call : Call) :
  (forall s1 s2 t, R s1 s2 ->
     answer_DoWithFullResponse s1 t call = answer_DoWithFullResponse s2 t call) ->
  agree R (rpc_DoWithFullResponse call) (rpc_DoWithFullResponse call).
Proof.
  intros Hc w1 w2 [Hs Ht]. unfold rpc_DoWithFullResponse, world_of, result_of.
  cbn [fst snd]. split.
  - split; cbn [server trace with_trace]; [exact Hs|now rewrite Ht].
  - rewrite Ht. apply Hc, Hs.
Qed.

Lemma agree_rpc_Do (call : Call) :
  (forall s1 s2 t, R s1 s2 -> answer_Do s1 t call = answer_Do s2 t call) ->
  agree R (rpc_Do call) (rpc_Do call).
Proof.
  intros Hc w1 w2 [Hs Ht]. unfold rpc_Do, world_of, result_of.
  cbn [fst snd]. split.
  - split; cbn [server trace with_trace]; [exact Hs|now rewrite Ht].
  - rewrite Ht. apply Hc, Hs.
Qed.

(** The answer of a request that is thrown away need not be the same. *)
Lemma agree_rpc_discarded (call : Call) :
  agree_upto R (fun _ _ => True)
    (rpc_DoWithFullResponse call) (rpc_DoWithFullResponse call).
Proof.
  intros w1 w2 [Hs Ht]. unfold rpc_DoWithFullResponse, world_of, result_of.
  cbn [fst snd]. split; [|exact I].
  split; cbn [server trace with_trace]; [exact Hs|now rewrite Ht].
Qed.

End Agreement.

Lemma silent_ret : silent (ret tt).
Proof. intro w. exists (stdout w). now rewrite with_stdout_self. Qed.

Lemma silent_Printf_operands format args : silent (fmt_Printf_operands format args).
Proof. intro w. eexists. reflexivity. Qed.

Lemma silent_Printf format args : silent (fmt_Printf format args).
Proof. apply silent_Printf_operands. Qed.

Lemma silent_spew_dump v : silent (spew_dump v).
Proof. intro w. eexists. reflexivity. Qed.

Lemma silent_bind (p : Go unit) (k : unit -> Go unit) :
  silent p -> silent (k tt) -> silent (bind p k).
Proof.
  intros Hp Hk w. destruct (Hp w) as [o1 E1].
  destruct (Hk (with_stdout w o1)) as [o2 E2].
  exists o2. unfold bind. rewrite E1, E2. reflexivity.
Qed.

Lemma silent_when (b : bool) (p : Go unit) : silent p -> silent (when b p).
Proof. intro H. destruct b; [exact H|apply silent_ret]. Qed.

Ltac silence :=
  repeat first
    [ apply silent_ret | apply silent_Printf | apply silent_Printf_operands
    | apply silent_spew_dump | apply silent_when | apply silent_bind
    | match goal with
      | |- silent (match ?x with _ => _ end) => destruct x
      end ].

Ltac agree_step :=
  lazymatch goal with
  | |- agree _ (ret _) (ret _) => apply agree_ret
  | |- agree_upto _ eq (ret _) (ret _) => apply agree_ret
  | |- agree _ (at_ _ _) (at_ _ _) => apply agree_state_free, state_free_at
  | |- agree _ (deref _) (deref _) => apply agree_state_free, state_free_deref
  | |- agree _ (bind _ _) (bind _ _) =>
      first [ apply agree_silent; [solve [silence] | solve [silence] | ]
            | apply agree_bind; [ | intros ? ] ]
  | |- agree_upto _ eq (bind _ _) (bind _ _) =>
      first [ apply agree_silent; [solve [silence] | solve [silence] | ]
            | apply agree_bind; [ | intros ? ] ]
  | |- agree _ (match ?x with _ => _ end) (match ?x with _ => _ end) => destruct x
  | |- agree_upto _ eq (match ?x with _ => _ end) (match ?x with _ => _ end) => destruct x
  | |- agree _ (let '(_, _) := ?x in _) (let '(_, _) := ?x in _) => destruct x
  end.

Section FreshnessAgreement.

Variable R : Server -> Server -> Prop.
Hypothesis R_full : forall s1 s2 t call, R s1 s2 -> ID call <> RPCRefreshSource ->
  answer_DoWithFullResponse s1 t call = answer_DoWithFullResponse s2 t call.

Lemma agree_findProjectIDForSource c1 c2 sourceID :
  agree R (findProjectIDForSource c1 sourceID) (findProjectIDForSource c2 sourceID).
Proof.
  unfold findProjectIDForSource. apply agree_bind.
  - apply agree_rpc_DoWithFullResponse. intros s1 s2 t H. apply R_full; [exact H|].
    discriminate.
  - intros [resp err]. apply agree_state_free.
    prove_state_free; first [ apply state_free_deref | apply state_free_find_project ].
Qed.

Lemma agree_interpretFreshnessStatusCode c1 c2 statusCode sourceID result :
  agree R (interpretFreshnessStatusCode c1 statusCode sourceID result)
          (interpretFreshnessStatusCode c2 statusCode sourceID result).
Proof.
  unfold interpretFreshnessStatusCode. repeat agree_step.
Qed.

Lemma agree_checkSourceSyncStatus c1 c2 sourceID result :
  agree R (checkSourceSyncStatus c1 sourceID result)
          (checkSourceSyncStatus c2 sourceID result).
Proof.
  unfold checkSourceSyncStatus. apply agree_bind.
  { apply agree_findProjectIDForSource. }
  intros [projectID [e|]]; [apply agree_ret|].
  apply agree_silent; [silence | silence |].
  apply agree_silent; [silence | silence |].
  apply (agree_upto_bind R (fun _ _ => True)); [apply agree_rpc_discarded|].
  intros [rr1 re1] [rr2 re2] _.
  apply agree_silent; [silence | silence |].
  apply agree_bind.
  { apply agree_rpc_DoWithFullResponse. intros s1 s2 t H. apply R_full; [exact H|].
    discriminate. }
  intros [resp [e|]]; [apply agree_ret|].
  apply agree_bind; [apply agree_state_free, state_free_deref|]. intro resp'.
  apply agree_silent; [silence | silence |].
  repeat first [ apply agree_interpretFreshnessStatusCode | agree_step ].
Qed.

Lemma agree_CheckSourceFreshness c1 c2 sourceID :
  agree R (CheckSourceFreshness c1 sourceID) (CheckSourceFreshness c2 sourceID).
Proof.
  unfold CheckSourceFreshness.
  apply agree_silent; [silence | silence |].
  apply agree_silent; [silence | silence |].
  apply agree_silent; [silence | silence |].
  apply agree_checkSourceSyncStatus.
Qed.

End FreshnessAgreement.

Lemma agree_results {A} R (m1 m2 : Go A) (w1 w2 : World) :
  agree R m1 m2 -> sim R w1 w2 ->
  result_of (m1 w1) = result_of (m2 w2)
  /\ trace (world_of (m1 w1)) = trace (world_of (m2 w2)).
Proof.
  intros H Hs. destruct (H w1 w2 Hs) as [[_ Ht] Hr]. split; [|exact Ht].
  destruct (result_of (m1 w1)), (result_of (m2 w2)); try contradiction; congruence.
Qed.

(** X23.  The reply to the refresh request has no influence.  On two
    servers that differ at most in their answers to refresh requests,
    [CheckSourceFreshness] returns the same result and issues the same
    requests. *)
Theorem CheckSourceFreshness_ignores_refresh_reply
    (c : Client) (sourceID : string) (w1 w2 : World) :
  same_but_refresh (server w1) (server w2) ->
  trace w1 = trace w2 ->
  result_of (CheckSourceFreshness c sourceID w1)
  = result_of (CheckSourceFreshness c sourceID w2)
  /\ trace (world_of (CheckSourceFreshness c sourceID w1))
     = trace (world_of (CheckSourceFreshness c sourceID w2)).
Proof.
  intros Hs Ht. apply (agree_results same_but_refresh).
  - apply agree_CheckSourceFreshness.
    intros s1 s2 t call [_ H]. apply H.
  - split; assumption.
Qed.

Lemma CheckSourceFreshness_ignores_refresh_reply_witness :
  result_of (CheckSourceFreshness quiet_client "src-1"
               (fresh_world (listing_server_with
                               (None, Some (serverError "refresh failed"))
                               freshness_code_3)))
  = result_of (CheckSourceFreshness quiet_client "src-1"
                 (fresh_world (listing_server_with
                                 (Some {| Data := "[]"; RawArray := [] |}, None)
                                 freshness_code_3)))
  /\ trace (world_of (CheckSourceFreshness quiet_client "src-1"
               (fresh_world (listing_server_with
                               (None, Some (serverError "refresh failed"))
                               freshness_code_3))))
     = trace (world_of (CheckSourceFreshness quiet_client "src-1"
                 (fresh_world (listing_server_with
                                 (Some {| Data := "[]"; RawArray := [] |}, None)
                                 freshness_code_3)))).
Proof.
  apply (CheckSourceFreshness_ignores_refresh_reply quiet_client "src-1").
  - split; [reflexivity|]. intros t call H. cbn.
    destruct (ID call) eqn:E; try reflexivity. now elim H.
  - reflexivity.
Defined.

(** ** The earlier revision of the freshness check *)

Lemma wp_ret {A} (a : A) (Q : A -> World -> Prop) (w : World) :
  Q a w -> wp (ret a) Q w.
Proof. intro H. exact H. Qed.

Lemma wp_bind {A B} (m : Go A) (k : A -> Go B) (Q : B -> World -> Prop) (w : World) :
  wp m (fun a w' => wp (k a) Q w') w -> wp (bind m k) Q w.
Proof.
  unfold wp, bind. destruct (m w) as [[a|r] w']; [|intros []].
  intro H. exact H.
Qed.

Lemma wp_at (l : list any) (i : Z) (Q : any -> World -> Prop) (w : World) :
  0 <= i < len l -> (forall x, Q x w) -> wp (at_ l i) Q w.
Proof.
  intros Hi HQ. destruct (index_in_range l i Hi) as [x Hx].
  unfold wp, at_. rewrite Hx. apply HQ.
Qed.

Lemma wp_silent (p : Go unit) (Q : unit -> World -> Prop) (w : World) :
  silent p -> (forall out, Q tt (with_stdout w out)) -> wp p Q w.
Proof.
  intros Hp HQ. destruct (Hp w) as [out E]. unfold wp. rewrite E. apply HQ.
Qed.

Lemma wp_state_free {A} (m : Go A) (Q : A -> World -> Prop) (w : World) :
  state_free m -> always_returns m -> (forall a, Q a w) -> wp m Q w.
Proof.
  intros [o Ho] Hr HQ. unfold wp. rewrite Ho.
  destruct (Hr w) as [a Ha]. unfold result_of in Ha. rewrite Ho in Ha. cbn in Ha.
  subst o. apply HQ.
Qed.

Lemma wp_run {A} (m : Go A) (Q : A -> World -> Prop) (w : World) :
  wp m Q w -> exists a w', m w = (Returns a, w') /\ Q a w'.
Proof.
  unfold wp. destruct (m w) as [[a|r] w']; [eauto|intros []].
Qed.

Lemma silent_print_elements format i arr : silent (part_000.print_elements format i arr).
Proof.
  revert i. induction arr as [|elem rest IH]; intro i; cbn [part_000.print_elements].
  - apply silent_ret.
  - apply silent_bind; [apply silent_Printf|apply IH].
Qed.

Lemma silent_debugSourceStructure c sourceTitle sourceArr :
  silent (part_000.debugSourceStructure c sourceTitle sourceArr).
Proof.
  unfold part_000.debugSourceStructure. destruct (negb (debug c)); [apply silent_ret|].
  repeat first [ apply silent_print_elements | apply silent_Printf | apply silent_bind ].
Qed.

Lemma silent_debugMetadata c metadataArr :
  silent (part_000.debugMetadata c metadataArr).
Proof.
  unfold part_000.debugMetadata. destruct (negb (debug c)); [apply silent_ret|].
  repeat first [ apply silent_print_elements | apply silent_Printf | apply silent_bind ].
Qed.

Lemma reported_stdout result w0 res w out :
  reported result w0 res w -> reported result w0 res (with_stdout w out).
Proof. intros (H & Hs & Ht). split; [exact H|]. split; assumption. Qed.

Ltac reported_now :=
  split; [eexists; split; [reflexivity|]; split; [reflexivity|discriminate]
         | split; assumption].

Lemma sim_stdout (w0 w : World) out :
  server w = server w0 /\ trace w = trace w0 ->
  server (with_stdout w out) = server w0 /\ trace (with_stdout w out) = trace w0.
Proof. intro H. exact H. Qed.

Lemma wp_analyzeTimestampDifference c metadataArr result flag w0 w :
  4 <= len metadataArr ->
  server w = server w0 -> trace w = trace w0 ->
  wp (part_000.analyzeTimestampDifference c metadataArr result flag) (reported result w0) w.
Proof.
  intros Hlen Hs Ht. unfold part_000.analyzeTimestampDifference.
  apply wp_bind. apply wp_state_free.
  { apply state_free_extractTimestamps. }
  { now apply always_returns_extractTimestamps. }
  intros [lastUpdate creation].
  apply wp_bind. apply wp_silent.
  { destruct flag; silence. }
  intro out.
  destruct flag;
    match goal with |- context [if ?b then _ else _] => destruct b end;
    apply wp_ret; reported_now.
Qed.

Lemma wp_analyzeLength5Metadata c metadataArr result w0 w :
  len metadataArr = 5 ->
  server w = server w0 -> trace w = trace w0 ->
  wp (part_000.analyzeLength5Metadata c metadataArr result) (reported result w0) w.
Proof.
  intros Hlen Hs Ht. unfold part_000.analyzeLength5Metadata.
  destruct (index_in_range metadataArr 4) as [m4 H4]; [lia|].
  unfold at_. rewrite H4.
  apply wp_bind. apply wp_silent; [silence|]. intro out.
  apply wp_bind. apply wp_ret.
  destruct (as_float64 m4) as [syncFlag|]; [destruct (part_000.float64_is_one syncFlag)|];
    apply wp_analyzeTimestampDifference; solve [lia | assumption].
Qed.

Lemma wp_analyzeLength6Metadata c metadataArr result w0 w :
  len metadataArr = 6 ->
  server w = server w0 -> trace w = trace w0 ->
  wp (part_000.analyzeLength6Metadata c metadataArr result) (reported result w0) w.
Proof.
  intros Hlen Hs Ht. unfold part_000.analyzeLength6Metadata.
  destruct (len metadataArr <=? 5); [apply wp_ret; reported_now|].
  apply wp_bind. apply wp_at; [lia|]. intro m5.
  apply wp_bind. apply wp_silent; [silence|]. intro out.
  destruct (as_float64 m5) as [syncFlag|]; [destruct (part_000.float64_is_one syncFlag)|];
    apply wp_ret; reported_now.
Qed.

Lemma wp_analyzeLength7Metadata c metadataArr result w0 w :
  len metadataArr = 7 ->
  server w = server w0 -> trace w = trace w0 ->
  wp (part_000.analyzeLength7Metadata c metadataArr result) (reported result w0) w.
Proof.
  intros Hlen Hs Ht. unfold part_000.analyzeLength7Metadata.
  apply wp_bind.
  destruct (5 <? len metadataArr).
  - apply wp_bind. apply wp_at; [lia|]. intro m5. apply wp_ret.
    destruct (is_nil m5); apply wp_ret; reported_now.
  - apply wp_ret. apply wp_ret. reported_now.
Qed.

Lemma wp_analyzeGoogleDriveSync c metadataArr result w0 w :
  server w = server w0 -> trace w = trace w0 ->
  wp (part_000.analyzeGoogleDriveSync c metadataArr result) (reported result w0) w.
Proof.
  intros Hs Ht. unfold part_000.analyzeGoogleDriveSync.
  apply wp_bind. apply wp_silent; [silence|]. intro out.
  destruct (len metadataArr =? 7) eqn:E7.
  { apply Z.eqb_eq in E7. now apply wp_analyzeLength7Metadata. }
  destruct (len metadataArr =? 6) eqn:E6.
  { apply Z.eqb_eq in E6. now apply wp_analyzeLength6Metadata. }
  destruct (len metadataArr =? 5) eqn:E5.
  { apply Z.eqb_eq in E5. now apply wp_analyzeLength5Metadata. }
  apply wp_ret. reported_now.
Qed.

Lemma wp_conseq {A} (m : Go A) (Q Q' : A -> World -> Prop) (w : World) :
  wp m Q w -> (forall a w', Q a w' -> Q' a w') -> wp m Q' w.
Proof.
  unfold wp. destruct (m w) as [[a|r] w']; [|intros []]. intros H HQ. now apply HQ.
Qed.

Lemma reported_regular c result sourceTitle w0 w :
  server w = server w0 -> trace w = trace w0 ->
  reported result w0 (Some (part_000.setRegularSourceStatus c result sourceTitle), None) w.
Proof.
  intros Hs Ht. unfold part_000.setRegularSourceStatus.
  destruct (negb _); reported_now.
Qed.

Lemma state_free_extractSourceTitle c sourceArr :
  state_free (part_000.extractSourceTitle c sourceArr).
Proof. unfold part_000.extractSourceTitle. prove_state_free. Qed.

Lemma always_returns_extractSourceTitle c sourceArr :
  1 < len sourceArr -> always_returns (part_000.extractSourceTitle c sourceArr).
Proof.
  intro H. unfold part_000.extractSourceTitle.
  destruct (index_in_range sourceArr 1) as [s1 H1]; [lia|].
  unfold at_. rewrite H1.
  apply always_returns_bind; [apply always_returns_ret|]. intro a.
  destruct (as_string a); apply always_returns_ret.
Qed.

Lemma state_free_isGoogleDriveSource c metadataArr :
  state_free (part_000.isGoogleDriveSource c metadataArr).
Proof. unfold part_000.isGoogleDriveSource. prove_state_free. Qed.

Lemma always_returns_isGoogleDriveSource c metadataArr :
  0 < len metadataArr -> always_returns (part_000.isGoogleDriveSource c metadataArr).
Proof.
  intro H. unfold part_000.isGoogleDriveSource.
  destruct (index_in_range metadataArr 0) as [m0 H0]; [lia|].
  unfold at_. rewrite H0.
  apply always_returns_bind; [apply always_returns_ret|]. intro a.
  destruct (is_nil a); [apply always_returns_ret|].
  apply always_returns_bind; [apply always_returns_ret|]. intro a'.
  destruct (as_slice a'); apply always_returns_ret.
Qed.

Lemma wp_analyzeRawSourceStructure c sourceArr result w0 w :
  server w = server w0 -> trace w = trace w0 ->
  wp (part_000.analyzeRawSourceStructure c sourceArr result) (reported result w0) w.
Proof.
  intros Hs Ht. unfold part_000.analyzeRawSourceStructure.
  destruct (len sourceArr <? 4) eqn:E4; [apply wp_ret; reported_now|].
  apply Z.ltb_ge in E4.
  apply wp_bind. apply wp_state_free.
  { apply state_free_extractSourceTitle. }
  { apply always_returns_extractSourceTitle. lia. }
  intro sourceTitle.
  apply wp_bind. apply wp_silent; [apply silent_debugSourceStructure|]. intro out1.
  apply wp_bind. apply wp_at; [lia|]. intro s2.
  destruct (as_slice s2) as [metadataArr|];
    [|apply wp_ret; now apply reported_regular].
  destruct (len metadataArr =? 0) eqn:E0; [apply wp_ret; now apply reported_regular|].
  apply Z.eqb_neq in E0. pose proof (len_nonneg metadataArr) as N.
  apply wp_bind. apply wp_silent; [apply silent_debugMetadata|]. intro out2.
  apply wp_bind. apply wp_state_free.
  { apply state_free_isGoogleDriveSource. }
  { apply always_returns_isGoogleDriveSource. lia. }
  intros [|]; cbn [negb]; [|apply wp_ret; now apply reported_regular].
  apply wp_bind.
  apply (wp_conseq _ (reported result w0)).
  { now apply wp_analyzeGoogleDriveSync. }
  intros [finalResult err] w' ((r & [= -> ->] & Hid & Hst) & Hs' & Ht').
  apply wp_bind. apply wp_silent.
  { apply silent_when. cbn [deref]. silence. }
  intro out3. apply wp_ret. split; [|split; assumption].
  exists r. repeat split; assumption.
Qed.

Lemma wp_scan_sources c sourceID result sourcesData w0 w :
  server w = server w0 -> trace w = trace w0 ->
  wp (part_000.scan_sources c sourceID result sourcesData)
     (fun found w' =>
        match found with
        | Some res => reported result w0 res w'
        | None => server w' = server w0 /\ trace w' = trace w0
        end) w.
Proof.
  intros Hs Ht. induction sourcesData as [|sourceData rest IH].
  { apply wp_ret. split; assumption. }
  cbn [part_000.scan_sources].
  destruct (as_slice sourceData) as [sourceArr|]; [|exact IH].
  destruct (2 <? len sourceArr) eqn:E2; [|exact IH]. apply Z.ltb_lt in E2.
  apply wp_bind. apply wp_at; [lia|]. intro s0.
  destruct (as_slice s0) as [sourceIDArr|]; [|exact IH].
  destruct (0 <? len sourceIDArr) eqn:E0; [|exact IH]. apply Z.ltb_lt in E0.
  apply wp_bind. apply wp_at; [lia|]. intro i0.
  destruct (as_string i0) as [sourceIDStr|]; [|exact IH].
  destruct (String.eqb sourceIDStr sourceID); [|exact IH].
  apply wp_bind.
  apply (wp_conseq _ (reported result w0)).
  { now apply wp_analyzeRawSourceStructure. }
  intros res w' H. apply wp_ret. exact H.
Qed.

Lemma wp_scan_projects c sourceID result projects w0 w :
  server w = server w0 -> trace w = trace w0 ->
  wp (part_000.scan_projects c sourceID result projects)
     (fun found w' =>
        match found with
        | Some res => reported result w0 res w'
        | None => server w' = server w0 /\ trace w' = trace w0
        end) w.
Proof.
  revert w. induction projects as [|projectData rest IH]; intros w Hs Ht.
  { apply wp_ret. split; assumption. }
  cbn [part_000.scan_projects].
  destruct (as_slice projectData) as [project|]; [|now apply IH].
  destruct (1 <? len project) eqn:E1; [|now apply IH]. apply Z.ltb_lt in E1.
  apply wp_bind. apply wp_at; [lia|]. intro p1.
  destruct (as_slice p1) as [sourcesData|]; [|now apply IH].
  apply wp_bind.
  apply (wp_conseq _ _ _ _ (wp_scan_sources c sourceID result sourcesData w0 w Hs Ht)).
  intros [res|] w' H.
  - apply wp_ret. exact H.
  - destruct H as [Hs' Ht']. now apply IH.
Qed.

(** X24.  The earlier revision of [CheckSourceFreshness] never indexes
    out of range, whatever the shape of the project listing.  With a server
    whose successful full responses are never nil it returns a nil error
    and a result for the source asked about whose status is set, and it
    issues exactly one request, the project listing. *)
Theorem part_000_CheckSourceFreshness_always_reports
    (c : Client) (sourceID : string) (w : World) :
  responds (server w) ->
  exists r w',
    part_000.CheckSourceFreshness c sourceID w = (Returns (Some r, None), w')
    /\ SourceID r = sourceID
    /\ Status r <> SourceSettings_SOURCE_STATUS_UNSPECIFIED
    /\ trace w' = trace w ++ [DoWithFullResponse listProjectsCall].
Proof.
  intro R.
  unfold part_000.CheckSourceFreshness, part_000.checkSourceSyncStatus, listProjectsCall.
  unfold bind at 1. unfold rpc_DoWithFullResponse.
  destruct (answer_DoWithFullResponse _ _ _) as [[resp|] [e|]] eqn:A.
  1, 3: do 2 eexists; split; [reflexivity|]; cbn; repeat split; discriminate.
  2: now elim (R _ _ _ A).
  cbn [deref]. unfold bind at 1. cbn [ret].
  set (w1 := with_trace w _).
  set (result := {| SourceID := sourceID; Status := _; Message := _ |}).
  destruct (json.Unmarshal (Data resp)) as [responseData [e|]].
  { do 2 eexists. split; [reflexivity|]. cbn. repeat split; discriminate. }
  destruct responseData as [|r0 responseData].
  { do 2 eexists. split; [reflexivity|]. cbn. repeat split; discriminate. }
  rewrite guarded_cons.
  destruct (as_slice r0) as [projects|].
  2:{ do 2 eexists. split; [reflexivity|]. cbn. repeat split; discriminate. }
  pose proof (wp_scan_projects c sourceID result projects w1 w1 eq_refl eq_refl) as H.
  apply wp_run in H. destruct H as (found & w' & Hrun & H).
  unfold bind. rewrite Hrun. destruct found as [res|].
  - destruct H as ((r & -> & Hid & Hst) & Hs & Ht).
    exists r, w'. split; [reflexivity|]. split; [exact Hid|]. split; [exact Hst|].
    rewrite Ht. reflexivity.
  - destruct H as [Hs Ht]. do 2 eexists. split; [reflexivity|]. cbn.
    split; [reflexivity|]. split; [discriminate|]. rewrite Ht. reflexivity.
Qed.

Lemma part_000_CheckSourceFreshness_always_reports_witness :
  exists r w',
    part_000.CheckSourceFreshness debug_client "src-1"
      (fresh_world (listing_server freshness_code_3))
    = (Returns (Some r, None), w')
    /\ SourceID r = "src-1"
    /\ Status r <> SourceSettings_SOURCE_STATUS_UNSPECIFIED
    /\ trace w' = [DoWithFullResponse listProjectsCall].
Proof.
  apply (part_000_CheckSourceFreshness_always_reports debug_client "src-1"
           (fresh_world (listing_server freshness_code_3))).
  intros t call r. cbn. destruct (ID call); intros E Hnil; subst r; discriminate E.
Defined.

(** ** What the earlier revision flags *)

Lemma wp_at_index (l : list any) (i : Z) (Q : any -> World -> Prop) (w : World) :
  0 <= i < len l -> (forall x, index l i = Some x -> Q x w) -> wp (at_ l i) Q w.
Proof.
  intros Hi HQ. destruct (index_in_range l i Hi) as [x Hx].
  unfold wp, at_. rewrite Hx. now apply HQ.
Qed.

Lemma Status_setRegularSourceStatus c result sourceTitle :
  Status (part_000.setRegularSourceStatus c result sourceTitle)
  = SourceSettings_SOURCE_STATUS_ENABLED.
Proof. unfold part_000.setRegularSourceStatus. destruct (negb _); reflexivity. Qed.

(** X25.  In the earlier revision, [analyzeRawSourceStructure] reports
    "needs synchronization" ([SOURCE_STATUS_DISABLED]) only for a source
    whose element 2 is a metadata array of five to seven elements headed by
    a non-empty array (the Google Drive information). *)
Theorem part_000_needs_sync_only_for_drive_metadata
    (c : Client) (sourceArr : list any) (result r : SourceFreshnessResult)
    (e : error) (w : World) :
  result_of (part_000.analyzeRawSourceStructure c sourceArr result w)
    = Returns (Some r, e) ->
  Status r = SourceSettings_SOURCE_STATUS_DISABLED ->
  exists metadataArr info,
    index sourceArr 2 = Some (Slice metadataArr)
    /\ index metadataArr 0 = Some (Slice info)
    /\ 1 <= len info
    /\ 5 <= len metadataArr <= 7.
Proof.
  intros Hres HD.
  assert (wp (part_000.analyzeRawSourceStructure c sourceArr result)
            (fun res _ =>
               forall r e, res = (Some r, e) ->
                 Status r = SourceSettings_SOURCE_STATUS_DISABLED ->
                 exists metadataArr info,
                   index sourceArr 2 = Some (Slice metadataArr)
                   /\ index metadataArr 0 = Some (Slice info)
                   /\ 1 <= len info
                   /\ 5 <= len metadataArr <= 7) w) as H.
  2:{ apply wp_run in H. destruct H as (res & w' & Hrun & H).
      unfold result_of in Hres. rewrite Hrun in Hres. cbn in Hres.
      injection Hres as ->. exact (H r e eq_refl HD). }
  clear Hres HD r e.
  assert (forall title W,
             wp (ret (Some (part_000.setRegularSourceStatus c result title),
                      @None errorValue))
               (fun res _ =>
                  forall r e, res = (Some r, e) ->
                    Status r = SourceSettings_SOURCE_STATUS_DISABLED ->
                    exists metadataArr info,
                      index sourceArr 2 = Some (Slice metadataArr)
                      /\ index metadataArr 0 = Some (Slice info)
                      /\ 1 <= len info
                      /\ 5 <= len metadataArr <= 7) W) as Regular.
  { intros title W. apply wp_ret. intros r e [= <- <-] HD.
    rewrite Status_setRegularSourceStatus in HD. discriminate HD. }
  unfold part_000.analyzeRawSourceStructure.
  destruct (len sourceArr <? 4) eqn:E4.
  { apply wp_ret. intros r e [= <- <-] HD. discriminate HD. }
  apply Z.ltb_ge in E4.
  apply wp_bind. apply wp_state_free.
  { apply state_free_extractSourceTitle. }
  { apply always_returns_extractSourceTitle. lia. }
  intro sourceTitle.
  apply wp_bind. apply wp_silent; [apply silent_debugSourceStructure|]. intro out1.
  apply wp_bind. apply wp_at_index; [lia|]. intros s2 H2.
  destruct s2 as [| | | | |metadataArr| | | | |]; try apply Regular. cbn [as_slice].
  destruct (len metadataArr =? 0) eqn:E0; [apply Regular|].
  apply Z.eqb_neq in E0. pose proof (len_nonneg metadataArr) as N.
  apply wp_bind. apply wp_silent; [apply silent_debugMetadata|]. intro out2.
  apply wp_bind. unfold part_000.isGoogleDriveSource.
  apply wp_bind. apply wp_at_index; [lia|]. intros m0 H0.
  destruct (is_nil m0); [apply wp_ret; apply Regular|].
  apply wp_bind. apply wp_at_index; [lia|]. intros m0' H0'.
  rewrite H0 in H0'. injection H0' as <-.
  destruct m0 as [| | | | |info| | | | |]; try (apply wp_ret; apply Regular).
  cbn [as_slice]. apply wp_ret.
  destruct (1 <=? len info) eqn:E1; cbn [negb]; [|apply Regular].
  apply Z.leb_le in E1.
  destruct (5 <=? len metadataArr) eqn:L5; [destruct (len metadataArr <=? 7) eqn:L7|].
  - apply Z.leb_le in L5. apply Z.leb_le in L7.
    apply wp_bind.
    apply (wp_conseq _ (reported result w)).
    { now apply wp_analyzeGoogleDriveSync. }
    intros [finalResult err] w' ((r & [= -> ->] & Hid & Hst) & Hs' & Ht').
    apply wp_bind. apply wp_silent.
    { apply silent_when. cbn [deref]. silence. }
    intro out3. apply wp_ret. intros r' e' _ _.
    exists metadataArr, info. repeat split; assumption.
  - apply Z.leb_gt in L7.
    unfold part_000.analyzeGoogleDriveSync.
    replace (len metadataArr =? 7) with false by (symmetry; apply Z.eqb_neq; lia).
    replace (len metadataArr =? 6) with false by (symmetry; apply Z.eqb_neq; lia).
    replace (len metadataArr =? 5) with false by (symmetry; apply Z.eqb_neq; lia).
    apply wp_bind. apply wp_bind. apply wp_silent; [silence|]. intro out3.
    apply wp_ret. apply wp_bind. apply wp_silent.
    { apply silent_when. cbn [deref]. silence. }
    intro out4. apply wp_ret. intros r e [= <- <-] HD. discriminate HD.
  - apply Z.leb_gt in L5.
    unfold part_000.analyzeGoogleDriveSync.
    replace (len metadataArr =? 7) with false by (symmetry; apply Z.eqb_neq; lia).
    replace (len metadataArr =? 6) with false by (symmetry; apply Z.eqb_neq; lia).
    replace (len metadataArr =? 5) with false by (symmetry; apply Z.eqb_neq; lia).
    apply wp_bind. apply wp_bind. apply wp_silent; [silence|]. intro out3.
    apply wp_ret. apply wp_bind. apply wp_silent.
    { apply silent_when. cbn [deref]. silence. }
    intro out4. apply wp_ret. intros r e [= <- <-] HD. discriminate HD.
Qed.

Lemma part_000_needs_sync_only_for_drive_metadata_witness :
  exists metadataArr info,
    index [Slice [Str "src-1"]; Str "Doc";
           Slice [Slice [Str "drive-id"]; Nil; Nil; Nil; Nil; Nil; Nil]; Nil] 2
    = Some (Slice metadataArr)
    /\ index metadataArr 0 = Some (Slice info)
    /\ 1 <= len info
    /\ 5 <= len metadataArr <= 7.
Proof.
  apply (part_000_needs_sync_only_for_drive_metadata quiet_client
           [Slice [Str "src-1"]; Str "Doc";
            Slice [Slice [Str "drive-id"]; Nil; Nil; Nil; Nil; Nil; Nil]; Nil]
           {| SourceID := "src-1"; Status := SourceSettings_SOURCE_STATUS_UNSPECIFIED;
              Message := Lit "" |}
           {| SourceID := "src-1"; Status := SourceSettings_SOURCE_STATUS_DISABLED;
              Message := part_000.needs_sync |}
           None (fresh_world (constant_server ""))).
  - vm_compute. reflexivity.
  - reflexivity.
Defined.

(** ** The debug flag *)

Lemma agree_with_post {A} R (P : A -> Prop) (m1 m2 : Go A) :
  agree R m1 m2 ->
  (forall w, wp m1 (fun a _ => P a) w) ->
  agree_upto R (fun a1 a2 => a1 = a2 /\ P a1) m1 m2.
Proof.
  intros H Hp w1 w2 Hs. destruct (H w1 w2 Hs) as [Hs' Hr]. split; [exact Hs'|].
  specialize (Hp w1). unfold wp, result_of in *.
  destruct (m1 w1) as [[a1|r1] w1'], (m2 w2) as [[a2|r2] w2']; cbn [fst] in *;
    try contradiction; auto.
Qed.

Section DebugFlag.

Variable c1 c2 : Client.

Lemma same_full s1 s2 t call :
  s1 = s2 -> ID call <> RPCRefreshSource ->
  answer_DoWithFullResponse s1 t call = answer_DoWithFullResponse s2 t call.
Proof. intros -> _. reflexivity. Qed.

Lemma agree_AddYouTubeSource projectID videoID :
  agree eq (AddYouTubeSource c1 projectID videoID)
             (AddYouTubeSource c2 projectID videoID).
Proof.
  unfold AddYouTubeSource.
  apply agree_silent; [silence | silence |].
  apply agree_silent; [silence | silence |].
  apply agree_bind.
  { apply agree_rpc_Do. now intros s1 s2 t ->. }
  intros [resp [e|]]; [apply agree_ret|].
  apply agree_silent; [silence | silence |].
  destruct (len_bytes resp =? 0); [apply agree_ret|].
  apply agree_state_free.
  apply state_free_bind; [apply state_free_extractSourceID|].
  intros [sourceID [e|]]; apply state_free_ret.
Qed.

Lemma agree_analyzeTimestampDifference metadataArr result flag :
  agree eq (part_000.analyzeTimestampDifference c1 metadataArr result flag)
             (part_000.analyzeTimestampDifference c2 metadataArr result flag).
Proof.
  unfold part_000.analyzeTimestampDifference. apply agree_bind.
  { apply agree_state_free. unfold extractTimestamps. prove_state_free. }
  intros [lastUpdate creation].
  apply agree_silent; [destruct flag; silence | destruct flag; silence |].
  repeat agree_step.
Qed.

Lemma agree_analyzeLength5Metadata metadataArr result :
  len metadataArr = 5 ->
  agree eq (part_000.analyzeLength5Metadata c1 metadataArr result)
             (part_000.analyzeLength5Metadata c2 metadataArr result).
Proof.
  intro Hlen. unfold part_000.analyzeLength5Metadata.
  destruct (index_in_range metadataArr 4) as [m4 H4]; [lia|].
  unfold at_. rewrite H4.
  apply agree_silent; [silence | silence |].
  apply agree_bind; [apply agree_ret|]. intro a.
  destruct (as_float64 a) as [syncFlag|];
    [destruct (part_000.float64_is_one syncFlag)|];
    apply agree_analyzeTimestampDifference.
Qed.

Lemma agree_analyzeLength6Metadata metadataArr result :
  agree eq (part_000.analyzeLength6Metadata c1 metadataArr result)
             (part_000.analyzeLength6Metadata c2 metadataArr result).
Proof.
  unfold part_000.analyzeLength6Metadata.
  destruct (len metadataArr <=? 5); [apply agree_ret|].
  apply agree_bind; [apply agree_state_free, state_free_at|]. intro m5.
  apply agree_silent; [silence | silence |].
  repeat agree_step.
Qed.

Lemma agree_analyzeGoogleDriveSync metadataArr result :
  agree eq (part_000.analyzeGoogleDriveSync c1 metadataArr result)
             (part_000.analyzeGoogleDriveSync c2 metadataArr result).
Proof.
  unfold part_000.analyzeGoogleDriveSync.
  apply agree_silent; [silence | silence |].
  destruct (len metadataArr =? 7).
  { apply agree_state_free. unfold part_000.analyzeLength7Metadata. prove_state_free. }
  destruct (len metadataArr =? 6); [apply agree_analyzeLength6Metadata|].
  destruct (len metadataArr =? 5) eqn:E5; [|apply agree_ret].
  apply Z.eqb_eq in E5. now apply agree_analyzeLength5Metadata.
Qed.

Lemma agree_analyzeRawSourceStructure sourceArr result :
  agree eq (part_000.analyzeRawSourceStructure c1 sourceArr result)
             (part_000.analyzeRawSourceStructure c2 sourceArr result).
Proof.
  unfold part_000.analyzeRawSourceStructure.
  destruct (len sourceArr <? 4); [apply agree_ret|].
  apply agree_bind.
  { apply agree_state_free, state_free_extractSourceTitle. }
  intro sourceTitle.
  apply agree_silent; [apply silent_debugSourceStructure ..|].
  apply agree_bind; [apply agree_state_free, state_free_at|]. intro s2.
  destruct (as_slice s2) as [metadataArr|]; [|apply agree_ret].
  destruct (len metadataArr =? 0); [apply agree_ret|].
  apply agree_silent; [apply silent_debugMetadata ..|].
  apply agree_bind.
  { apply agree_state_free, state_free_isGoogleDriveSource. }
  intros [|]; cbn [negb]; [|apply agree_ret].
  apply (agree_upto_bind eq
           (fun a1 a2 => a1 = a2 /\ exists r, a1 = (Some r, @None errorValue))).
  { apply agree_with_post; [apply agree_analyzeGoogleDriveSync|].
    intro w.
    apply (wp_conseq _ (reported result w)).
    - now apply wp_analyzeGoogleDriveSync.
    - intros a w' ((r & -> & _) & _). eauto. }
  intros a1 a2 [<- (r & ->)].
  apply agree_silent; [| |apply agree_ret];
    apply silent_when; cbn [deref]; silence.
Qed.

Lemma agree_scan_sources sourceID result sourcesData :
  agree eq (part_000.scan_sources c1 sourceID result sourcesData)
             (part_000.scan_sources c2 sourceID result sourcesData).
Proof.
  induction sourcesData as [|sourceData rest IH]; [apply agree_ret|].
  cbn [part_000.scan_sources].
  destruct (as_slice sourceData) as [sourceArr|]; [|exact IH].
  destruct (2 <? len sourceArr); [|exact IH].
  apply agree_bind; [apply agree_state_free, state_free_at|]. intro s0.
  destruct (as_slice s0) as [sourceIDArr|]; [|exact IH].
  destruct (0 <? len sourceIDArr); [|exact IH].
  apply agree_bind; [apply agree_state_free, state_free_at|]. intro i0.
  destruct (as_string i0) as [sourceIDStr|]; [|exact IH].
  destruct (String.eqb sourceIDStr sourceID); [|exact IH].
  apply agree_bind; [apply agree_analyzeRawSourceStructure|].
  intro r. apply agree_ret.
Qed.

Lemma agree_scan_projects sourceID result projects :
  agree eq (part_000.scan_projects c1 sourceID result projects)
             (part_000.scan_projects c2 sourceID result projects).
Proof.
  induction projects as [|projectData rest IH]; [apply agree_ret|].
  cbn [part_000.scan_projects].
  destruct (as_slice projectData) as [project|]; [|exact IH].
  destruct (1 <? len project); [|exact IH].
  apply agree_bind; [apply agree_state_free, state_free_at|]. intro p1.
  destruct (as_slice p1) as [sourcesData|]; [|exact IH].
  apply agree_bind; [apply agree_scan_sources|].
  intros [r|]; [apply agree_ret|exact IH].
Qed.

Lemma agree_part_000_CheckSourceFreshness sourceID :
  agree eq (part_000.CheckSourceFreshness c1 sourceID)
             (part_000.CheckSourceFreshness c2 sourceID).
Proof.
  unfold part_000.CheckSourceFreshness, part_000.checkSourceSyncStatus.
  apply agree_bind.
  { apply agree_rpc_DoWithFullResponse. now intros s1 s2 t ->. }
  intros [resp [e|]]; [apply agree_ret|].
  apply agree_bind; [apply agree_state_free, state_free_deref|]. intro resp'.
  destruct (json.Unmarshal (Data resp')) as [responseData [e|]]; [apply agree_ret|].
  destruct (0 <? len responseData); [|apply agree_ret].
  apply agree_bind; [apply agree_state_free, state_free_at|]. intro r0.
  destruct (as_slice r0) as [projects|]; [|apply agree_ret].
  apply agree_bind; [apply agree_scan_projects|].
  intros [r|]; apply agree_ret.
Qed.

End DebugFlag.

(** X26.  The debug flag changes what is printed and nothing else.  Two
    clients that differ in the flag get the same result and issue the same
    requests from [CheckSourceFreshness], from its earlier revision and from
    [AddYouTubeSource]. *)
Theorem debug_flag_only_changes_output
    (c1 c2 : Client) (sourceID projectID videoID : string) (w : World) :
  (result_of (CheckSourceFreshness c1 sourceID w)
   = result_of (CheckSourceFreshness c2 sourceID w)
   /\ trace (world_of (CheckSourceFreshness c1 sourceID w))
      = trace (world_of (CheckSourceFreshness c2 sourceID w)))
  /\ (result_of (part_000.CheckSourceFreshness c1 sourceID w)
      = result_of (part_000.CheckSourceFreshness c2 sourceID w)
      /\ trace (world_of (part_000.CheckSourceFreshness c1 sourceID w))
         = trace (world_of (part_000.CheckSourceFreshness c2 sourceID w)))
  /\ (result_of (AddYouTubeSource c1 projectID videoID w)
      = result_of (AddYouTubeSource c2 projectID videoID w)
      /\ trace (world_of (AddYouTubeSource c1 projectID videoID w))
         = trace (world_of (AddYouTubeSource c2 projectID videoID w))).
Proof.
  assert (sim eq w w) as Hs by (split; reflexivity).
  split; [|split]; apply (agree_results eq); try exact Hs.
  - apply agree_CheckSourceFreshness. apply same_full.
  - apply agree_part_000_CheckSourceFreshness.
  - apply agree_AddYouTubeSource.
Qed.
